(** * YijinLiu/logging: a shallow embedding of logging.go and redirect.go

    The Go package keeps a process-wide log pipeline (logging.go: [logText],
    [processLogs], [Close]) and a file redirector (redirect.go: [Write],
    [writeLog], [recycleOldLogFiles], [LogLines]).  Goroutines are modelled
    by the atomic actions they take on the shared state; every operation
    that can panic or block in Go returns an [outcome]. *)

From Stdlib Require Import ZArith Lia Bool Ascii String List DecimalString DecimalPos.
From Stdlib Require Import Sorting.Sorted Sorting.Permutation.
From stdpp Require Import base tactics option list strings gmap.

Local Open Scope Z_scope.

(** ** Go runtime primitives *)

Module Go.

(** What a Go call can do from a given state: return, panic, or wait on
    a channel until another goroutine changes the state. *)
Inductive outcome (A : Type) : Type :=
| Returns (a : A)
| Panics
| Blocks.
Arguments Returns {A} a.
Arguments Panics {A}.
Arguments Blocks {A}.

Definition bind {A B} (m : outcome A) (k : A -> outcome B) : outcome B :=
  match m with
  | Returns a => k a
  | Panics => Panics
  | Blocks => Blocks
  end.

(** Fixed-width integers: [int] and [int64] are 64-bit two's complement,
    [uint32] is 32-bit unsigned. *)
Definition int64 (x : Z) : Z := (x + 2 ^ 63) mod 2 ^ 64 - 2 ^ 63.
Definition uint32 (x : Z) : Z := x mod 2 ^ 32.

(** [fmt]'s %d. *)
Definition itoa (x : Z) : string := NilZero.string_of_int (Z.to_int x).

(** A buffered channel, [make(chan A, cap)] with [cap > 0]: the values
    queued and the closed flag.  (On a channel of capacity 0 a send can
    meet a receiver that is already waiting; that hand-over is outside
    this model, which only ever finds such a channel full.) *)
Record chan (A : Type) : Type := Chan {
  buf : list A;
  cap : nat;
  closed : bool
}.
Arguments Chan {A} buf cap closed.
Arguments buf {A} c.
Arguments cap {A} c.
Arguments closed {A} c.

Definition make {A} (n : nat) : chan A := Chan [] n false.

Definition full {A} (c : chan A) : bool := (cap c <=? length (buf c))%nat.

(** [len(ch)] *)
Definition len {A} (c : chan A) : nat := length (buf c).

(** [select { case ch <- v: ...; default: ... }] when [has_default], and
    [select { case ch <- v: ... }] otherwise.  The boolean of the result
    tells which branch ran: [true] for the send, [false] for default.
    Sending on a closed channel panics; a full channel without a default
    branch parks the goroutine. *)
Definition select_send {A} (has_default : bool) (c : chan A) (v : A)
  : outcome (chan A * bool) :=
  if closed c then Panics
  else if full c then
    (if has_default then Returns (c, false) else Blocks)
  else Returns (Chan (buf c ++ [v]) (cap c) (closed c), true).

(** One turn of [for v := range ch]: [Some v] for a received value,
    [None] when the channel is closed and drained. *)
Definition recv {A} (c : chan A) : outcome (option A * chan A) :=
  match buf c with
  | v :: rest => Returns (Some v, Chan rest (cap c) (closed c))
  | [] => if closed c then Returns (None, c) else Blocks
  end.

(** [close(ch)]: closing a closed channel panics. *)
Definition close {A} (c : chan A) : outcome (chan A) :=
  if closed c then Panics else Returns (Chan (buf c) (cap c) true).

(** [sort.Slice(x, less)]: the elements of [x] rearranged so that none
    is [less] than one before it.  Elements neither of which is [less]
    than the other keep the order they come in here; [sort.Slice] leaves
    their order open, which callers account for by the order they hand
    the elements over in. *)
Fixpoint insertBy {A} (less : A -> A -> bool) (a : A) (l : list A) : list A :=
  match l with
  | [] => [a]
  | b :: rest => if less b a then b :: insertBy less a rest else a :: l
  end.

Definition sortSlice {A} (less : A -> A -> bool) (l : list A) : list A :=
  fold_right (insertBy less) [] l.

End Go.

Import Go.

#[global] Instance outcome_ret : MRet outcome := @Returns.
#[global] Instance outcome_bind : MBind outcome := fun A B k m => Go.bind m k.

(** ** Strings as Go has them: byte sequences *)

Module Str.

Definition isDigit (c : ascii) : bool :=
  (48 <=? nat_of_ascii c)%nat && (nat_of_ascii c <=? 57)%nat.

(** [[;0-9]] *)
Definition isColorArg (c : ascii) : bool :=
  isDigit c || (nat_of_ascii c =? 59)%nat.

(** [len(s)] *)
Definition len (s : string) : Z := Z.of_nat (String.length s).

(** [[0-9]{n}] at the head of [s]: the digits and the rest. *)
Fixpoint digits (n : nat) (s : string) : option (string * string) :=
  match n with
  | O => Some (EmptyString, s)
  | S k =>
      match s with
      | String c rest =>
          if isDigit c then
            '(ds, rest') ← digits k rest; Some (String c ds, rest')
          else None
      | EmptyString => None
      end
  end.

(** [[0-9]*] at the head of [s], greedy. *)
Fixpoint digitSpan (s : string) : string * string :=
  match s with
  | String c rest =>
      if isDigit c then
        let '(ds, rest') := digitSpan rest in (String c ds, rest')
      else (EmptyString, s)
  | EmptyString => (EmptyString, EmptyString)
  end.

(** [[0-9]+] *)
Definition digits1 (s : string) : option (string * string) :=
  match digitSpan s with
  | (EmptyString, _) => None
  | r => Some r
  end.

(** One literal byte. *)
Definition lit (c : ascii) (s : string) : option string :=
  match s with
  | String c' rest => if Ascii.eqb c c' then Some rest else None
  | EmptyString => None
  end.

(** Decimal value of a string of digits. *)
Fixpoint atoiAcc (acc : Z) (s : string) : Z :=
  match s with
  | String c rest => atoiAcc (10 * acc + (Z.of_nat (nat_of_ascii c) - 48)) rest
  | EmptyString => acc
  end.
Definition atoi (s : string) : Z := atoiAcc 0 s.

(** A string from its bytes. *)
Definition bytes (l : list Z) : string :=
  string_of_list_ascii (map (fun n => ascii_of_nat (Z.to_nat n)) l).

(** The UTF-8 encodings of the code points [unicode.IsSpace] accepts:
    tab, newline, vertical tab, form feed, carriage return, space,
    U+0085, U+00A0, U+1680, U+2000 to U+200A, U+2028, U+2029, U+202F,
    U+205F and U+3000. *)
Definition spaceRunes : list string :=
  [bytes [9]; bytes [10]; bytes [11]; bytes [12]; bytes [13]; bytes [32];
   bytes [194; 133]; bytes [194; 160];
   bytes [225; 154; 128];
   bytes [226; 128; 128]; bytes [226; 128; 129]; bytes [226; 128; 130];
   bytes [226; 128; 131]; bytes [226; 128; 132]; bytes [226; 128; 133];
   bytes [226; 128; 134]; bytes [226; 128; 135]; bytes [226; 128; 136];
   bytes [226; 128; 137]; bytes [226; 128; 138];
   bytes [226; 128; 168]; bytes [226; 128; 169]; bytes [226; 128; 175];
   bytes [226; 129; 159];
   bytes [227; 128; 128]].

(** The number of bytes of the rune of [runes] that [s] starts with; 0
    when it starts with none. *)
Definition runeAtHead (runes : list string) (s : string) : nat :=
  match List.find (fun r => String.prefix r s) runes with
  | Some r => String.length r
  | None => 0
  end.

(** Drop the runes of [runes] at the head of [s]; [skip] counts the
    bytes of the rune being dropped. *)
Fixpoint trimLeftFrom (runes : list string) (skip : nat) (s : string) : string :=
  match s with
  | EmptyString => EmptyString
  | String _ rest =>
      match skip with
      | S k => trimLeftFrom runes k rest
      | O =>
          match runeAtHead runes s with
          | S k => trimLeftFrom runes k rest
          | O => s
          end
      end
  end.

Definition revBytes (s : string) : string :=
  string_of_list_ascii (rev (list_ascii_of_string s)).

(** [strings.TrimLeftFunc(s, unicode.IsSpace)] *)
Definition trimLeft (s : string) : string := trimLeftFrom spaceRunes 0 s.

(** [strings.TrimRightFunc(s, unicode.IsSpace)]: the runes are decoded
    from the end, which finds a space exactly when its encoding ends the
    string. *)
Definition trimRight (s : string) : string :=
  revBytes (trimLeftFrom (map revBytes spaceRunes) 0 (revBytes s)).

(** [strings.TrimSpace] *)
Definition TrimSpace (s : string) : string := trimRight (trimLeft s).

(** [strings.Split(s, "/")] *)
Fixpoint splitSlash (s : string) : list string :=
  match s with
  | EmptyString => [EmptyString]
  | String c rest =>
      if Ascii.eqb c "/" then EmptyString :: splitSlash rest
      else
        match splitSlash rest with
        | h :: t => String c h :: t
        | [] => [String c EmptyString]
        end
  end.

(** [strings.Join(elems, "/")] *)
Fixpoint joinSlash (elems : list string) : string :=
  match elems with
  | [] => EmptyString
  | [e] => e
  | e :: rest => e +:+ "/" +:+ joinSlash rest
  end.

(** One step of [filepath.Clean]: the element [elem] after the elements
    [kept] (innermost first).  Empty elements and "." are dropped; ".."
    takes back the element before it, stays when there is none to take
    back, and is dropped at the root. *)
Definition cleanStep (rooted : bool) (kept : list string) (elem : string)
  : list string :=
  if String.eqb elem EmptyString || String.eqb elem "." then kept
  else if String.eqb elem ".." then
    match kept with
    | top :: below => if String.eqb top ".." then elem :: kept else below
    | [] => if rooted then [] else [elem]
    end
  else elem :: kept.

(** [filepath.Clean(path)] on a system whose separator is the slash. *)
Definition Clean (path : string) : string :=
  if String.eqb path EmptyString then "."
  else
    let rooted := String.prefix "/" path in
    let kept := rev (fold_left (cleanStep rooted) (splitSlash path) []) in
    let out := (if rooted then "/" else EmptyString) +:+ joinSlash kept in
    if String.eqb out EmptyString then "." else out.

(** [strings.Join(parts, "")] as used by [fmt.Sprint] on strings. *)
Definition concat (parts : list string) : string :=
  fold_right String.append EmptyString parts.

End Str.

(** ** The part of package [time] the redirector uses *)

Module Time.

(** A location answers, for an instant, the zone in effect: its offset
    east of UTC in seconds and the half-open interval of instants on
    which that zone applies ([Location.lookup]). *)
Record zone : Type := Zone { offset : Z; zstart : Z; zend : Z }.
Definition Location : Type := Z -> zone.

(** A location with one fixed offset. *)
Definition FixedZone (off : Z) : Location :=
  fun _ => Zone off (- 2 ^ 63) (2 ^ 63 - 1).
Definition UTC : Location := FixedZone 0.

Definition isLeap (y : Z) : bool :=
  (y mod 4 =? 0) && (negb (y mod 100 =? 0) || (y mod 400 =? 0)).

Definition daysIn (m y : Z) : Z :=
  if m =? 2 then (if isLeap y then 29 else 28)
  else if (m =? 4) || (m =? 6) || (m =? 9) || (m =? 11) then 30
  else 31.

(** Days from 1970-01-01 to the civil date [y]-[m]-[d]. *)
Definition daysFromCivil (y m d : Z) : Z :=
  let y' := if m <=? 2 then y - 1 else y in
  let era := y' / 400 in
  let yoe := y' - era * 400 in
  let mp := if m >? 2 then m - 3 else m + 9 in
  let doy := (153 * mp + 2) / 5 + d - 1 in
  let doe := yoe * 365 + yoe / 4 - yoe / 100 + doy in
  era * 146097 + doe - 719468.

(** [time.Date(y, m, d, hh, mm, ss, 0, loc).Unix()] *)
Definition Date (y m d hh mm ss : Z) (loc : Location) : Z :=
  let unix := daysFromCivil y m d * 86400 + hh * 3600 + mm * 60 + ss in
  let z := loc unix in
  if offset z =? 0 then unix
  else
    let utc := unix - offset z in
    let off :=
      if (utc <? zstart z) || (utc >=? zend z) then offset (loc utc)
      else offset z in
    unix - off.

(** [Time{}.Unix()]: what the callers get when they drop a parse error. *)
Definition zeroUnix : Z := -62135596800.

(** The range checks of [time.Parse] on fields that are already known to
    be digit strings of the right width; [None] is the parse error. *)
Definition fromFields (y m d hh mm ss : string) (loc : Location) : option Z :=
  let y := Str.atoi y in let m := Str.atoi m in let d := Str.atoi d in
  let hh := Str.atoi hh in let mm := Str.atoi mm in let ss := Str.atoi ss in
  if (m <? 1) || (12 <? m) || (d <? 1) || (daysIn m y <? d)
     || (24 <=? hh) || (60 <=? mm) || (60 <=? ss)
  then None
  else Some (Date y m d hh mm ss loc).

(** [tm, _ := time.ParseInLocation("20060102-150405", s, loc); tm.Unix()] *)
Definition parseFileTime (s : string) (loc : Location) : Z :=
  default zeroUnix (
    '(y, s) ← Str.digits 4 s; '(m, s) ← Str.digits 2 s;
    '(d, s) ← Str.digits 2 s; s ← Str.lit "-" s;
    '(hh, s) ← Str.digits 2 s; '(mm, s) ← Str.digits 2 s;
    '(ss, s) ← Str.digits 2 s;
    if String.eqb s EmptyString then fromFields y m d hh mm ss loc else None).

(** [tm, _ := time.ParseInLocation("2006/01/02 15:04:05", s, loc); tm.Unix()] *)
Definition parseLineTime (s : string) (loc : Location) : Z :=
  default zeroUnix (
    '(y, s) ← Str.digits 4 s; s ← Str.lit "/" s;
    '(m, s) ← Str.digits 2 s; s ← Str.lit "/" s;
    '(d, s) ← Str.digits 2 s; s ← Str.lit " " s;
    '(hh, s) ← Str.digits 2 s; s ← Str.lit ":" s;
    '(mm, s) ← Str.digits 2 s; s ← Str.lit ":" s;
    '(ss, s) ← Str.digits 2 s;
    if String.eqb s EmptyString then fromFields y m d hh mm ss loc else None).

End Time.

(** ** The three regular expressions of redirect.go *)

Module Re.

(** Length of a match of [colorRe = "\033[[][;0-9]+m"] at the head of
    [s].  The class excludes [m], so the greedy run is the only
    candidate. *)
Fixpoint colorArgs (s : string) : option nat :=
  match s with
  | String c rest =>
      if Str.isColorArg c then
        match colorArgs rest with
        | Some n => Some (S n)
        | None => None
        end
      else if Ascii.eqb c "m" then Some 1%nat else None
  | EmptyString => None
  end.

Definition colorMatchLen (s : string) : option nat :=
  match s with
  | String e (String b (String c rest)) =>
      if Ascii.eqb e (ascii_of_nat 27) && Ascii.eqb b "[" && Str.isColorArg c
      then n ← colorArgs rest; Some (3 + n)%nat
      else None
  | _ => None
  end.

(** [colorRe.ReplaceAllString(s, "")]: [skip] counts the bytes of the
    current match still to be dropped. *)
Fixpoint stripColorFrom (skip : nat) (s : string) : string :=
  match s with
  | EmptyString => EmptyString
  | String c rest =>
      match skip with
      | S k => stripColorFrom k rest
      | O =>
          match colorMatchLen s with
          | Some n => stripColorFrom (Nat.pred n) rest
          | None => String c (stripColorFrom 0 rest)
          end
      end
  end.
Definition stripColor (s : string) : string := stripColorFrom 0 s.

(** [logFileNameRe.FindStringSubmatch(name)] for
    [^[0-9]{8}-[0-9]{6}_([0-9]{8}-[0-9]{6})_[0-9]+[.]log$]:
    the whole match and group 1, or the nil slice. *)
Definition fileNameSubmatch (name : string) : list string :=
  default [] (
    '(_, s) ← Str.digits 8 name; s ← Str.lit "-" s;
    '(_, s) ← Str.digits 6 s; s ← Str.lit "_" s;
    '(g1, s) ← Str.digits 8 s; s ← Str.lit "-" s;
    '(g2, s) ← Str.digits 6 s; s ← Str.lit "_" s;
    '(_, s) ← Str.digits1 s;
    if String.eqb s ".log" then Some [name; g1 +:+ "-" +:+ g2] else None).

(** [logFileNameRe.MatchString(name)] *)
Definition fileNameMatch (name : string) : bool :=
  match fileNameSubmatch name with [] => false | _ => true end.

(** [logLineStartRe.FindStringSubmatch(line)] for
    [^([0-9]{4}/[0-9]{2}/[0-9]{2} [0-9]{2}:[0-9]{2}:[0-9]{2})]. *)
Definition lineStartSubmatch (line : string) : list string :=
  default [] (
    '(_, s) ← Str.digits 4 line; s ← Str.lit "/" s;
    '(_, s) ← Str.digits 2 s; s ← Str.lit "/" s;
    '(_, s) ← Str.digits 2 s; s ← Str.lit " " s;
    '(_, s) ← Str.digits 2 s; s ← Str.lit ":" s;
    '(_, s) ← Str.digits 2 s; s ← Str.lit ":" s;
    '(_, s) ← Str.digits 2 s;
    let m := substring 0 19 line in Some [m; m]).

End Re.

(** ** The operating system as the redirector sees it *)

Module Os.

(** A call that returns [(value, error)]. *)
Inductive res (A : Type) : Type :=
| Ok (a : A)
| Err (msg : string).
Arguments Ok {A} a.
Arguments Err {A} msg.

(** [os.FileInfo] *)
Record FileInfo : Type := {
  Name : string;
  Size : Z;
  ModTime : Z;
  IsRegular : bool
}.

(** [filepath.Join(dir, name)]: the elements from the first one that is
    not empty on, joined by slashes and cleaned. *)
Definition Join (dir name : string) : string :=
  if negb (String.eqb dir EmptyString) then Str.Clean (dir +:+ "/" +:+ name)
  else if negb (String.eqb name EmptyString) then Str.Clean name
  else EmptyString.

(** Answers of the system to the calls of the package.  [time.Local]
    and the clock are part of it. *)
Record t : Type := {
  Local : Time.Location;
  (** [os.Open(dir)] followed by [Readdir(0)] *)
  Readdir : string -> res (list FileInfo);
  (** [os.Open(path)] followed by a [bufio.Scanner] run over the file:
      the lines the scanner yields *)
  ScanLines : string -> res (list string);
  (** [os.Stat(path)] then [Size()] *)
  StatSize : string -> res Z;
  (** [os.Remove(path)] *)
  Remove : string -> res unit;
  (** [os.Symlink(target, link)] *)
  Symlink : string -> string -> res unit;
  (** [C.write_to_log(data)] *)
  write_to_log : string -> Z;
  (** [C.redirect_stdout_stderr_to(path)] *)
  redirect_stdout_stderr_to : string -> Z;
  (** [time.Now().Format(LOG_FILE_TIME_FORMAT)] *)
  NowFileTime : string
}.

End Os.

(** ** redirect.go *)

Module Redirect.

Import Os.

(** Command-line flags. *)
Record Flags : Type := {
  maxLogFileSizeFlag : Z;
  maxLogDirSizeFlag : Z;
  alsoLogToStdoutFlag : bool;
  logChanSizeFlag : nat
}.

Definition defaultFlags : Flags := {|
  maxLogFileSizeFlag := 10 * 1000 * 1000;
  maxLogDirSizeFlag := 1000 * 1000 * 1000;
  alsoLogToStdoutFlag := false;
  logChanSizeFlag := 100
|}.

(** [startTimeStr] is [l.startTime.Format(LOG_FILE_TIME_FORMAT)], the only
    way the start time is used; [wgDone] tells that [writeLog] has
    returned. *)
Record LogRedirector : Type := {
  logDir : string;
  logFileName : string;
  startTimeStr : string;
  bytesWritten : Z;
  numLogFiles : Z;
  logCh : chan string;
  wgDone : bool
}.

Definition setLogCh (l : LogRedirector) (c : chan string) : LogRedirector :=
  {| logDir := logDir l; logFileName := logFileName l;
     startTimeStr := startTimeStr l; bytesWritten := bytesWritten l;
     numLogFiles := numLogFiles l; logCh := c; wgDone := wgDone l |}.

Definition setBytesWritten (l : LogRedirector) (n : Z) : LogRedirector :=
  {| logDir := logDir l; logFileName := logFileName l;
     startTimeStr := startTimeStr l; bytesWritten := n;
     numLogFiles := numLogFiles l; logCh := logCh l; wgDone := wgDone l |}.

Definition setWgDone (l : LogRedirector) : LogRedirector :=
  {| logDir := logDir l; logFileName := logFileName l;
     startTimeStr := startTimeStr l; bytesWritten := bytesWritten l;
     numLogFiles := numLogFiles l; logCh := logCh l; wgDone := true |}.

(** [var logChFullErr = errors.New("log channel is full")] *)
Definition logChFullErr : string := "log channel is full".

(** [func (l *LogRedirector) Write(p []byte) (n int, err error)]:
    the [select] has a single send case and no [default]; the statement
    after it returns [(0, logChFullErr)].  The result carries the
    redirector's new state. *)
Definition Write (l : LogRedirector) (p : string)
  : outcome (LogRedirector * (Z * option string)) :=
  let logData := p in
  '(c, sent) ← select_send false (logCh l) logData;
  if sent : bool then mret (setLogCh l c, (Str.len logData, None))
  else mret (l, (0, Some logChFullErr)).

(** [func LogFileStartTs(fileName string) int64]: indexing the submatch
    slice at 1 panics when the slice is nil. *)
Definition LogFileStartTs (loc : Time.Location) (fileName : string) : outcome Z :=
  match Re.fileNameSubmatch fileName !! 1%nat with
  | Some tmStr => Returns (Time.parseFileTime tmStr loc)
  | None => Panics
  end.

(** [func LogLineTs(logLine string) int64] *)
Definition LogLineTs (loc : Time.Location) (logLine : string) : Z :=
  match Re.lineStartSubmatch logLine with
  | [] => 0
  | mtch => Time.parseLineTime (default EmptyString (mtch !! 1%nat)) loc
  end.

(** *** Retrieval: [LogLines] *)

(** [sort.Search(n, f)]: the binary search of package [sort].  [fuel]
    bounds the number of halvings; [n] of them are always enough. *)
Fixpoint searchLoop (fuel : nat) (f : nat -> outcome bool) (i j : nat)
  : outcome nat :=
  if (i <? j)%nat then
    match fuel with
    | O => Returns i
    | S fuel' =>
        let h := ((i + j) / 2)%nat in
        b ← f h;
        if negb b then searchLoop fuel' f (h + 1)%nat j
        else searchLoop fuel' f i h
    end
  else Returns i.

Definition Search (n : nat) (f : nat -> outcome bool) : outcome nat :=
  searchLoop n f 0%nat n.

(** [fis[i]]: an index out of range panics. *)
Definition index {A} (l : list A) (i : nat) : outcome A :=
  match l !! i with
  | Some a => Returns a
  | None => Panics
  end.

(** [sort.Slice(fis, func(i, j int) bool { return fis[i].Name() > fis[j].Name() })] *)
Fixpoint insertByName (fi : FileInfo) (fis : list FileInfo) : list FileInfo :=
  match fis with
  | [] => [fi]
  | fj :: rest =>
      if String.ltb (Name fi) (Name fj) then fj :: insertByName fi rest
      else fi :: fis
  end.

Definition sortByNameDesc (fis : list FileInfo) : list FileInfo :=
  fold_right insertByName [] fis.

(** [colorRe.ReplaceAllString(strings.TrimSpace(line), "")] *)
Definition cleanLine (line : string) : string :=
  Re.stripColor (Str.TrimSpace line).

(** The scanner loop of [logLinesAfter] with its two variables
    [findFirstLine] and [*numBytes]. *)
Fixpoint scanAfter (loc : Time.Location) (startTs : Z) (findFirstLine : bool)
    (ls : list string) (numBytes : Z) : list string * Z :=
  match ls with
  | [] => ([], numBytes)
  | line :: rest =>
      if findFirstLine && (LogLineTs loc line <? startTs) then
        scanAfter loc startTs true rest numBytes
      else
        let line := cleanLine line in
        let numBytes := int64 (numBytes - Str.len line) in
        if numBytes <=? 0 then ([line], numBytes)
        else
          let '(lines, numBytes) := scanAfter loc startTs false rest numBytes in
          (line :: lines, numBytes)
  end.

(** [func (l *LogRedirector) logLinesAfter(fi, startTs, numBytes)]: the
    lines and the new value of [*numBytes]. *)
Definition logLinesAfter (os : Os.t) (l : LogRedirector) (fi : FileInfo)
    (startTs numBytes : Z) : outcome (list string * Z) :=
  match ScanLines os (Join (logDir l) (Name fi)) with
  | Err _ => Returns ([], numBytes)
  | Ok ls =>
      ts ← LogFileStartTs (Local os) (Name fi);
      Returns (scanAfter (Local os) startTs (ts <? startTs) ls numBytes)
  end.

(** The scanner loop of [logLinesBefore]. *)
Fixpoint scanBefore (loc : Time.Location) (startTs : Z) (ls : list string)
  : list string :=
  match ls with
  | [] => []
  | line :: rest =>
      if (startTs >? 0) && (LogLineTs loc line >=? startTs) then []
      else cleanLine line :: scanBefore loc startTs rest
  end.

(** [for i := len(lines) - 1; i >= 0; i--] of [logLinesBefore];
    [k] is [i + 1]. *)
Fixpoint budgetFromEnd (lines : list string) (k : nat) (numBytes : Z)
  : list string * Z :=
  match k with
  | O => (lines, numBytes)
  | S i =>
      let numBytes := int64 (numBytes - Str.len (default EmptyString (lines !! i))) in
      if numBytes <=? 0 then (drop i lines, numBytes)
      else budgetFromEnd lines i numBytes
  end.

(** [func (l *LogRedirector) logLinesBefore(fi, startTs, numBytes)] *)
Definition logLinesBefore (os : Os.t) (l : LogRedirector) (fi : FileInfo)
    (startTs numBytes : Z) : list string * Z :=
  match ScanLines os (Join (logDir l) (Name fi)) with
  | Err _ => ([], numBytes)
  | Ok ls =>
      let lines := scanBefore (Local os) startTs ls in
      budgetFromEnd lines (length lines) numBytes
  end.

(** [startTs == 0]: [for _, fi := range fis]. *)
Fixpoint loopRecent (os : Os.t) (l : LogRedirector) (fis : list FileInfo)
    (lines : list string) (numBytes : Z) : list string :=
  match fis with
  | [] => lines
  | fi :: rest =>
      let '(ls, numBytes) := logLinesBefore os l fi 0 numBytes in
      let lines := ls ++ lines in
      if numBytes <=? 0 then lines else loopRecent os l rest lines numBytes
  end.

(** [startTs > 0]: [for i := start; i >= 0; i--]. *)
Fixpoint loopAfter (os : Os.t) (l : LogRedirector) (fis : list FileInfo)
    (startTs : Z) (i : nat) (lines : list string) (numBytes : Z)
  : outcome (list string) :=
  fi ← index fis i;
  '(ls, numBytes) ← logLinesAfter os l fi startTs numBytes;
  let lines := lines ++ ls in
  if numBytes <=? 0 then Returns lines
  else
    match i with
    | O => Returns lines
    | S i' => loopAfter os l fis startTs i' lines numBytes
    end.

(** [startTs < 0]: [for i := start; i < len(fis); i++], run over
    [fis[start:]]; [startTs] is set to 0 at the end of each turn. *)
Fixpoint loopBefore (os : Os.t) (l : LogRedirector) (fis : list FileInfo)
    (startTs : Z) (lines : list string) (numBytes : Z) : list string :=
  match fis with
  | [] => lines
  | fi :: rest =>
      let '(ls, numBytes) := logLinesBefore os l fi startTs numBytes in
      let lines := ls ++ lines in
      if numBytes <=? 0 then lines else loopBefore os l rest 0 lines numBytes
  end.

(** The files [LogLines] works on: regular, named like a log file, latest
    first. *)
Definition logFiles (fis : list FileInfo) : list FileInfo :=
  sortByNameDesc
    (filter (fun fi => IsRegular fi && Re.fileNameMatch (Name fi) = true) fis).

(** [func (l *LogRedirector) LogLines(startTs, numBytes int64) []string] *)
Definition LogRedirector_LogLines (os : Os.t) (l : LogRedirector)
    (startTs numBytes : Z) : outcome (list string) :=
  match Readdir os (logDir l) with
  | Err _ => Returns []
  | Ok fis =>
      let fis := logFiles fis in
      if (length fis =? 0)%nat then Returns []
      else if startTs =? 0 then Returns (loopRecent os l fis [] numBytes)
      else if startTs >? 0 then
        start ← Search (length fis) (fun i =>
                  fi ← index fis i;
                  ts ← LogFileStartTs (Local os) (Name fi);
                  Returns (ts <=? startTs));
        let start :=
          if (start =? length fis)%nat then (length fis - 1)%nat else start in
        loopAfter os l fis startTs start [] numBytes
      else
        let startTs := int64 (- startTs) in
        start ← Search (length fis) (fun i =>
                  fi ← index fis i;
                  ts ← LogFileStartTs (Local os) (Name fi);
                  Returns (ts <? startTs));
        Returns (loopBefore os l (drop start fis) startTs [] numBytes)
  end.

(** [func LogLines(startTs, numBytes int64) []string] on the package
    variable [lr]. *)
Definition LogLines (os : Os.t) (lr : option LogRedirector)
    (startTs numBytes : Z) : outcome (list string) :=
  match lr with
  | None => Returns []
  | Some l => LogRedirector_LogLines os l startTs numBytes
  end.

(** *** The writer task: [writeLog], rotation and recycling *)

(** What the writer does to the outside world, in order. *)
Inductive event : Type :=
| EvStdout (data : string)          (* l.stdout.Write; l.stdout.Sync *)
| EvStderr (msg : string)           (* fmt.Fprint* on l.stderr *)
| EvWriteLog (data : string)        (* C.write_to_log *)
| EvStat (path : string)            (* os.Stat *)
| EvRedirect (path : string)        (* C.redirect_stdout_stderr_to: freopen
                                       closes the current target and opens path *)
| EvSymlink (target link : string)  (* os.Symlink *)
| EvReaddir (dir : string)          (* os.Open; Readdir *)
| EvRemove (path : string).         (* os.Remove *)

(** [func (l *LogRedirector) writeToCStdout(data []byte) int] *)
Definition writeToCStdout (os : Os.t) (data : string) : Z * list event :=
  (write_to_log os data, [EvWriteLog data]).

(** [func (l *LogRedirector) redirectToNewFile()] *)
Definition redirectToNewFile (fl : Flags) (os : Os.t) (l : LogRedirector)
  : LogRedirector * list event :=
  let numLogFiles' := int64 (numLogFiles l + 1) in
  let logFileBase :=
    startTimeStr l +:+ "_" +:+ NowFileTime os +:+ "_" +:+ itoa numLogFiles' +:+ ".log" in
  let announce := "Redirecting log to '" +:+ logFileBase +:+ "'." +:+ String "010" EmptyString in
  let ev1 :=
    if String.eqb (logFileName l) EmptyString then []
    else snd (writeToCStdout os announce) in
  let logFileName' := Join (logDir l) logFileBase in
  if negb (redirect_stdout_stderr_to os logFileName' =? 0) then
    ({| logDir := logDir l; logFileName := logFileName l;
        startTimeStr := startTimeStr l; bytesWritten := bytesWritten l;
        numLogFiles := numLogFiles'; logCh := logCh l; wgDone := wgDone l |},
     ev1 ++ [EvRedirect logFileName';
             EvStderr "Failed to redirect stdout / stderr."])
  else
    let symlink := Join (logDir l) "latest" in
    let ev2 :=
      match Remove os symlink with
      | Err e => [EvRemove symlink; EvStderr e]
      | Ok _ => [EvRemove symlink]
      end in
    let ev3 :=
      match Symlink os logFileBase symlink with
      | Err e => [EvSymlink logFileBase symlink; EvStderr e]
      | Ok _ => [EvSymlink logFileBase symlink]
      end in
    let ev4 := if alsoLogToStdoutFlag fl then [EvStdout announce] else [] in
    ({| logDir := logDir l; logFileName := logFileName';
        startTimeStr := startTimeStr l; bytesWritten := 0;
        numLogFiles := numLogFiles'; logCh := logCh l; wgDone := wgDone l |},
     ev1 ++ [EvRedirect logFileName'] ++ ev2 ++ ev3 ++ ev4).

(** [for _, fi := range fis { dirSize += fi.Size() }] *)
Definition sumSizes (fis : list FileInfo) : Z :=
  fold_left (fun dirSize fi => int64 (dirSize + Size fi)) fis 0.

(** The deleting loop of [recycleOldLogFiles], over the sorted entries. *)
Fixpoint recycleLoop (os : Os.t) (l : LogRedirector) (maxLogDirSize : Z)
    (fis : list FileInfo) (dirSize : Z) : list event :=
  match fis with
  | [] => []
  | fi :: rest =>
      if negb (IsRegular fi) then recycleLoop os l maxLogDirSize rest dirSize
      else
        let file := Join (logDir l) (Name fi) in
        if String.eqb file (logFileName l) then
          recycleLoop os l maxLogDirSize rest dirSize
        else
          let note :=
            "Deleting '" +:+ file +:+ "' (" +:+ itoa dirSize +:+ "-"
            +:+ itoa (Size fi) +:+ ")..." +:+ String "010" EmptyString in
          match Remove os file with
          | Err e =>
              [EvWriteLog note; EvRemove file; EvStderr e]
              ++ recycleLoop os l maxLogDirSize rest dirSize
          | Ok _ =>
              let dirSize := int64 (dirSize - Size fi) in
              [EvWriteLog note; EvRemove file]
              ++ (if dirSize <=? maxLogDirSize then []
                  else recycleLoop os l maxLogDirSize rest dirSize)
          end
  end.

Section Recycler.

(** [sort.Slice] is not stable.  [ties] is the order in which it comes
    upon the entries: some rearrangement of the listing, which decides
    the order among entries of equal modification time and nothing
    else. *)
Variable ties : list FileInfo -> list FileInfo.

(** [sort.Slice(fis, func(i, j int) bool {
      return fis[i].ModTime().Before(fis[j].ModTime()) })] *)
Definition sortByModTime (fis : list FileInfo) : list FileInfo :=
  sortSlice (fun fi fj => ModTime fi <? ModTime fj) (ties fis).

(** [func (l *LogRedirector) recycleOldLogFiles()] *)
Definition recycleOldLogFiles (fl : Flags) (os : Os.t) (l : LogRedirector)
  : list event :=
  match Readdir os (logDir l) with
  | Err e => [EvReaddir (logDir l); EvStderr e]
  | Ok fis =>
      let dirSize := sumSizes fis in
      let maxLogDirSize := maxLogDirSizeFlag fl in
      if dirSize >? maxLogDirSize then
        let fis := sortByModTime fis in
        let note :=
          "Trying to recycle old log files from '" +:+ logDir l +:+ "' ("
          +:+ itoa dirSize +:+ ">" +:+ itoa maxLogDirSize +:+ ")..."
          +:+ String "010" EmptyString in
        [EvReaddir (logDir l); EvWriteLog note]
        ++ recycleLoop os l maxLogDirSize fis dirSize
      else [EvReaddir (logDir l)]
  end.

(** [a / b] on [int64]: division by zero panics. *)
Definition div64 (a b : Z) : outcome Z :=
  if b =? 0 then Panics else Returns (int64 (Z.quot a b)).

(** The [else] branch of [writeLog] after a complete write of [n]
    bytes: "Check log file / dir every block bytes". *)
Definition checkRotate (fl : Flags) (os : Os.t) (l : LogRedirector) (n : Z)
  : outcome (LogRedirector * list event) :=
  block ← div64 (maxLogFileSizeFlag fl) 10;
  old ← div64 (bytesWritten l) block;
  let l := setBytesWritten l (int64 (bytesWritten l + n)) in
  new ← div64 (bytesWritten l) block;
  if negb (new =? old) then
    match StatSize os (logFileName l) with
    | Err e => Returns (l, [EvStat (logFileName l); EvStderr e])
    | Ok size =>
        if size >=? maxLogFileSizeFlag fl then
          let '(l', ev) := redirectToNewFile fl os l in
          Returns (l', [EvStat (logFileName l)] ++ ev
                       ++ recycleOldLogFiles fl os l')
        else Returns (l, [EvStat (logFileName l)])
    end
  else Returns (l, []).

(** One turn of [for logData := range l.logCh] in [writeLog]; [data] is
    the writer's local buffer (empty for nil).  When the channel is
    closed and drained the loop ends and [wg.Done()] runs. *)
Definition writeLogTurn (fl : Flags) (os : Os.t)
    (st : LogRedirector * string) : outcome (LogRedirector * string * list event) :=
  let '(l, data) := st in
  '(v, c) ← recv (logCh l);
  let l := setLogCh l c in
  match v with
  | None => Returns (setWgDone l, data, [])
  | Some logData =>
      let ev1 := if alsoLogToStdoutFlag fl then [EvStdout logData] else [] in
      if String.eqb (logFileName l) EmptyString then Returns (l, data, ev1)
      else
        let data := data +:+ logData in
        if (0 <? Go.len (logCh l))%nat then Returns (l, data, ev1)
        else
          let '(n, ev2) := writeToCStdout os data in
          if negb (n =? Str.len data) then
            Returns (l, EmptyString,
                     ev1 ++ ev2 ++ [EvStderr ("Failed to write log: " +:+ itoa n
                                              +:+ " != " +:+ itoa (Str.len data))])
          else
            '(l, ev3) ← checkRotate fl os l n;
            Returns (l, EmptyString, ev1 ++ ev2 ++ ev3)
  end.

(** [writeLog] run until it returns, as [wg.Wait()] in [Close] sees it
    once the channel is closed: at most one turn per queued chunk, and
    one more to see the end of the stream. *)
Fixpoint writeLogRun (fl : Flags) (os : Os.t) (turns : nat)
    (st : LogRedirector * string) : outcome (LogRedirector * list event) :=
  if wgDone (fst st) then Returns (fst st, [])
  else
    match turns with
    | O => Blocks
    | S turns' =>
        '(l, data, ev) ← writeLogTurn fl os st;
        '(l', ev') ← writeLogRun fl os turns' (l, data);
        Returns (l', ev ++ ev')
    end.

(** [func (l *LogRedirector) Close() error]; [data] is what the writer
    holds at that time. *)
Definition LogRedirector_Close (fl : Flags) (os : Os.t)
    (l : LogRedirector) (data : string) : outcome (LogRedirector * list event) :=
  c ← close (logCh l);
  writeLogRun fl os (S (Go.len c)) (setLogCh l c, data).

(** [func CloseRedirector()] on the package variable [lr]; [data] is
    the buffer of the writer of [lr]. *)
Definition CloseRedirector (fl : Flags) (os : Os.t)
    (lr : option LogRedirector) (data : string)
  : outcome (option LogRedirector * list event) :=
  match lr with
  | Some l =>
      '(_, ev) ← LogRedirector_Close fl os l data;
      Returns (None, ev)
  | None => Returns (None, [])
  end.

End Recycler.

End Redirect.

(** ** logging.go *)

Module Logging.

Definition ESC : ascii := "027"%char.
Definition COLOR_ERROR : string := String ESC "[0;31m".
Definition COLOR_WARNING : string := String ESC "[0;33m".
Definition COLOR_SUCCESS : string := String ESC "[0;32m".
Definition COLOR_NONE : string := String ESC "[0m".

(** [type logEntry struct] *)
Record logEntry : Type := {
  file : string;
  text : string;
  line : Z;
  level : Z
}.

(** [func vlogPrefix(level int) string] *)
Definition vlogPrefix (level : Z) : string :=
  if level <? 0 then COLOR_ERROR
  else if level =? 0 then COLOR_WARNING
  else if level >=? 3 then COLOR_SUCCESS
  else EmptyString.

(** [func vlogSuffix(level int) string] *)
Definition vlogSuffix (level : Z) : string :=
  if (level <=? 0) || (level >=? 3) then COLOR_NONE else EmptyString.

(** [func fileLinePrefix(file string, line int) string] *)
Definition fileLinePrefix (file : string) (line : Z) : string :=
  if negb (String.eqb file EmptyString) then
    if line >? 0 then "[" +:+ file +:+ ":" +:+ itoa line +:+ "] "
    else "[" +:+ file +:+ "] "
  else "[unknown] ".

(** The three calls [processLogs] makes on package [log]. *)
Inductive logcall : Type :=
| DroppedWarning (dropped : Z)
| RepeatNotice (count : Z)
| LogLine (le : logEntry).

(** The message each call hands to the standard logger, which puts the
    time in front of it. *)
Definition message (c : logcall) : string :=
  match c with
  | DroppedWarning dropped =>
      COLOR_WARNING +:+ itoa dropped +:+ " log lines were dropped." +:+ COLOR_NONE
  | RepeatNotice count =>
      COLOR_SUCCESS +:+ "Last line repeated " +:+ itoa count +:+ " times." +:+ COLOR_NONE
  | LogLine le =>
      Str.concat [fileLinePrefix (file le) (line le); vlogPrefix (level le);
                  text le; vlogSuffix (level le)]
  end.

(** The package variables [logCh], [droppedLogLines] and [wg], the two
    locals of the [processLogs] goroutine, and what has been handed to
    the standard logger so far. *)
Record Pipeline : Type := {
  logCh : chan logEntry;
  droppedLogLines : Z;
  lastLogLine : string;
  lastLogLineRepeatCount : Z;
  logged : list logcall;
  wgDone : bool
}.

(** [func init()]: [logCh = make(chan logEntry, 10000)]. *)
Definition init : Pipeline := {|
  logCh := make (Z.to_nat 10000);
  droppedLogLines := 0;
  lastLogLine := EmptyString;
  lastLogLineRepeatCount := 0;
  logged := [];
  wgDone := false
|}.

Definition setLogCh (p : Pipeline) (c : chan logEntry) : Pipeline :=
  {| logCh := c; droppedLogLines := droppedLogLines p;
     lastLogLine := lastLogLine p;
     lastLogLineRepeatCount := lastLogLineRepeatCount p;
     logged := logged p; wgDone := wgDone p |}.

(** [func logText(file string, line, level int, text string)] *)
Definition logText (le : logEntry) (p : Pipeline) : outcome Pipeline :=
  '(c, sent) ← select_send true (logCh p) le;
  if sent : bool then Returns (setLogCh p c)
  else
    Returns {| logCh := logCh p;
               droppedLogLines := uint32 (droppedLogLines p + 1);
               lastLogLine := lastLogLine p;
               lastLogLineRepeatCount := lastLogLineRepeatCount p;
               logged := logged p; wgDone := wgDone p |}.

(** [if dropped := atomic.SwapUint32(&droppedLogLines, 0); dropped > 0] *)
Definition reportDropped (p : Pipeline) : Pipeline :=
  let dropped := droppedLogLines p in
  {| logCh := logCh p; droppedLogLines := 0;
     lastLogLine := lastLogLine p;
     lastLogLineRepeatCount := lastLogLineRepeatCount p;
     logged := if dropped >? 0 then logged p ++ [DroppedWarning dropped]
               else logged p;
     wgDone := wgDone p |}.

(** [if lastLogLine == le.text { ... } else { ... }] *)
Definition dedup (le : logEntry) (p : Pipeline) : Pipeline :=
  if String.eqb (lastLogLine p) (text le) then
    {| logCh := logCh p; droppedLogLines := droppedLogLines p;
       lastLogLine := lastLogLine p;
       lastLogLineRepeatCount := int64 (lastLogLineRepeatCount p + 1);
       logged := logged p; wgDone := wgDone p |}
  else
    let notice :=
      if lastLogLineRepeatCount p >? 0
      then [RepeatNotice (lastLogLineRepeatCount p)] else [] in
    {| logCh := logCh p; droppedLogLines := droppedLogLines p;
       lastLogLine := text le;
       lastLogLineRepeatCount :=
         if lastLogLineRepeatCount p >? 0 then 0 else lastLogLineRepeatCount p;
       logged := logged p ++ notice ++ [LogLine le]; wgDone := wgDone p |}.

(** One turn of [for le := range logCh] in [processLogs]; when the
    channel is closed and drained the loop ends and the deferred
    [wg.Done()] runs. *)
Definition processLogsTurn (p : Pipeline) : outcome Pipeline :=
  '(v, c) ← recv (logCh p);
  let p := setLogCh p c in
  match v with
  | Some le => Returns (dedup le (reportDropped p))
  | None =>
      Returns {| logCh := logCh p; droppedLogLines := droppedLogLines p;
                 lastLogLine := lastLogLine p;
                 lastLogLineRepeatCount := lastLogLineRepeatCount p;
                 logged := logged p; wgDone := true |}
  end.

(** [processLogs] run until it returns, as [wg.Wait()] sees it. *)
Fixpoint processLogsRun (turns : nat) (p : Pipeline) : outcome Pipeline :=
  if wgDone p then Returns p
  else
    match turns with
    | O => Blocks
    | S turns' => p' ← processLogsTurn p; processLogsRun turns' p'
    end.

(** The process-wide state [Close] works on: the pipeline, the package
    variable [lr] of redirect.go and the buffer of its writer. *)
Record Package : Type := {
  pipeline : Pipeline;
  lr : option Redirect.LogRedirector;
  writerData : string
}.

Section Close.

Variable ties : list Os.FileInfo -> list Os.FileInfo.
Variable fl : Redirect.Flags.
Variable os : Os.t.

(** [func Close() error] *)
Definition Close (g : Package) : outcome (Package * list Redirect.event) :=
  c ← close (logCh (pipeline g));
  p ← processLogsRun (S (Go.len c)) (setLogCh (pipeline g) c);
  '(lr', ev) ← Redirect.CloseRedirector ties fl os (lr g) (writerData g);
  Returns ({| pipeline := p; lr := lr'; writerData := EmptyString |}, ev).

End Close.

End Logging.

(** ** Turns of the consumer, and what it hands to the logger *)

Module Schedule.

Import Logging.

(** The consumer on its own: [processLogs] takes one turn of its loop
    after the other. *)
Inductive action : Type :=
| Turn.

Definition step (a : action) (p : Pipeline) : outcome Pipeline :=
  match a with
  | Turn => processLogsTurn p
  end.

Fixpoint run (sched : list action) (p : Pipeline) : outcome Pipeline :=
  match sched with
  | [] => Returns p
  | a :: rest => p' ← step a p; run rest p'
  end.

(** [n] turns of the consumer in a row. *)
Definition turns (n : nat) : list action := replicate n Turn.


Definition isWarning (c : logcall) : bool :=
  match c with DroppedWarning _ => true | _ => false end.

(** The number of warnings among the calls. *)
Definition warnings (calls : list logcall) : nat :=
  length (List.filter isWarning calls).



End Schedule.

(** ** The goroutines of the pipeline, step by step *)

Module Interleaving.

Import Logging.

(** Callers of [logText], the consumer [processLogs] and [Close] run
    side by side.  A caller takes two steps when the buffer is full: its
    [select] falls to [default], and then it runs [atomic.AddUint32];
    other goroutines may run in between.  The consumer takes two steps
    for an entry: the receive of [range logCh], and the body of the
    loop, which starts with [atomic.SwapUint32]; what follows the swap
    works on the locals of [processLogs] and on the logger, which no
    other goroutine touches.  [Close] closes the channel. *)
Inductive action : Type :=
| Select (le : logEntry)
| Count
| Receive
| Body
| Shut.

(** The pipeline, the number of callers between their [select] and
    their [atomic.AddUint32], and the entry the consumer has received and
    not yet handled. *)
Record state : Type := {
  pipe : Pipeline;
  counting : nat;
  holding : option logEntry
}.

(** [atomic.AddUint32(&droppedLogLines, 1)] *)
Definition addDropped (p : Pipeline) : Pipeline :=
  {| logCh := logCh p;
     droppedLogLines := uint32 (droppedLogLines p + 1);
     lastLogLine := lastLogLine p;
     lastLogLineRepeatCount := lastLogLineRepeatCount p;
     logged := logged p; wgDone := wgDone p |}.

(** The end of [processLogs]: the deferred [wg.Done()]. *)
Definition done (p : Pipeline) : Pipeline :=
  {| logCh := logCh p; droppedLogLines := droppedLogLines p;
     lastLogLine := lastLogLine p;
     lastLogLineRepeatCount := lastLogLineRepeatCount p;
     logged := logged p; wgDone := true |}.

(** One step of one goroutine; [Blocks] when no goroutine is at that
    step. *)
Definition step (a : action) (s : state) : outcome state :=
  match a with
  | Select le =>
      '(c, sent) ← select_send true (logCh (pipe s)) le;
      if sent : bool then
        Returns {| pipe := setLogCh (pipe s) c; counting := counting s;
                   holding := holding s |}
      else
        Returns {| pipe := pipe s; counting := S (counting s);
                   holding := holding s |}
  | Count =>
      match counting s with
      | O => Blocks
      | S k =>
          Returns {| pipe := addDropped (pipe s); counting := k;
                     holding := holding s |}
      end
  | Receive =>
      if wgDone (pipe s) then Blocks
      else
        match holding s with
        | Some _ => Blocks
        | None =>
            '(v, c) ← recv (logCh (pipe s));
            match v with
            | Some le =>
                Returns {| pipe := setLogCh (pipe s) c; counting := counting s;
                           holding := Some le |}
            | None =>
                Returns {| pipe := done (setLogCh (pipe s) c);
                           counting := counting s; holding := None |}
            end
        end
  | Body =>
      match holding s with
      | Some le =>
          Returns {| pipe := dedup le (reportDropped (pipe s));
                     counting := counting s; holding := None |}
      | None => Blocks
      end
  | Shut =>
      c ← close (logCh (pipe s));
      Returns {| pipe := setLogCh (pipe s) c; counting := counting s;
                 holding := holding s |}
  end.

Fixpoint run (sched : list action) (s : state) : outcome state :=
  match sched with
  | [] => Returns s
  | a :: rest => s' ← step a s; run rest s'
  end.

(** A pipeline with every caller outside [logText] and the consumer at
    its receive. *)
Definition idle (p : Pipeline) : state :=
  {| pipe := p; counting := 0; holding := None |}.


End Interleaving.

(** ** The properties in the words of the specification *)

Module Spec.

Import Os Redirect.

(** A directory entry [LogLines] may read. *)
Definition isLogFile (fi : FileInfo) : Prop :=
  Re.fileNameMatch (Name fi) = true.

(** The creation timestamp a log file name encodes; 0 stands in for
    names that carry none. *)
Definition createTs (loc : Time.Location) (fi : FileInfo) : Z :=
  match LogFileStartTs loc (Name fi) with
  | Returns ts => ts
  | _ => 0
  end.

(** The total of the lengths of the returned strings. *)
Definition totalLen (lines : list string) : Z :=
  fold_right (fun line acc => Str.len line + acc) 0 lines.







(** The lines of a file that come before the first line stamped [T] or
    later, cleaned. *)
Fixpoint linesBefore (loc : Time.Location) (T : Z) (ls : list string)
  : list string :=
  match ls with
  | [] => []
  | line :: rest =>
      if LogLineTs loc line <? T then cleanLine line :: linesBefore loc T rest
      else []
  end.

(** Lines taken from the start while budget is left; the line that uses
    the budget up is the last one taken. *)
Fixpoint headUnder (lines : list string) (budget : Z) : list string * Z :=
  match lines with
  | [] => ([], budget)
  | line :: rest =>
      let budget := int64 (budget - Str.len line) in
      if budget <=? 0 then ([line], budget)
      else let '(more, remaining) := headUnder rest budget in
           (line :: more, remaining)
  end.

(** "The file's entire tail is collected under the remaining budget":
    the lines are taken from the last one backwards while budget is
    left, and come out in the order of the file. *)
Definition tailUnder (lines : list string) (budget : Z) : list string * Z :=
  let '(taken, remaining) := headUnder (rev lines) budget in
  (rev taken, remaining).

(** The [startTs < 0] query in the words of the specification: scan from
    the first matched file towards older ones; only the first file is cut
    at the threshold [T]; the parts are put together oldest file first. *)
Fixpoint collectBefore (os : Os.t) (l : LogRedirector) (first : bool) (T : Z)
    (files : list FileInfo) (budget : Z) : list string :=
  match files with
  | [] => []
  | fi :: older =>
      let eligible :=
        match ScanLines os (Join (logDir l) (Name fi)) with
        | Err _ => []
        | Ok ls => if first then linesBefore (Local os) T ls
                   else map cleanLine ls
        end in
      let '(part, remaining) := tailUnder eligible budget in
      if remaining <=? 0 then part
      else collectBefore os l false T older remaining ++ part
  end.

(** The first file "filtered to lines with parsed timestamp strictly
    before [T]": every line stamped before [T], wherever it stands in the
    file. *)
Definition linesStampedBefore (loc : Time.Location) (T : Z) (ls : list string)
  : list string :=
  map cleanLine (List.filter (fun line => LogLineTs loc line <? T) ls).

(** The [startTs < 0] query with the first file filtered in that way. *)
Fixpoint collectFiltered (os : Os.t) (l : LogRedirector) (first : bool) (T : Z)
    (files : list FileInfo) (budget : Z) : list string :=
  match files with
  | [] => []
  | fi :: older =>
      let eligible :=
        match ScanLines os (Join (logDir l) (Name fi)) with
        | Err _ => []
        | Ok ls => if first then linesStampedBefore (Local os) T ls
                   else map cleanLine ls
        end in
      let '(part, remaining) := tailUnder eligible budget in
      if remaining <=? 0 then part
      else collectFiltered os l false T older remaining ++ part
  end.




(** Not later, by modification time. *)
Definition olderOrSame (a b : FileInfo) : Prop := ModTime a <= ModTime b.

Definition isRedirect (e : event) : bool :=
  match e with EvRedirect _ => true | _ => false end.

(** The creation timestamps fall along the listing, which is sorted by
    name, latest first. *)
Definition newestFirst (loc : Time.Location) (files : list FileInfo) : Prop :=
  forall a b fa fb, (a <= b)%nat -> files !! a = Some fa -> files !! b = Some fb ->
    createTs loc fb <= createTs loc fa.

End Spec.

(** ** Sample systems *)

Module Sample.

Import Os Redirect.

Definition PDT : Time.Location := Time.FixedZone (-7 * 3600).

(** The sort comes upon the entries in the order of the listing. *)
Definition asListed (fis : list FileInfo) : list FileInfo := fis.

Definition pathIs (dir path : string) (f : FileInfo * list string) : bool :=
  String.eqb (Join dir (Name (fst f))) path.

(** A system whose only directory [dir] holds [files], each with the
    lines a scanner reads from it; every write, removal and
    redirection succeeds. *)
Definition osOf (dir : string) (files : list (FileInfo * list string)) : Os.t := {|
  Local := PDT;
  Readdir d :=
    if String.eqb d dir then Ok (map fst files) else Err "no such directory";
  ScanLines path :=
    match List.find (pathIs dir path) files with
    | Some f => Ok (snd f)
    | None => Err "no such file"
    end;
  StatSize path :=
    match List.find (pathIs dir path) files with
    | Some f => Ok (Size (fst f))
    | None => Err "no such file"
    end;
  Remove _ := Ok tt;
  Symlink _ _ := Ok tt;
  write_to_log data := Str.len data;
  redirect_stdout_stderr_to _ := 0;
  NowFileTime := "20180501-160000"
|}.

Definition logFile (name : string) (size mtime : Z) : FileInfo :=
  {| Name := name; Size := size; ModTime := mtime; IsRegular := true |}.

(** A redirector on directory "logs" whose queue of capacity [n] holds
    [queued]. *)
Definition redirector (active : string) (n : nat) (queued : list string)
  : LogRedirector := {|
  logDir := "logs";
  logFileName := Join "logs" active;
  startTimeStr := "20180501-153256";
  bytesWritten := 0;
  numLogFiles := 1;
  logCh := Chan queued n false;
  wgDone := false
|}.

Definition entry (text : string) : Logging.logEntry :=
  {| Logging.file := "main.go"; Logging.text := text;
     Logging.line := 7; Logging.level := 1 |}.

(** A pipeline of capacity [n] with [queued] in its buffer. *)
Definition pipelineOf (n : nat) (queued : list Logging.logEntry)
  : Logging.Pipeline := {|
  Logging.logCh := Chan queued n false;
  Logging.droppedLogLines := 0;
  Logging.lastLogLine := EmptyString;
  Logging.lastLogLineRepeatCount := 0;
  Logging.logged := [];
  Logging.wgDone := false
|}.

Definition firstLog : string := "20180501-153256_20180501-153256_1.log".
Definition secondLog : string := "20180501-153256_20180501-160000_2.log".

(** One log file with a single line. *)
Definition oneFile : Os.t :=
  osOf "logs" [(logFile firstLog 6 10, ["hello"])].

(** Two log files; the older one ends with a line that has no time
    stamp. *)
Definition twoFiles : Os.t :=
  osOf "logs"
    [(logFile firstLog 60 10,
      ["2018/05/01 15:33:00 [main.go:7] a"; "no stamp"]);
     (logFile secondLog 70 20,
      ["2018/05/01 16:00:01 [main.go:7] c"; "2018/05/01 16:30:00 [main.go:7] d"])].


(** The active log file has grown to 120 bytes. *)
Definition fullLog : Os.t :=
  osOf "logs" [(logFile firstLog 120 10, [])].


(** A system that refuses every redirection. *)
Definition readOnly : Os.t := {|
  Local := PDT;
  Readdir _ := Err "no such directory";
  ScanLines _ := Err "no such file";
  StatSize _ := Err "no such file";
  Remove _ := Err "read-only file system";
  Symlink _ _ := Err "read-only file system";
  write_to_log data := Str.len data;
  redirect_stdout_stderr_to _ := -30;
  NowFileTime := "20180501-160000"
|}.

(** A log file next to a file that is not one. *)
Definition mixedLines : Os.t :=
  osOf "logs" [(logFile "notes.txt" 5 30, ["memo"]); (logFile firstLog 6 10, ["hello"])].

(** The active log file can be redirected to, but every write to it
    comes back short. *)
Definition diskFull : Os.t := {|
  Local := PDT;
  Readdir _ := Err "no such directory";
  ScanLines _ := Err "no such file";
  StatSize _ := Err "no such file";
  Remove _ := Ok tt;
  Symlink _ _ := Ok tt;
  write_to_log _ := -1;
  redirect_stdout_stderr_to _ := 0;
  NowFileTime := "20180501-160000"
|}.

(** A log file in which a line stamped 16:30 is followed by a line
    without a stamp and by a line stamped 15:40. *)
Definition lateLine : Os.t :=
  osOf "logs"
    [(logFile firstLog 90 10,
      ["2018/05/01 15:33:00 [main.go:7] a"; "2018/05/01 16:30:00 [main.go:7] late";
       "  at main.go:9"; "2018/05/01 15:40:00 [main.go:7] b"])].

End Sample.

(** ** logging.go: the logging calls *)

Module Calls.

Import Logging.

Definition START_AFTER : string := "go/src/".

(** [strings.LastIndex(s, substr)]; [None] stands for -1. *)
Fixpoint LastIndex (s substr : string) : option nat :=
  match s with
  | EmptyString => if String.eqb substr EmptyString then Some 0%nat else None
  | String _ rest =>
      match LastIndex rest substr with
      | Some i => Some (S i)
      | None => if String.prefix substr s then Some 0%nat else None
      end
  end.

(** [s[n:]] *)
Fixpoint sliceFrom (n : nat) (s : string) : string :=
  match n, s with
  | O, _ => s
  | S k, String _ rest => sliceFrom k rest
  | S _, EmptyString => EmptyString
  end.

(** [func srcFilePath(path string) string] *)
Definition srcFilePath (path : string) : string :=
  match LastIndex path START_AFTER with
  | Some index => sliceFrom (index + String.length START_AFTER) path
  | None => path
  end.

(** [func cLogText(file *C.char, line, level C.int, text *C.char)] *)
Definition cLogText (file : string) (line level : Z) (text : string)
    (p : Pipeline) : outcome Pipeline :=
  logText {| file := srcFilePath file; text := text; line := line; level := level |} p.

(** [func Print(v ...interface{})] and [Printf]: [file] and [line] are
    what [getFileLine] finds for the caller, [text] is the formatted
    message. *)
Definition Print (file : string) (line : Z) (text : string) (p : Pipeline)
  : outcome Pipeline :=
  logText {| file := file; text := text; line := line; level := 1 |} p.

(** [func Vlog(level int, v ...interface{})] and [Vlogf]; [verbose] is
    [VerboseLevel()]. *)
Definition Vlog (verbose level : Z) (file : string) (line : Z) (text : string)
    (p : Pipeline) : outcome Pipeline :=
  if level <=? verbose then
    logText {| file := file; text := text; line := line; level := level |} p
  else Returns p.

(** [func incNLogCnt(key string) int] on the package map [nlogMap]: the
    new map and the count returned. *)
Definition incNLogCnt (key : string) (nlogMap : gmap string Z)
  : gmap string Z * Z :=
  let cnt := int64 (default 0 (nlogMap !! key) + 1) in
  (<[key := cnt]> nlogMap, cnt).

(** [a % b] on [int]: a zero divisor panics. *)
Definition rem64 (a b : Z) : outcome Z :=
  if b =? 0 then Panics else Returns (Z.rem a b).

(** A frame of the call stack as [runtime.Caller] reports it: the file
    and the line. *)
Definition frame : Type := (string * Z)%type.

(** The loop of [getFileLine] over the frames from [runtime.Caller(2)]
    on: the first frame outside "logging/"; past the last frame
    [runtime.Caller] answers not ok. *)
Fixpoint firstOutside (frames : list frame) : string * Z :=
  match frames with
  | [] => (EmptyString, 0)
  | (file, line) :: rest =>
      let srcFile := srcFilePath file in
      if String.prefix "logging/" srcFile then firstOutside rest
      else (srcFile, line)
  end.

(** [func getFileLine() (string, int)]; [stack] is what
    [runtime.Caller(i)] answers for [i = 0, 1, 2, ...], the frame of
    [getFileLine] itself first. *)
Definition getFileLine (stack : list frame) : string * Z :=
  firstOutside (drop 2 stack).

(** [func getFileLinePrefix() string]; [stack] starts at the frame of
    [getFileLinePrefix], and [pkg] is the path of logging.go as the
    binary records it. *)
Definition getFileLinePrefix (pkg : string) (stack : list frame) : string :=
  let '(file, line) := getFileLine ((pkg, 177) :: stack) in
  fileLinePrefix file line.

(** The key [Nlog] counts under: [getFileLinePrefix()] called at line 95
    of logging.go; [callers] are the frames above [Nlog], the one that
    called it first. *)
Definition nlogKey (pkg : string) (callers : list frame) : string :=
  getFileLinePrefix pkg ((pkg, 201) :: (pkg, 95) :: callers).

(** The place [Vlog] logs for [Nlog]: [getFileLine()] at line 81, in
    [Vlog] called at line 97. *)
Definition nlogSite (pkg : string) (callers : list frame) : string * Z :=
  getFileLine ((pkg, 177) :: (pkg, 81) :: (pkg, 97) :: callers).

(** [func Nlog(n, level int, v ...interface{})], on the map and the
    pipeline. *)
Definition Nlog (pkg : string) (callers : list frame) (verbose n level : Z)
    (text : string) (st : gmap string Z * Pipeline)
  : outcome (gmap string Z * Pipeline) :=
  let prefix := nlogKey pkg callers in
  let '(nlogMap, cnt) := incNLogCnt prefix (fst st) in
  r ← rem64 cnt n;
  if r =? 1 then
    let '(file, line) := nlogSite pkg callers in
    p ← Vlog verbose level file line text (snd st); Returns (nlogMap, p)
  else Returns (nlogMap, snd st).

(** Calls of [Nlog] one after the other, each with the frames above
    it. *)
Fixpoint NlogCalls (pkg : string) (calls : list (list frame)) (verbose n level : Z)
    (text : string) (st : gmap string Z * Pipeline)
  : outcome (gmap string Z * Pipeline) :=
  match calls with
  | [] => Returns st
  | callers :: rest =>
      st' ← Nlog pkg callers verbose n level text st;
      NlogCalls pkg rest verbose n level text st'
  end.

(** [k] calls of [Nlog] from one call site. *)
Definition NlogTimes (k : nat) (pkg : string) (callers : list frame)
    (verbose n level : Z) (text : string) (st : gmap string Z * Pipeline)
  : outcome (gmap string Z * Pipeline) :=
  NlogCalls pkg (replicate k callers) verbose n level text st.

(** [k] calls of [Vlog] from one call site, one after the other. *)
Fixpoint VlogTimes (k : nat) (verbose level : Z) (file : string) (line : Z)
    (text : string) (p : Pipeline) : outcome Pipeline :=
  match k with
  | O => Returns p
  | S k' =>
      p' ← Vlog verbose level file line text p;
      VlogTimes k' verbose level file line text p'
  end.

Section Fatal.

Variable ties : list Os.FileInfo -> list Os.FileInfo.
Variable fl : Redirect.Flags.
Variable os : Os.t.

(** [func Fatal(v ...interface{})] and [Fatalf], up to the call of
    [os.Exit(1)]: the state the process exits in. *)
Definition Fatal (file : string) (line : Z) (text : string) (g : Package)
  : outcome (Package * list Redirect.event) :=
  p ← logText {| file := file; text := text; line := line; level := -1 |} (pipeline g);
  Close ties fl os
    {| pipeline := p; lr := lr g; writerData := writerData g |}.

End Fatal.

End Calls.

(** ** redirect.go: making a redirector, and runs of the writer *)

Module Writer.

Import Os Redirect.

(** [func NewLogRedirector(logDir string)], which returns the redirector
    or the error;
    [mkdirAll] is the answer of [os.MkdirAll(logDir, 0700)].  The writer
    goroutine it starts is run by [writeLogTurn]. *)
Definition NewLogRedirector (fl : Flags) (os : Os.t) (mkdirAll : res unit)
    (dir : string) : res (LogRedirector * list event) :=
  match mkdirAll with
  | Err e => Err e
  | Ok _ =>
      Ok (redirectToNewFile fl os
            {| logDir := dir; logFileName := EmptyString;
               startTimeStr := NowFileTime os; bytesWritten := 0;
               numLogFiles := 0; logCh := make (logChanSizeFlag fl);
               wgDone := false |})
  end.

Section Turns.

Variable ties : list FileInfo -> list FileInfo.

(** [k] turns of the loop of [writeLog], with everything they do. *)
Fixpoint writeLogTurns (fl : Flags) (os : Os.t) (k : nat)
    (st : LogRedirector * string) : outcome (LogRedirector * string * list event) :=
  match k with
  | O => Returns (st, [])
  | S k' =>
      '(l, data, ev) ← writeLogTurn ties fl os st;
      '(l', data', ev') ← writeLogTurns fl os k' (l, data);
      Returns (l', data', ev ++ ev')
  end.

(** [func RedirectTo(logDir string) (err error)] on the package variable
    [lr]: the new value of [lr], the error and what was done. *)
Definition RedirectTo (fl : Flags) (os : Os.t) (mkdirAll : res unit)
    (dir : string) (lr : option LogRedirector) (data : string)
  : outcome (option LogRedirector * option string * list event) :=
  '(_, ev) ← CloseRedirector ties fl os lr data;
  match NewLogRedirector fl os mkdirAll dir with
  | Ok (l, ev') => Returns (Some l, None, ev ++ ev')
  | Err e => Returns (None, Some e, ev)
  end.

End Turns.

(** Calls of [Write], one per chunk, in order. *)
Fixpoint WriteAll (l : LogRedirector) (ps : list string) : outcome LogRedirector :=
  match ps with
  | [] => Returns l
  | p :: rest => '(l', _) ← Write l p; WriteAll l' rest
  end.

End Writer.

(** ** Further properties in plain terms *)

Module Facts.

Import Os Redirect Spec.

(** No escape byte in the string. *)
Fixpoint noEsc (s : string) : bool :=
  match s with
  | EmptyString => true
  | String c rest => negb (Ascii.eqb c Logging.ESC) && noEsc rest
  end.

Fixpoint allDigits (s : string) : bool :=
  match s with
  | EmptyString => true
  | String c rest => Str.isDigit c && allDigits rest
  end.

(** What [time.Format("20060102-150405")] writes: eight digits, a dash,
    six digits. *)
Definition isFileStamp (s : string) : Prop :=
  exists d t, s = d +:+ "-" +:+ t
    /\ String.length d = 8%nat /\ String.length t = 6%nat
    /\ allDigits d = true /\ allDigits t = true.

(** A call on the logger without its colour codes. *)
Definition plain (c : Logging.logcall) : string :=
  match c with
  | Logging.DroppedWarning dropped => itoa dropped +:+ " log lines were dropped."
  | Logging.RepeatNotice count => "Last line repeated " +:+ itoa count +:+ " times."
  | Logging.LogLine le =>
      Logging.fileLinePrefix (Logging.file le) (Logging.line le) +:+ Logging.text le
  end.

(** The consumer's loop body over a list of entries, in order. *)
Definition processAll (es : list Logging.logEntry) (p : Logging.Pipeline)
  : Logging.Pipeline :=
  fold_left (fun q le => Logging.dedup le (Logging.reportDropped q)) es p.

(** The pipeline once [processLogs] has returned. *)
Definition finished (p : Logging.Pipeline) : Logging.Pipeline :=
  {| Logging.logCh := Logging.logCh p;
     Logging.droppedLogLines := Logging.droppedLogLines p;
     Logging.lastLogLine := Logging.lastLogLine p;
     Logging.lastLogLineRepeatCount := Logging.lastLogLineRepeatCount p;
     Logging.logged := Logging.logged p; Logging.wgDone := true |}.

Definition isLine (c : Logging.logcall) : bool :=
  match c with Logging.LogLine _ => true | _ => false end.

(** The copies to the original standard output that "also log to stdout"
    asks for. *)
Definition mirror (fl : Flags) (chunks : list string) : list event :=
  if alsoLogToStdoutFlag fl then map EvStdout chunks else [].

Definition isWrite (e : event) : bool :=
  match e with EvWriteLog _ => true | _ => false end.

Definition isStdout (e : event) : bool :=
  match e with EvStdout _ => true | _ => false end.

(** The lines of a file from the first one stamped [T] or later. *)
Fixpoint linesFrom (loc : Time.Location) (T : Z) (ls : list string)
  : list string :=
  match ls with
  | [] => []
  | line :: rest =>
      if LogLineTs loc line <? T then linesFrom loc T rest else ls
  end.

(** The [startTs > 0] query: the files from the starting one towards
    newer ones; a file created before [T] is read from its first line
    stamped [T] or later, any other file from its start; the parts are
    joined in the order of the scan. *)
Fixpoint collectAfter (os : Os.t) (l : LogRedirector) (T : Z)
    (files : list FileInfo) (budget : Z) : list string :=
  match files with
  | [] => []
  | fi :: newer =>
      let eligible :=
        match ScanLines os (Join (logDir l) (Name fi)) with
        | Err _ => []
        | Ok ls =>
            map cleanLine
              (if createTs (Local os) fi <? T then linesFrom (Local os) T ls else ls)
        end in
      let '(part, remaining) := headUnder eligible budget in
      if remaining <=? 0 then part
      else part ++ collectAfter os l T newer remaining
  end.

(** The cleaned lines of a log file; none when it cannot be opened. *)
Definition fileLines (os : Os.t) (l : LogRedirector) (fi : FileInfo) : list string :=
  match ScanLines os (Join (logDir l) (Name fi)) with
  | Ok ls => map cleanLine ls
  | Err _ => []
  end.

(** Every line a scanner yields is shorter than 2^63 bytes, as any Go
    string is. *)
Definition linesFit (os : Os.t) : Prop :=
  forall path ls, ScanLines os path = Ok ls ->
    Forall (fun line => Str.len (cleanLine line) < 2 ^ 63) ls.

(** [line] is a cleaned line of a log file of the listing [fis]. *)
Definition fromLogFile (os : Os.t) (l : LogRedirector) (fis : list FileInfo)
    (line : string) : Prop :=
  exists fi ls raw,
    fi ∈ fis /\ IsRegular fi = true /\ Re.fileNameMatch (Name fi) = true
    /\ ScanLines os (Join (logDir l) (Name fi)) = Ok ls
    /\ raw ∈ ls /\ line = cleanLine raw.

(** The calls among the first [x] that [Nlog] with period [n] lets
    through: the first, the [n+1]-st, and so on. *)
Definition passed (n x : Z) : Z := (x + n - 1) / n.

(** The cleaned lines of all the files of a listing that comes latest
    file first, oldest file first. *)
Definition history (os : Os.t) (l : LogRedirector) (files : list FileInfo)
  : list string :=
  List.concat (map (fileLines os l) (rev files)).

(** A regular entry of the listing [fis] with the name of a log file. *)
Definition listed (fis : list FileInfo) (fi : FileInfo) : Prop :=
  fi ∈ fis /\ IsRegular fi = true /\ Re.fileNameMatch (Name fi) = true.

(** The texts of the lines handed to the logger, in order. *)
Definition lineTexts (cs : list Logging.logcall) : list string :=
  omap (fun c => match c with
                 | Logging.LogLine le => Some (Logging.text le)
                 | _ => None
                 end) cs.

(** No string is followed by an equal one. *)
Fixpoint noRepeat (xs : list string) : bool :=
  match xs with
  | [] => true
  | x :: rest =>
      match rest with
      | y :: _ => negb (String.eqb x y)
      | [] => true
      end && noRepeat rest
  end.

End Facts.

(** * Properties *)

Import Os Redirect Spec.

(** ** Running Go calls *)

Lemma bind_Returns {A B} (a : A) (k : A -> outcome B) : mbind k (Returns a) = k a.
Proof. reflexivity. Qed.

(** ** File names and [LogFileStartTs] *)

Lemma fileNameSubmatch_shape name :
  Re.fileNameSubmatch name = [] \/ exists g, Re.fileNameSubmatch name = [name; g].
Proof.
  unfold Re.fileNameSubmatch.
  repeat (match goal with
          | |- context [mbind _ ?m] => destruct m as [[? ?]|] eqn:?; simpl
          | |- context [mbind _ ?m] => destruct m eqn:?; simpl
          | |- context [if ?b then _ else _] => destruct b eqn:?; simpl
          end); eauto.
Qed.

Lemma LogFileStartTs_match loc name :
  Re.fileNameMatch name = true -> exists ts, LogFileStartTs loc name = Returns ts.
Proof.
  unfold Re.fileNameMatch, LogFileStartTs.
  destruct (fileNameSubmatch_shape name) as [-> | [g ->]]; simpl; [done | eauto].
Qed.

Lemma LogFileStartTs_nomatch loc name :
  Re.fileNameMatch name = false -> LogFileStartTs loc name = Panics.
Proof.
  unfold Re.fileNameMatch, LogFileStartTs.
  destruct (fileNameSubmatch_shape name) as [-> | [g ->]]; simpl; [done | done].
Qed.

(** ** [sort.Search] *)

Lemma searchLoop_returns fuel f n : forall i j,
  (forall h, (h < n)%nat -> exists b, f h = Returns b) -> (j <= n)%nat ->
  exists r, searchLoop fuel f i j = Returns r /\ (r <= Nat.max i j)%nat.
Proof.
  induction fuel as [|fuel IH]; intros i j Hf Hj; cbn [searchLoop].
  - destruct (i <? j)%nat; eexists; split; eauto; lia.
  - destruct (Nat.ltb_spec i j) as [Hlt|Hge]; [|eexists; split; eauto; lia].
    assert (Hh : ((i + j) / 2 < j)%nat) by (apply Nat.Div0.div_lt_upper_bound; lia).
    destruct (Hf ((i + j) / 2)%nat) as [b Hb]; [lia|].
    rewrite Hb, bind_Returns. destruct b; cbn [negb].
    + destruct (IH i ((i + j) / 2)%nat Hf) as (r & -> & Hr); [lia|].
      eexists; split; eauto. lia.
    + destruct (IH ((i + j) / 2 + 1)%nat j Hf Hj) as (r & -> & Hr).
      eexists; split; eauto. lia.
Qed.

(** More fuel than the width of the interval changes nothing. *)
Lemma searchLoop_fuel fuel f : forall i j,
  (j - i <= fuel)%nat -> searchLoop (S fuel) f i j = searchLoop fuel f i j.
Proof.
  induction fuel as [|fuel IH]; intros i j Hfuel.
  - cbn [searchLoop]. destruct (Nat.ltb_spec i j); [lia | done].
  - change (searchLoop (S (S fuel)) f i j)
      with (if (i <? j)%nat then
              b ← f ((i + j) / 2)%nat;
              if negb b then searchLoop (S fuel) f ((i + j) / 2 + 1)%nat j
              else searchLoop (S fuel) f i ((i + j) / 2)%nat
            else Returns i).
    change (searchLoop (S fuel) f i j)
      with (if (i <? j)%nat then
              b ← f ((i + j) / 2)%nat;
              if negb b then searchLoop fuel f ((i + j) / 2 + 1)%nat j
              else searchLoop fuel f i ((i + j) / 2)%nat
            else Returns i).
    destruct (Nat.ltb_spec i j) as [Hlt|Hge]; [|done].
    assert (Hh : (i <= (i + j) / 2 < j)%nat).
    { split; [apply Nat.div_le_lower_bound; lia | apply Nat.Div0.div_lt_upper_bound; lia]. }
    destruct (f ((i + j) / 2)%nat) as [b| |]; [|done|done].
    rewrite !bind_Returns. destruct b; cbn [negb]; apply IH; lia.
Qed.

Lemma Search_returns f n :
  (forall h, (h < n)%nat -> exists b, f h = Returns b) ->
  exists r, Search n f = Returns r /\ (r <= n)%nat.
Proof.
  intros Hf. destruct (searchLoop_returns n f n 0%nat n Hf) as (r & Hr & Hle); [lia|].
  exists r. split; [exact Hr | lia].
Qed.

(** ** [LogLines] never panics *)

Lemma insertByName_Forall (P : FileInfo -> Prop) fi fis :
  P fi -> Forall P fis -> Forall P (insertByName fi fis).
Proof.
  intros Hfi Hfis. induction Hfis as [|fj rest Hfj Hrest IH]; simpl.
  - by constructor.
  - destruct (String.ltb (Name fi) (Name fj)); repeat constructor; done.
Qed.

Lemma sortByNameDesc_Forall (P : FileInfo -> Prop) fis :
  Forall P fis -> Forall P (sortByNameDesc fis).
Proof.
  induction 1 as [|fi rest Hfi Hrest IH]; simpl; [constructor|].
  by apply insertByName_Forall.
Qed.

Lemma logFiles_Forall fis : Forall isLogFile (logFiles fis).
Proof.
  apply sortByNameDesc_Forall, Forall_forall. intros fi Hin.
  apply list_elem_of_filter in Hin as [Hfi _].
  apply andb_prop in Hfi. apply Hfi.
Qed.

Lemma index_lt {A} (l : list A) i :
  (i < length l)%nat -> exists a, index l i = Returns a /\ l !! i = Some a.
Proof.
  intros Hi. unfold index. destruct (lookup_lt_is_Some_2 l i Hi) as [a ->]. eauto.
Qed.

Lemma logLinesAfter_returns os l fi startTs numBytes :
  isLogFile fi -> exists r, logLinesAfter os l fi startTs numBytes = Returns r.
Proof.
  intros Hfi. unfold logLinesAfter.
  destruct (ScanLines os _); [|eauto].
  destruct (LogFileStartTs_match (Local os) _ Hfi) as [ts ->]. rewrite bind_Returns. eauto.
Qed.

Lemma loopAfter_returns os l fis startTs : forall i lines numBytes,
  Forall isLogFile fis -> (i < length fis)%nat ->
  exists r, loopAfter os l fis startTs i lines numBytes = Returns r.
Proof.
  induction i as [|i IH]; intros lines numBytes Hall Hi;
    destruct (index_lt fis _ Hi) as (fi & Hidx & Hfi);
    cbn [loopAfter]; rewrite Hidx, bind_Returns;
    (destruct (logLinesAfter_returns os l fi startTs numBytes) as [[ls nb] ->];
     [by eapply Forall_lookup_1 |]); rewrite bind_Returns;
    destruct (nb <=? 0); eauto.
  apply IH; [done | lia].
Qed.

Lemma startPred_returns os fis startTs (cmp : Z -> Z -> bool) h :
  Forall isLogFile fis -> (h < length fis)%nat ->
  exists b, (fi ← index fis h;
             ts ← LogFileStartTs (Local os) (Name fi);
             Returns (cmp ts startTs)) = Returns b.
Proof.
  intros Hall Hh. destruct (index_lt fis _ Hh) as (fi & -> & Hfi). rewrite bind_Returns.
  destruct (LogFileStartTs_match (Local os) (Name fi)) as [ts ->];
    [by eapply (Forall_lookup_1 isLogFile) |].
  rewrite bind_Returns. eauto.
Qed.

Lemma LogRedirector_LogLines_returns os l startTs numBytes :
  exists lines, LogRedirector_LogLines os l startTs numBytes = Returns lines.
Proof.
  unfold LogRedirector_LogLines. destruct (Readdir os (logDir l)) as [fis|]; [|eauto].
  pose proof (logFiles_Forall fis) as Hall. set (fs := logFiles fis) in *.
  destruct (Nat.eqb_spec (length fs) 0) as [|Hn]; [eauto|].
  destruct (startTs =? 0); [eauto|].
  destruct (startTs >? 0).
  - destruct (Search_returns (fun i => fi ← index fs i;
                ts ← LogFileStartTs (Local os) (Name fi); Returns (ts <=? startTs))
                (length fs)) as (start & -> & Hstart).
    { intros h Hh. by apply startPred_returns. }
    rewrite bind_Returns. apply loopAfter_returns; [done|].
    destruct (Nat.eqb_spec start (length fs)); lia.
  - destruct (Search_returns (fun i => fi ← index fs i;
                ts ← LogFileStartTs (Local os) (Name fi); Returns (ts <? int64 (- startTs)))
                (length fs)) as (start & -> & Hstart).
    { intros h Hh. by apply startPred_returns. }
    rewrite bind_Returns. eauto.
Qed.

(** C10: [LogFileStartTs] panics on exactly the names that [logFileNameRe]
    does not match (the submatch slice is nil there), it returns on every
    matching name, and [LogLines] only ever works on matching names: it
    returns for every directory, start time and budget. *)
Theorem LogFileStartTs_partial_LogLines_safe :
  (forall loc name, Re.fileNameMatch name = false ->
     Re.fileNameSubmatch name = [] /\ LogFileStartTs loc name = Panics)
  /\ (forall loc name, Re.fileNameMatch name = true ->
        exists ts, LogFileStartTs loc name = Returns ts)
  /\ (forall fis, Forall isLogFile (logFiles fis))
  /\ (forall os l startTs numBytes,
        exists lines, LogRedirector_LogLines os l startTs numBytes = Returns lines).
Proof.
  split; [|split; [|split]].
  - intros loc name Hno. split; [|by apply LogFileStartTs_nomatch].
    unfold Re.fileNameMatch in Hno. by destruct (Re.fileNameSubmatch name).
  - apply LogFileStartTs_match.
  - apply logFiles_Forall.
  - apply LogRedirector_LogLines_returns.
Qed.

(** ** [Write] *)

Lemma Write_room l p :
  closed (logCh l) = false -> full (logCh l) = false ->
  Write l p = Returns (setLogCh l (Chan (buf (logCh l) ++ [p]) (cap (logCh l)) false),
                       (Str.len p, None)).
Proof.
  intros Hopen Hroom. unfold Write, select_send. rewrite Hopen, Hroom.
  rewrite bind_Returns. reflexivity.
Qed.

Lemma Write_full l p :
  closed (logCh l) = false -> full (logCh l) = true -> Write l p = Blocks.
Proof.
  intros Hopen Hfull. unfold Write, select_send. rewrite Hopen, Hfull. reflexivity.
Qed.

Lemma Write_no_error l p r : Write l p = Returns r -> snd (snd r) = None.
Proof.
  unfold Write, select_send.
  destruct (closed (logCh l)); [done|]. destruct (full (logCh l)); [done|].
  rewrite bind_Returns. by intros [= <-].
Qed.

(** C2 (the code departs from the claim): with room in the queue [Write]
    enqueues the bytes and returns [(len(p), nil)], but on a full queue it
    waits: here the queue of capacity 1 holds one chunk, and the call
    neither returns [(0, logChFullErr)] nor anything else.  No call of
    [Write] ever returns that error. *)
Theorem Write_blocks_on_full_queue :
  Write (Sample.redirector "a.log" 1 ["x"]) "y" = Blocks
  /\ (forall l p, (0 < cap (logCh l))%nat ->
        closed (logCh l) = false -> full (logCh l) = true ->
        Write l p = Blocks)
  /\ (forall l p, closed (logCh l) = false -> full (logCh l) = false ->
        Write l p = Returns (setLogCh l (Chan (buf (logCh l) ++ [p]) (cap (logCh l)) false),
                             (Str.len p, None)))
  /\ (forall l p r, Write l p = Returns r -> snd (snd r) = None).
Proof.
  split; [reflexivity|]. split; [intros l p _; apply Write_full|].
  split; [apply Write_room | apply Write_no_error].
Qed.

(** ** The consumer at the end of the stream, and [Close] *)

Lemma processLogsTurn_end p :
  buf (Logging.logCh p) = [] -> closed (Logging.logCh p) = true ->
  exists p', Logging.processLogsTurn p = Returns p'
    /\ Logging.wgDone p' = true
    /\ Logging.logged p' = Logging.logged p
    /\ Logging.lastLogLineRepeatCount p' = Logging.lastLogLineRepeatCount p
    /\ Logging.logCh p' = Logging.logCh p.
Proof.
  intros Hbuf Hclosed. unfold Logging.processLogsTurn, recv.
  rewrite Hbuf, Hclosed, bind_Returns. eexists. split; [reflexivity|]. simpl.
  destruct p as [[b c cl] ? ? ? ? ?]; simpl in *. by subst.
Qed.

Lemma processLogsTurn_closed p p' :
  Logging.processLogsTurn p = Returns p' ->
  closed (Logging.logCh p') = closed (Logging.logCh p).
Proof.
  unfold Logging.processLogsTurn, recv.
  destruct (buf (Logging.logCh p)) as [|le rest].
  - destruct (closed (Logging.logCh p)) eqn:Hc; [|done].
    rewrite bind_Returns. intros [= <-]. simpl. done.
  - rewrite bind_Returns. intros [= <-].
    unfold Logging.dedup. destruct (String.eqb _ _); reflexivity.
Qed.

Lemma processLogsRun_closed n : forall p p',
  Logging.processLogsRun n p = Returns p' ->
  closed (Logging.logCh p') = closed (Logging.logCh p).
Proof.
  induction n as [|n IH]; intros p p'; simpl.
  - destruct (Logging.wgDone p); [by intros [= <-] | done].
  - destruct (Logging.wgDone p); [by intros [= <-]|].
    destruct (Logging.processLogsTurn p) as [q| |] eqn:Hq; [|done|done].
    rewrite bind_Returns. intros Hrun.
    rewrite (IH _ _ Hrun). by apply processLogsTurn_closed.
Qed.

(** C5 (the code departs from the claim): once the channel is closed the
    consumer does take every buffered record, but at the end of the stream
    it only signals completion; a repeat count that is still pending is
    not reported.  Here three equal records are closed on: the line is
    logged once, the count of 2 stays in the consumer, and no notice
    follows. *)
Theorem processLogs_loses_pending_repeats :
  (forall p, buf (Logging.logCh p) = [] -> closed (Logging.logCh p) = true ->
     exists p', Logging.processLogsTurn p = Returns p'
       /\ Logging.wgDone p' = true
       /\ Logging.logged p' = Logging.logged p
       /\ Logging.lastLogLineRepeatCount p' = Logging.lastLogLineRepeatCount p)
  /\ (let a := Sample.entry "a" in
      let g := {| Logging.pipeline := Sample.pipelineOf 4 [a; a; a];
                  Logging.lr := None; Logging.writerData := EmptyString |} in
      exists g', Logging.Close Sample.asListed defaultFlags
                   (Sample.osOf "logs" []) g = Returns (g', [])
        /\ Logging.logged (Logging.pipeline g') = [Logging.LogLine a]
        /\ Logging.lastLogLineRepeatCount (Logging.pipeline g') = 2
        /\ buf (Logging.logCh (Logging.pipeline g')) = []
        /\ Logging.wgDone (Logging.pipeline g') = true).
Proof.
  split.
  - intros p Hbuf Hclosed.
    destruct (processLogsTurn_end p Hbuf Hclosed) as (p' & ? & ? & ? & ? & ?). eauto 6.
  - eexists. split; [vm_compute; reflexivity|]. vm_compute. auto.
Qed.

(** C6 (the code departs from the claim): [Close] closes [logCh] first
    thing and never makes a new channel, so whenever a call of [Close] has
    returned, the next call panics on closing the closed channel. *)
Theorem Close_twice_panics ties fl os g g' ev :
  Logging.Close ties fl os g = Returns (g', ev) ->
  forall fl' os', Logging.Close ties fl' os' g' = Panics.
Proof.
  unfold Logging.Close at 1.
  destruct (close (Logging.logCh (Logging.pipeline g))) as [c| |] eqn:Hc; [|done|done].
  rewrite bind_Returns.
  destruct (Logging.processLogsRun _ _) as [p| |] eqn:Hp; [|done|done].
  rewrite bind_Returns.
  destruct (CloseRedirector _ _ _ _ _) as [[lr' ev']| |]; [|done|done].
  rewrite bind_Returns. intros [= <- <-] fl' os'.
  apply processLogsRun_closed in Hp. simpl in Hp.
  unfold close in Hc. destruct (closed (Logging.logCh (Logging.pipeline g))); [done|].
  injection Hc as <-. simpl in Hp.
  unfold Logging.Close, close. simpl. by rewrite Hp.
Qed.

Lemma Close_twice_panics_witness :
  exists g',
    Logging.Close Sample.asListed defaultFlags (Sample.osOf "logs" [])
      {| Logging.pipeline := Sample.pipelineOf 4 [Sample.entry "a"];
         Logging.lr := Some (Sample.redirector "a.log" 2 ["x"]);
         Logging.writerData := EmptyString |} = Returns (g', [EvWriteLog "x"])
    /\ Logging.Close Sample.asListed defaultFlags (Sample.osOf "logs" []) g' = Panics.
Proof.
  eexists. split; [vm_compute; reflexivity|].
  refine (Close_twice_panics Sample.asListed defaultFlags (Sample.osOf "logs" [])
            {| Logging.pipeline := Sample.pipelineOf 4 [Sample.entry "a"];
               Logging.lr := Some (Sample.redirector "a.log" 2 ["x"]);
               Logging.writerData := EmptyString |} _ [EvWriteLog "x"] _ _ _).
  vm_compute. reflexivity.
Defined.

(** ** Fixed-width arithmetic in range *)

Lemma int64_small x : - 2 ^ 63 <= x < 2 ^ 63 -> int64 x = x.
Proof. intros Hx. unfold int64. rewrite Z.mod_small; lia. Qed.


(** ** The pipeline: drops, warnings and repeats *)

Section Pipeline.

Import Logging Schedule.



Lemma logText_room le p :
  closed (logCh p) = false -> full (logCh p) = false ->
  exists p', logText le p = Returns p'
    /\ logCh p' = Chan (buf (logCh p) ++ [le]) (cap (logCh p)) false
    /\ droppedLogLines p' = droppedLogLines p
    /\ logged p' = logged p.
Proof.
  intros Hopen Hroom. unfold logText, select_send. rewrite Hopen, Hroom.
  rewrite bind_Returns. eauto.
Qed.


Lemma warnings_app xs ys : warnings (xs ++ ys) = (warnings xs + warnings ys)%nat.
Proof. unfold warnings. by rewrite List.filter_app, length_app. Qed.



Lemma processLogsTurn_entry p le rest :
  buf (logCh p) = le :: rest ->
  processLogsTurn p =
    Returns (dedup le (reportDropped (setLogCh p (Chan rest (cap (logCh p)) (closed (logCh p)))))).
Proof.
  intros Hbuf. unfold processLogsTurn, recv. rewrite Hbuf. by rewrite bind_Returns.
Qed.


Lemma full_nonempty {A} (c : chan A) : (0 < cap c)%nat -> full c = true -> buf c <> [].
Proof.
  unfold full. intros Hcap Hfull. apply Nat.leb_le in Hfull.
  destruct (buf c); simpl in *; [lia | done].
Qed.




(** The two steps of a caller make up [logText], and the two steps of
    the consumer make up a turn of its loop. *)
Lemma logText_steps le s :
  Interleaving.run (if full (logCh (Interleaving.pipe s))
                    then [Interleaving.Select le; Interleaving.Count]
                    else [Interleaving.Select le]) s
  = (p' ← logText le (Interleaving.pipe s);
     Returns {| Interleaving.pipe := p'; Interleaving.counting := Interleaving.counting s;
                Interleaving.holding := Interleaving.holding s |}).
Proof.
  destruct s as [p n h]. cbn [Interleaving.pipe Interleaving.counting Interleaving.holding].
  unfold logText, select_send.
  destruct (full (logCh p)) eqn:Hfull;
    cbn [Interleaving.run Interleaving.step Interleaving.pipe];
    unfold select_send; rewrite Hfull;
    (destruct (closed (logCh p)); [done|]); by rewrite !bind_Returns.
Qed.

Lemma processLogsTurn_steps p :
  wgDone p = false ->
  Interleaving.run (match buf (logCh p) with
                    | [] => [Interleaving.Receive]
                    | _ => [Interleaving.Receive; Interleaving.Body]
                    end) (Interleaving.idle p)
  = (p' ← processLogsTurn p; Returns (Interleaving.idle p')).
Proof.
  intros Hrun. unfold processLogsTurn, recv, Interleaving.idle.
  destruct (buf (logCh p)) as [|le rest] eqn:Hbuf;
    cbn [Interleaving.run Interleaving.step Interleaving.pipe Interleaving.holding];
    unfold recv; rewrite Hrun, Hbuf.
  - destruct (closed (logCh p)); [|done]. by rewrite !bind_Returns.
  - by rewrite !bind_Returns.
Qed.



End Pipeline.






(** ** Retrieval before a point in time *)

(** Without any assumption on the predicate the binary search stops at a
    boundary: the predicate holds at the result and fails just before. *)
Lemma searchLoop_boundary fuel f (p : nat -> bool) n : forall i j,
  (forall h, (h < n)%nat -> f h = Returns (p h)) ->
  (i <= j <= n)%nat -> (j - i <= fuel)%nat ->
  (0 < i -> p (i - 1)%nat = false)%nat ->
  (j < n -> p j = true)%nat ->
  exists r, searchLoop fuel f i j = Returns r /\ (r <= n)%nat /\
            (0 < r -> p (r - 1)%nat = false)%nat /\ (r < n -> p r = true)%nat.
Proof.
  induction fuel as [|fuel IH]; intros i j Hf Hij Hfuel Hlo Hhi; cbn [searchLoop].
  - assert (i = j) as -> by lia. rewrite Nat.ltb_irrefl. eauto 10 with lia.
  - destruct (Nat.ltb_spec i j) as [Hlt|Hge].
    2:{ assert (i = j) as -> by lia. eauto 10 with lia. }
    assert (Hh : (i <= (i + j) / 2 < j)%nat).
    { split; [apply Nat.div_le_lower_bound; lia | apply Nat.Div0.div_lt_upper_bound; lia]. }
    rewrite Hf, bind_Returns by lia.
    destruct (p ((i + j) / 2)%nat) eqn:Hp; cbn [negb].
    + apply IH; [done | lia | lia | done | done].
    + apply IH; [done | lia | lia | | done].
      intros _. by replace ((i + j) / 2 + 1 - 1)%nat with ((i + j) / 2)%nat by lia.
Qed.

Lemma Search_boundary f (p : nat -> bool) n :
  (forall h, (h < n)%nat -> f h = Returns (p h)) ->
  exists r, Search n f = Returns r /\ (r <= n)%nat /\
            (0 < r -> p (r - 1)%nat = false)%nat /\ (r < n -> p r = true)%nat.
Proof.
  intros Hf. apply searchLoop_boundary; [done | lia | lia | lia | lia].
Qed.

Lemma scanBefore_zero loc ls : scanBefore loc 0 ls = map cleanLine ls.
Proof. induction ls as [|line rest IH]; simpl; [done | by rewrite IH]. Qed.

Lemma scanBefore_threshold loc T ls :
  0 < T -> scanBefore loc T ls = linesBefore loc T ls.
Proof.
  intros HT. induction ls as [|line rest IH]; simpl; [done|].
  destruct (Z.gtb_spec T 0); [|lia]. simpl.
  destruct (Z.geb_spec (LogLineTs loc line) T), (Z.ltb_spec (LogLineTs loc line) T);
    try lia; [done | by rewrite IH].
Qed.

(** The lines kept from the first file are a prefix of the file, all
    stamped before [T], that ends at the first line stamped [T] or later. *)
Lemma linesBefore_prefix loc T ls :
  exists pre post,
    ls = pre ++ post
    /\ linesBefore loc T ls = map cleanLine pre
    /\ Forall (fun line => LogLineTs loc line < T) pre
    /\ match post with [] => True | line :: _ => T <= LogLineTs loc line end.
Proof.
  induction ls as [|line rest (pre & post & -> & Heq & Hpre & Hpost)]; simpl.
  - exists [], []. repeat split; constructor.
  - destruct (Z.ltb_spec (LogLineTs loc line) T).
    + exists (line :: pre), post. simpl. rewrite Heq. repeat split; try done; by constructor.
    + exists [], (line :: pre ++ post). repeat split; try done; constructor.
Qed.

(** The backward loop of [logLinesBefore] over the first [k] lines: what
    it takes are the last of them, as [headUnder] takes them from the
    reversed list; the lines after the first [k] stay. *)
Lemma budgetFromEnd_headUnder lines : forall k numBytes,
  (k <= length lines)%nat ->
  budgetFromEnd lines k numBytes
  = (rev (fst (headUnder (rev (take k lines)) numBytes)) ++ drop k lines,
     snd (headUnder (rev (take k lines)) numBytes)).
Proof.
  induction k as [|i IH]; intros numBytes Hk; cbn [budgetFromEnd].
  - by rewrite take_0, drop_0.
  - destruct (lookup_lt_is_Some_2 lines i) as [x Hx]; [lia|].
    rewrite Hx, (take_S_r _ _ _ Hx), rev_app_distr.
    change (default EmptyString (Some x)) with x. cbn [rev app headUnder].
    destruct (int64 (numBytes - Str.len x) <=? 0).
    + cbn [fst snd rev app]. by rewrite (drop_S _ _ _ Hx).
    + rewrite IH by lia.
      destruct (headUnder (rev (take i lines)) (int64 (numBytes - Str.len x)))
        as [more remaining].
      cbn [fst snd rev]. by rewrite <- app_assoc, (drop_S _ _ _ Hx).
Qed.

Lemma budgetFromEnd_tailUnder lines numBytes :
  budgetFromEnd lines (length lines) numBytes = tailUnder lines numBytes.
Proof.
  rewrite budgetFromEnd_headUnder by done. unfold tailUnder.
  rewrite take_ge, drop_ge, app_nil_r by done.
  by destruct (headUnder (rev lines) numBytes).
Qed.

Lemma loopBefore_collect os l T files : forall (first : bool) acc numBytes,
  0 < T ->
  loopBefore os l files (if first then T else 0) acc numBytes
  = collectBefore os l first T files numBytes ++ acc.
Proof.
  induction files as [|fi older IH]; intros first acc numBytes HT; [done|].
  cbn [loopBefore collectBefore]. unfold logLinesBefore.
  assert (Heq : match ScanLines os (Join (logDir l) (Name fi)) with
                | Ok ls => budgetFromEnd (scanBefore (Local os) (if first then T else 0) ls)
                             (length (scanBefore (Local os) (if first then T else 0) ls)) numBytes
                | Err _ => ([], numBytes)
                end
                = tailUnder
                    match ScanLines os (Join (logDir l) (Name fi)) with
                    | Ok ls => if first then linesBefore (Local os) T ls else map cleanLine ls
                    | Err _ => []
                    end numBytes).
  { destruct (ScanLines os _) as [ls|]; [|done]. rewrite budgetFromEnd_tailUnder.
    destruct first; [by rewrite scanBefore_threshold | by rewrite scanBefore_zero]. }
  rewrite Heq. destruct (tailUnder _ _) as [part remaining].
  destruct (remaining <=? 0); [done|].
  rewrite (IH false) by done. by rewrite <- app_assoc.
Qed.

Lemma startPred_createTs os files T h :
  Forall isLogFile files -> (h < length files)%nat ->
  (fi ← index files h;
   ts ← LogFileStartTs (Local os) (Name fi);
   Returns (ts <? T))
  = Returns (match files !! h with
             | Some fi => createTs (Local os) fi <? T
             | None => false
             end).
Proof.
  intros Hall Hh. destruct (index_lt files _ Hh) as (fi & -> & Hfi). rewrite bind_Returns, Hfi.
  unfold createTs.
  destruct (LogFileStartTs_match (Local os) (Name fi)) as [ts ->];
    [by eapply (Forall_lookup_1 isLogFile) | done].
Qed.

(** C9, as the code has it: for [startTs < 0] and [T = -startTs], the
    scan starts at a file created before [T] whose newer neighbour in
    the listing was not (the newest such file when the creation times
    fall along the listing) and goes on towards older files.  Only in
    that first file are the lines cut, at the first one stamped [T] or
    later: the lines before it are kept, the lines after it are left out
    whatever their stamp.  Every older file contributes the tail of all
    its lines under the budget that is left; the parts are joined oldest
    file first. *)
Theorem LogLines_before_cuts_only_first_file os l startTs numBytes fis :
  Readdir os (logDir l) = Ok fis ->
  - 2 ^ 63 < startTs < 0 ->
  exists start,
    (start <= length (logFiles fis))%nat
    /\ (forall fi, logFiles fis !! start = Some fi -> createTs (Local os) fi < - startTs)
    /\ (forall fi, (0 < start)%nat -> logFiles fis !! (start - 1)%nat = Some fi ->
          - startTs <= createTs (Local os) fi)
    /\ (newestFirst (Local os) (logFiles fis) ->
        forall k fi, (k < start)%nat -> logFiles fis !! k = Some fi ->
          - startTs <= createTs (Local os) fi)
    /\ LogRedirector_LogLines os l startTs numBytes
       = Returns (collectBefore os l true (- startTs) (drop start (logFiles fis)) numBytes)
    /\ (forall ls, exists pre post,
          ls = pre ++ post
          /\ linesBefore (Local os) (- startTs) ls = map cleanLine pre
          /\ Forall (fun line => LogLineTs (Local os) line < - startTs) pre
          /\ match post with [] => True | line :: _ => - startTs <= LogLineTs (Local os) line end).
Proof.
  intros Hdir Hts.
  pose proof (logFiles_Forall fis) as Hall. set (files := logFiles fis) in *.
  set (T := - startTs).
  set (p := fun h => match files !! h with
                     | Some fi => createTs (Local os) fi <? T
                     | None => false
                     end).
  destruct (Search_boundary
              (fun i => fi ← index files i;
                        ts ← LogFileStartTs (Local os) (Name fi);
                        Returns (ts <? T)) p (length files))
    as (start & Hsearch & Hle & Hbelow & Hat).
  { intros h Hh. by apply startPred_createTs. }
  exists start. split; [done|]. split; [|split; [|split; [|split]]].
  - intros fi Hfi. assert (Hlt : (start < length files)%nat) by by eapply lookup_lt_Some.
    specialize (Hat Hlt). unfold p in Hat. rewrite Hfi in Hat. by apply Z.ltb_lt.
  - intros fi Hpos Hfi. specialize (Hbelow Hpos). unfold p in Hbelow.
    rewrite Hfi in Hbelow. by apply Z.ltb_ge.
  - intros Hmono k fi Hk Hfi.
    destruct (lookup_lt_is_Some_2 files (start - 1)%nat) as [fj Hfj]; [lia|].
    assert (Hj : T <= createTs (Local os) fj).
    { specialize (Hbelow ltac:(lia)). unfold p in Hbelow. rewrite Hfj in Hbelow.
      by apply Z.ltb_ge. }
    pose proof (Hmono k (start - 1)%nat fi fj ltac:(lia) Hfi Hfj). lia.
  - unfold LogRedirector_LogLines. rewrite Hdir. fold files.
    destruct (Nat.eqb_spec (length files) 0) as [Hnil|Hn].
    + destruct files; [|done]. by rewrite drop_nil.
    + destruct (Z.eqb_spec startTs 0); [lia|]. destruct (Z.gtb_spec startTs 0); [lia|].
      rewrite int64_small by lia. fold T. rewrite Hsearch, bind_Returns.
      rewrite (loopBefore_collect os l T _ true) by (unfold T; lia).
      by rewrite app_nil_r.
  - intros ls. apply linesBefore_prefix.
Qed.

Lemma LogLines_before_cuts_only_first_file_witness :
  exists start,
    (start <= 2)%nat
    /\ LogRedirector_LogLines Sample.twoFiles (Sample.redirector Sample.secondLog 4 [])
         (-1525216200) 1000
       = Returns (collectBefore Sample.twoFiles (Sample.redirector Sample.secondLog 4 [])
                    true 1525216200
                    (drop start (logFiles [Sample.logFile Sample.firstLog 60 10;
                                           Sample.logFile Sample.secondLog 70 20])) 1000)
    /\ LogRedirector_LogLines Sample.twoFiles (Sample.redirector Sample.secondLog 4 [])
         (-1525216200) 1000
       = Returns ["2018/05/01 15:33:00 [main.go:7] a"; "no stamp"; "2018/05/01 16:00:01 [main.go:7] c"].
Proof.
  destruct (LogLines_before_cuts_only_first_file Sample.twoFiles
              (Sample.redirector Sample.secondLog 4 []) (-1525216200) 1000
              [Sample.logFile Sample.firstLog 60 10; Sample.logFile Sample.secondLog 70 20])
    as (start & Hle & _ & _ & _ & Heq & _).
  - reflexivity.
  - lia.
  - exists start. split; [exact Hle|]. split; [exact Heq|]. vm_compute. reflexivity.
Defined.

(** C9 as worded fails: the first file is not filtered to the lines
    stamped before [T].  Here [T] is 16:00:00 and the budget is ample; the
    lines after the one stamped 16:30:00 are stamped 0 and 15:40:00, both
    before [T], and a filter keeps them; [LogLines] stops at the line
    stamped 16:30:00 and returns the first line only. *)
Lemma LogLines_before_is_a_cut_not_a_filter :
  LogRedirector_LogLines Sample.lateLine (Sample.redirector Sample.firstLog 4 [])
    (-1525215600) 1000
  = Returns ["2018/05/01 15:33:00 [main.go:7] a"]
  /\ collectFiltered Sample.lateLine (Sample.redirector Sample.firstLog 4 []) true
       1525215600 (logFiles [Sample.logFile Sample.firstLog 90 10]) 1000
     = ["2018/05/01 15:33:00 [main.go:7] a"; "at main.go:9";
        "2018/05/01 15:40:00 [main.go:7] b"]
  /\ LogRedirector_LogLines Sample.lateLine (Sample.redirector Sample.firstLog 4 [])
       (-1525215600) 1000
     <> Returns (collectFiltered Sample.lateLine (Sample.redirector Sample.firstLog 4 []) true
                   1525215600 (logFiles [Sample.logFile Sample.firstLog 90 10]) 1000).
Proof.
  split; [vm_compute; reflexivity|]. split; [vm_compute; reflexivity|].
  vm_compute. discriminate.
Qed.

(** ** The byte budget of [LogLines] *)

(** C1 (the code departs from the claim): both scanning loops take a line
    first and compare the budget afterwards, so the line that uses the
    budget up is returned whole.  With one log file holding the line
    "hello" and a budget of 1, each of the three kinds of query returns
    that line: 5 bytes. *)
Theorem LogLines_returns_more_than_numBytes :
  LogLines Sample.oneFile (Some (Sample.redirector Sample.firstLog 4 [])) 0 1
    = Returns ["hello"]
  /\ LogLines Sample.oneFile (Some (Sample.redirector Sample.firstLog 4 [])) 1 1
     = Returns ["hello"]
  /\ LogLines Sample.oneFile (Some (Sample.redirector Sample.firstLog 4 [])) (-1525216200) 1
     = Returns ["hello"]
  /\ totalLen ["hello"] = 5.
Proof. repeat split; vm_compute; reflexivity. Qed.

(** ** Rotation at write-volume checkpoints *)



Section Events.

Variable ties : list FileInfo -> list FileInfo.





End Events.





(** ** Recycling *)













(** Every ascending rearrangement of the listing is the outcome for
    some [ties]: an ascending list is sorted to itself. *)
Lemma sortByModTime_ascending fis :
  Sorted olderOrSame fis ->
  sortSlice (fun a b => ModTime a <? ModTime b) fis = fis.
Proof.
  induction 1 as [|fi rest Hrest IH Hhd]; [done|].
  cbn [sortSlice fold_right]. fold (sortSlice (fun a b => ModTime a <? ModTime b) rest).
  rewrite IH. destruct Hhd as [|fj rest' Hle]; [done|].
  cbn [insertBy]. unfold olderOrSame in Hle.
  by destruct (Z.ltb_spec (ModTime fj) (ModTime fi)); [lia|].
Qed.




(** * Further properties of the code *)

Import Facts.

(** ** Shutdown of the pipeline *)

Lemma setLogCh_step le p c :
  Logging.setLogCh (Logging.dedup le (Logging.reportDropped p)) c
  = Logging.dedup le (Logging.reportDropped (Logging.setLogCh p c)).
Proof.
  unfold Logging.dedup, Logging.reportDropped, Logging.setLogCh. simpl.
  by destruct (String.eqb _ _).
Qed.

Lemma setLogCh_processAll es : forall p c,
  Logging.setLogCh (processAll es p) c = processAll es (Logging.setLogCh p c).
Proof.
  unfold processAll. induction es as [|e es IH]; intros p c; simpl; [done|].
  by rewrite IH, setLogCh_step.
Qed.

Lemma setLogCh_twice p c c' :
  Logging.setLogCh (Logging.setLogCh p c) c' = Logging.setLogCh p c'.
Proof. reflexivity. Qed.

Lemma step_keeps_wgDone le p :
  Logging.wgDone (Logging.dedup le (Logging.reportDropped p)) = Logging.wgDone p.
Proof. unfold Logging.dedup. by destruct (String.eqb _ _). Qed.

Lemma step_keeps_logCh le p :
  Logging.logCh (Logging.dedup le (Logging.reportDropped p)) = Logging.logCh p.
Proof. unfold Logging.dedup. by destruct (String.eqb _ _). Qed.

(** Once the channel is closed the consumer takes what is queued, entry
    by entry, and then returns. *)
Lemma processLogsRun_drains es : forall p,
  buf (Logging.logCh p) = es ->
  closed (Logging.logCh p) = true ->
  Logging.wgDone p = false ->
  Logging.processLogsRun (S (length es)) p
  = Returns (finished (Logging.setLogCh (processAll es p)
                         (Chan [] (cap (Logging.logCh p)) true))).
Proof.
  induction es as [|e es IH]; intros p Hbuf Hclosed Hrun.
  - cbn [length Logging.processLogsRun]. rewrite Hrun.
    unfold Logging.processLogsTurn, recv. rewrite Hbuf, Hclosed, bind_Returns.
    cbn [mbind outcome_bind Go.bind Logging.processLogsRun]. cbn.
    destruct p as [[b c cl] ? ? ? ? ?]; simpl in *. by subst.
  - cbn [length]. change (Logging.processLogsRun (S (S (length es))) p)
      with (if Logging.wgDone p then Returns p
            else p' ← Logging.processLogsTurn p; Logging.processLogsRun (S (length es)) p').
    rewrite Hrun, (processLogsTurn_entry p e es Hbuf), bind_Returns.
    rewrite IH.
    + rewrite step_keeps_logCh. cbn [Logging.logCh Logging.setLogCh cap].
      rewrite Hclosed. unfold processAll at 2. cbn [fold_left]. fold (processAll es).
      rewrite !setLogCh_processAll, !setLogCh_step, !setLogCh_twice. done.
    + by rewrite step_keeps_logCh.
    + by rewrite step_keeps_logCh.
    + by rewrite step_keeps_wgDone.
Qed.

Lemma Close_drain_run g :
  closed (Logging.logCh (Logging.pipeline g)) = false ->
  Logging.wgDone (Logging.pipeline g) = false ->
  Logging.processLogsRun
    (S (Go.len (Chan (buf (Logging.logCh (Logging.pipeline g)))
                  (cap (Logging.logCh (Logging.pipeline g))) true)))
    (Logging.setLogCh (Logging.pipeline g)
       (Chan (buf (Logging.logCh (Logging.pipeline g)))
          (cap (Logging.logCh (Logging.pipeline g))) true))
  = Returns (finished (Logging.setLogCh
                         (processAll (buf (Logging.logCh (Logging.pipeline g)))
                            (Logging.pipeline g))
                         (Chan [] (cap (Logging.logCh (Logging.pipeline g))) true))).
Proof.
  intros Hopen Hrun. unfold Go.len. cbn [buf].
  rewrite (processLogsRun_drains (buf (Logging.logCh (Logging.pipeline g)))); try done.
  cbn [Logging.logCh Logging.setLogCh cap].
  by rewrite setLogCh_processAll, setLogCh_twice, <- setLogCh_processAll.
Qed.

Lemma Close_without_redirector ties fl os g :
  closed (Logging.logCh (Logging.pipeline g)) = false ->
  Logging.wgDone (Logging.pipeline g) = false ->
  Logging.lr g = None ->
  Logging.Close ties fl os g
  = Returns ({| Logging.pipeline :=
                  finished (Logging.setLogCh
                              (processAll (buf (Logging.logCh (Logging.pipeline g)))
                                 (Logging.pipeline g))
                              (Chan [] (cap (Logging.logCh (Logging.pipeline g))) true));
                Logging.lr := None; Logging.writerData := EmptyString |}, []).
Proof.
  intros Hopen Hrun Hlr. unfold Logging.Close, close.
  rewrite Hopen, bind_Returns, (Close_drain_run g Hopen Hrun), bind_Returns, Hlr. reflexivity.
Qed.

(** X1: [Close] on a running pipeline hands every queued entry to the
    loop body of [processLogs], in order, before it goes on: whenever it
    returns, the pipeline is what that loop body leaves, with an empty
    closed queue and the consumer gone, and no redirector is left; with
    no redirector installed it always returns. *)
Theorem Close_drains_pipeline ties fl os g :
  closed (Logging.logCh (Logging.pipeline g)) = false ->
  Logging.wgDone (Logging.pipeline g) = false ->
  let drained :=
    finished (Logging.setLogCh
                (processAll (buf (Logging.logCh (Logging.pipeline g))) (Logging.pipeline g))
                (Chan [] (cap (Logging.logCh (Logging.pipeline g))) true)) in
  (forall g' ev, Logging.Close ties fl os g = Returns (g', ev) ->
     Logging.pipeline g' = drained /\ Logging.lr g' = None)
  /\ (Logging.lr g = None ->
      Logging.Close ties fl os g
      = Returns ({| Logging.pipeline := drained; Logging.lr := None;
                    Logging.writerData := EmptyString |}, [])).
Proof.
  intros Hopen Hrun drained. split.
  - unfold Logging.Close, close.
    rewrite Hopen, bind_Returns, (Close_drain_run g Hopen Hrun), bind_Returns.
    intros g' ev.
    destruct (CloseRedirector _ _ _ _ _) as [[lr' ev']| |] eqn:Hcr; [|done|done].
    rewrite bind_Returns. intros [= <- <-]. split; [done|]. simpl.
    unfold CloseRedirector in Hcr. destruct (Logging.lr g) as [l|].
    + destruct (LogRedirector_Close _ _ _ _ _) as [[? ?]| |]; [|done|done].
      rewrite bind_Returns in Hcr. by injection Hcr as <- _.
    + by injection Hcr as <- _.
  - intros Hlr. by apply Close_without_redirector.
Qed.

Lemma Close_drains_pipeline_witness :
  Logging.Close Sample.asListed defaultFlags (Sample.osOf "logs" [])
    {| Logging.pipeline := Sample.pipelineOf 4 [Sample.entry "a"; Sample.entry "b"];
       Logging.lr := None; Logging.writerData := EmptyString |}
  = Returns ({| Logging.pipeline :=
                  finished (Logging.setLogCh
                              (processAll [Sample.entry "a"; Sample.entry "b"]
                                 (Sample.pipelineOf 4 [Sample.entry "a"; Sample.entry "b"]))
                              (Chan [] 4 true));
                Logging.lr := None; Logging.writerData := EmptyString |}, []).
Proof.
  refine (proj2 (Close_drains_pipeline Sample.asListed defaultFlags (Sample.osOf "logs" [])
            {| Logging.pipeline := Sample.pipelineOf 4 [Sample.entry "a"; Sample.entry "b"];
               Logging.lr := None; Logging.writerData := EmptyString |} _ _) _);
    reflexivity.
Defined.

(** X2: once [Close] has returned the channel stays closed, so every
    later logging call panics on its send: [logText] itself, and with it
    [Print], [Vlog] at an enabled level, [cLogText] and [Fatal]. *)
Theorem logging_after_Close_panics ties fl os g g' ev :
  Logging.Close ties fl os g = Returns (g', ev) ->
  (forall le, Logging.logText le (Logging.pipeline g') = Panics)
  /\ (forall file line text, Calls.Print file line text (Logging.pipeline g') = Panics)
  /\ (forall verbose level file line text, level <= verbose ->
        Calls.Vlog verbose level file line text (Logging.pipeline g') = Panics)
  /\ (forall file line level text,
        Calls.cLogText file line level text (Logging.pipeline g') = Panics)
  /\ (forall fl' os' file line text,
        Calls.Fatal ties fl' os' file line text g' = Panics).
Proof.
  intros Hclose.
  assert (Hclosed : closed (Logging.logCh (Logging.pipeline g')) = true).
  { unfold Logging.Close in Hclose.
    destruct (close (Logging.logCh (Logging.pipeline g))) as [c| |] eqn:Hc; [|done|done].
    rewrite bind_Returns in Hclose.
    destruct (Logging.processLogsRun _ _) as [p| |] eqn:Hp; [|done|done].
    rewrite bind_Returns in Hclose.
    destruct (CloseRedirector _ _ _ _ _) as [[lr' ev']| |]; [|done|done].
    rewrite bind_Returns in Hclose. injection Hclose as <- <-.
    apply processLogsRun_closed in Hp. simpl in Hp |- *. rewrite Hp.
    unfold close in Hc. destruct (closed (Logging.logCh (Logging.pipeline g))); [done|].
    by injection Hc as <-. }
  assert (Hpanic : forall le, Logging.logText le (Logging.pipeline g') = Panics).
  { intros le. unfold Logging.logText, select_send. by rewrite Hclosed. }
  split; [done|]. split; [intros; apply Hpanic|]. split.
  { intros verbose level file line text Hle. unfold Calls.Vlog.
    destruct (Z.leb_spec level verbose); [apply Hpanic | lia]. }
  split; [intros; apply Hpanic|].
  intros fl' os' file line text. unfold Calls.Fatal. by rewrite Hpanic.
Qed.

Lemma logging_after_Close_panics_witness :
  Calls.Print "main.go" 7 "late"
    (finished (Logging.setLogCh
                 (processAll [Sample.entry "a"] (Sample.pipelineOf 4 [Sample.entry "a"]))
                 (Chan [] 4 true))) = Panics.
Proof.
  refine (proj1 (proj2 (logging_after_Close_panics Sample.asListed defaultFlags
            (Sample.osOf "logs" [])
            {| Logging.pipeline := Sample.pipelineOf 4 [Sample.entry "a"];
               Logging.lr := None; Logging.writerData := EmptyString |}
            {| Logging.pipeline := _; Logging.lr := None;
               Logging.writerData := EmptyString |} [] _)) "main.go" 7 "late").
  reflexivity.
Defined.

Lemma processAll_app es es' p :
  processAll (es ++ es') p = processAll es' (processAll es p).
Proof. unfold processAll. apply fold_left_app. Qed.

(** X3: [Fatal] on a running pipeline with room queues its message at
    level -1 and drains the pipeline before the process exits.  The
    message is the last thing handed to the logger, unless its text equals
    the text of the line logged last before it: then it is counted as a
    repeat and no line is logged for it. *)
Theorem Fatal_logs_last_unless_repeat ties fl os file line text g :
  closed (Logging.logCh (Logging.pipeline g)) = false ->
  Logging.wgDone (Logging.pipeline g) = false ->
  full (Logging.logCh (Logging.pipeline g)) = false ->
  Logging.lr g = None ->
  let fe := {| Logging.file := file; Logging.text := text;
               Logging.line := line; Logging.level := -1 |} in
  let q := processAll (buf (Logging.logCh (Logging.pipeline g))) (Logging.pipeline g) in
  exists g',
    Calls.Fatal ties fl os file line text g = Returns (g', [])
    /\ buf (Logging.logCh (Logging.pipeline g')) = []
    /\ Logging.wgDone (Logging.pipeline g') = true
    /\ (Logging.lastLogLine q <> text ->
        exists before,
          Logging.logged (Logging.pipeline g') = before ++ [Logging.LogLine fe])
    /\ (Logging.lastLogLine q = text ->
        List.filter isLine (Logging.logged (Logging.pipeline g'))
        = List.filter isLine (Logging.logged q)
        /\ Logging.lastLogLineRepeatCount (Logging.pipeline g')
           = int64 (Logging.lastLogLineRepeatCount q + 1)).
Proof.
  intros Hopen Hrun Hroom Hlr fe q.
  destruct (logText_room fe (Logging.pipeline g) Hopen Hroom) as (p & Hp & Hch & Hd & Hlg).
  assert (Hwg : Logging.wgDone p = false).
  { unfold Logging.logText, select_send in Hp. rewrite Hopen, Hroom, bind_Returns in Hp.
    by injection Hp as <-. }
  assert (Hp' : p = Logging.setLogCh (Logging.pipeline g) (Logging.logCh p)).
  { unfold Logging.logText, select_send in Hp. rewrite Hopen, Hroom, bind_Returns in Hp.
    by injection Hp as <-. }
  unfold Calls.Fatal. fold fe. rewrite Hp, bind_Returns.
  rewrite (Close_without_redirector ties fl os
             {| Logging.pipeline := p; Logging.lr := Logging.lr g;
                Logging.writerData := Logging.writerData g |});
    [| simpl; by rewrite Hch | done | done]. eexists. split; [reflexivity|]. cbn [Logging.pipeline].
  split; [done|]. split; [done|].
  assert (Hall : processAll (buf (Logging.logCh p)) p
                 = Logging.setLogCh (Logging.dedup fe (Logging.reportDropped q)) (Logging.logCh p)).
  { rewrite Hch at 1. cbn [buf]. rewrite processAll_app. rewrite Hp' at 1.
    rewrite <- setLogCh_processAll. fold q. unfold processAll at 1. cbn [fold_left].
    by rewrite <- setLogCh_step. }
  cbn [Logging.logged Logging.lastLogLineRepeatCount finished Logging.setLogCh].
  rewrite Hall. cbn [Logging.logged Logging.lastLogLineRepeatCount Logging.setLogCh].
  split.
  - intros Hne. apply String.eqb_neq in Hne.
    unfold Logging.dedup. cbn [Logging.lastLogLine Logging.reportDropped Logging.text fe].
    rewrite Hne. cbn [Logging.logged]. eexists. by rewrite !app_assoc.
  - intros Heq. apply String.eqb_eq in Heq.
    unfold Logging.dedup. cbn [Logging.lastLogLine Logging.reportDropped Logging.text fe].
    rewrite Heq. cbn [Logging.logged Logging.lastLogLineRepeatCount]. split; [|reflexivity].
    unfold Logging.reportDropped. cbn [Logging.logged].
    destruct (Logging.droppedLogLines q >? 0); [|done].
    rewrite List.filter_app. simpl. by rewrite app_nil_r.
Qed.

Lemma Fatal_logs_last_unless_repeat_witness :
  exists g',
    Calls.Fatal Sample.asListed defaultFlags (Sample.osOf "logs" []) "main.go" 9 "a"
      {| Logging.pipeline := Sample.pipelineOf 4 [Sample.entry "a"];
         Logging.lr := None; Logging.writerData := EmptyString |} = Returns (g', [])
    /\ Logging.logged (Logging.pipeline g') = [Logging.LogLine (Sample.entry "a")].
Proof.
  destruct (Fatal_logs_last_unless_repeat Sample.asListed defaultFlags
              (Sample.osOf "logs" []) "main.go" 9 "a"
              {| Logging.pipeline := Sample.pipelineOf 4 [Sample.entry "a"];
                 Logging.lr := None; Logging.writerData := EmptyString |})
    as (g' & Hfatal & _); try reflexivity.
  exists g'. split; [exact Hfatal|].
  vm_compute in Hfatal. injection Hfatal as <-. reflexivity.
Defined.

(** ** [Nlog]: one call in [n] *)

Lemma VlogTimes_add a b verbose level file line text p :
  Calls.VlogTimes (a + b) verbose level file line text p
  = (p' ← Calls.VlogTimes a verbose level file line text p;
     Calls.VlogTimes b verbose level file line text p').
Proof.
  revert p. induction a as [|a IH]; intros p; [done|].
  cbn [Nat.add Calls.VlogTimes].
  destruct (Calls.Vlog verbose level file line text p) as [q| |]; [|done|done].
  rewrite !bind_Returns. apply IH.
Qed.

Lemma rem_succ_one c n : 2 <= n -> 0 <= c -> (Z.rem (c + 1) n =? 1) = (c mod n =? 0).
Proof.
  intros Hn Hc. rewrite Z.rem_mod_nonneg by lia.
  pose proof (Z.div_mod c n ltac:(lia)) as Hdm.
  pose proof (Z.mod_pos_bound c n ltac:(lia)) as Hb.
  destruct (Z.eqb_spec (c mod n) 0) as [H0|H0].
  - apply Z.eqb_eq. symmetry. apply (Z.mod_unique_pos _ _ (c / n)); lia.
  - apply Z.eqb_neq. intros H1.
    destruct (Z.eq_dec (c mod n) (n - 1)) as [Hlast|Hmid].
    + assert ((c + 1) mod n = 0); [|lia].
      symmetry. apply (Z.mod_unique_pos _ _ (c / n + 1)); lia.
    + assert ((c + 1) mod n = c mod n + 1); [|lia].
      symmetry. apply (Z.mod_unique_pos _ _ (c / n)); lia.
Qed.

Lemma passed_succ n c :
  2 <= n -> 0 <= c ->
  passed n (c + 1) = passed n c + (if c mod n =? 0 then 1 else 0).
Proof.
  intros Hn Hc. unfold passed.
  pose proof (Z.div_mod c n ltac:(lia)) as Hdm.
  pose proof (Z.mod_pos_bound c n ltac:(lia)) as Hb.
  replace (c + 1 + n - 1) with (c + 1 * n) by lia.
  rewrite Z.div_add by lia.
  destruct (Z.eqb_spec (c mod n) 0) as [H0|H0].
  - assert ((c + n - 1) / n = c / n); [|lia].
    symmetry. apply (Z.div_unique_pos _ _ _ (n - 1)); lia.
  - assert ((c + n - 1) / n = c / n + 1); [|lia].
    symmetry. apply (Z.div_unique_pos _ _ _ (c mod n - 1)); lia.
Qed.

Lemma passed_mono n c k : 2 <= n -> 0 <= c -> 0 <= k -> passed n c <= passed n (c + k).
Proof. intros Hn Hc Hk. unfold passed. apply Z.div_le_mono; lia. Qed.

Section NlogCount.

Variables (pkg key file : string) (line verbose n level : Z) (text : string).

Lemma Nlog_call callers (m : gmap string Z) p c :
  Calls.nlogKey pkg callers = key -> Calls.nlogSite pkg callers = (file, line) ->
  2 <= n -> default 0 (m !! key) = c ->
  0 <= c -> c + 1 < 2 ^ 63 ->
  Calls.Nlog pkg callers verbose n level text (m, p)
  = (p' ← Calls.VlogTimes (if (c mod n =? 0)%Z then 1 else 0)%nat
            verbose level file line text p;
     Returns (<[key := c + 1]> m, p')).
Proof.
  intros Hkey Hsite Hn Hcount Hc Hbound. unfold Calls.Nlog, Calls.incNLogCnt, Calls.rem64.
  cbn [fst snd]. rewrite Hkey, Hsite, Hcount, int64_small by lia.
  destruct (Z.eqb_spec n 0); [lia|]. rewrite bind_Returns, rem_succ_one by lia.
  destruct (c mod n =? 0); cbn [Calls.VlogTimes]; [|done].
  by destruct (Calls.Vlog verbose level file line text p).
Qed.

Lemma NlogCalls_from calls : forall (m : gmap string Z) p c,
  Forall (fun callers => Calls.nlogKey pkg callers = key
                         /\ Calls.nlogSite pkg callers = (file, line)) calls ->
  2 <= n -> default 0 (m !! key) = c ->
  0 <= c -> c + Z.of_nat (length calls) < 2 ^ 63 ->
  Calls.NlogCalls pkg calls verbose n level text (m, p)
  = (p' ← Calls.VlogTimes (Z.to_nat (passed n (c + Z.of_nat (length calls)) - passed n c))
            verbose level file line text p;
     Returns (match calls with
              | [] => m
              | _ :: _ => <[key := c + Z.of_nat (length calls)]> m
              end, p')).
Proof.
  induction calls as [|callers calls IH]; intros m p c Hall Hn Hcount Hc Hbound.
  - cbn [Calls.NlogCalls length]. rewrite Z.add_0_r, Z.sub_diag. reflexivity.
  - apply Forall_cons in Hall as [[Hkey Hsite] Hrest].
    cbn [Calls.NlogCalls length] in *.
    rewrite (Nlog_call _ _ _ c) by (try done; lia).
    pose proof (passed_succ n c Hn Hc) as Hsucc.
    pose proof (passed_mono n (c + 1) (Z.of_nat (length calls)) Hn ltac:(lia) ltac:(lia))
      as Hmono.
    replace (Z.to_nat (passed n (c + Z.of_nat (S (length calls))) - passed n c))
      with ((if (c mod n =? 0)%Z then 1 else 0)
            + Z.to_nat (passed n (c + 1 + Z.of_nat (length calls)) - passed n (c + 1)))%nat.
    2:{ replace (c + Z.of_nat (S (length calls))) with (c + 1 + Z.of_nat (length calls)) by lia.
        destruct (c mod n =? 0); lia. }
    rewrite VlogTimes_add.
    destruct (Calls.VlogTimes (if (c mod n =? 0)%Z then 1 else 0)%nat verbose level file line text p)
      as [q| |]; [|done|done].
    rewrite !bind_Returns.
    rewrite (IH _ q (c + 1)); try done; try lia.
    2:{ by rewrite lookup_insert_eq. }
    destruct (Calls.VlogTimes _ verbose level file line text q) as [q'| |]; [|done|done].
    rewrite !bind_Returns. f_equal. f_equal.
    destruct calls as [|c2 calls]; [f_equal; simpl; lia|].
    rewrite insert_insert_eq. f_equal. lia.
Qed.

End NlogCount.

(** Where the two calls of [getFileLine] under [Nlog] stop: at the frame
    of [Nlog] itself when logging.go is not under "logging/", at the
    caller when it is. *)
Lemma nlog_places_outside pkg callers :
  String.prefix "logging/" (Calls.srcFilePath pkg) = false ->
  Calls.nlogKey pkg callers = Logging.fileLinePrefix (Calls.srcFilePath pkg) 95
  /\ Calls.nlogSite pkg callers = (Calls.srcFilePath pkg, 97).
Proof.
  intros Hout. unfold Calls.nlogKey, Calls.nlogSite, Calls.getFileLinePrefix, Calls.getFileLine.
  cbn [drop Calls.firstOutside]. by rewrite Hout.
Qed.

Lemma nlog_places_inside pkg f ln rest :
  String.prefix "logging/" (Calls.srcFilePath pkg) = true ->
  String.prefix "logging/" (Calls.srcFilePath f) = false ->
  Calls.nlogKey pkg ((f, ln) :: rest) = Logging.fileLinePrefix (Calls.srcFilePath f) ln
  /\ Calls.nlogSite pkg ((f, ln) :: rest) = (Calls.srcFilePath f, ln).
Proof.
  intros Hin Hout. unfold Calls.nlogKey, Calls.nlogSite, Calls.getFileLinePrefix, Calls.getFileLine.
  cbn [drop Calls.firstOutside]. by rewrite Hin, Hout.
Qed.

(** X4: calls of [Nlog] with period [n >= 2] that count under one key
    with no count yet: exactly the first, the [n+1]-st, the [2n+1]-st
    ... go on to [Vlog], [(k + n - 1) / n] of [k]; the map holds [k]
    under that key afterwards and is unchanged elsewhere.  The key and
    the place logged are what [getFileLine] finds from inside [Nlog]:
    when logging.go is not under "go/src/logging/" the walk stops at the
    frame of [Nlog] itself, so that every call site counts under the one
    key of line 95 and is logged as line 97 of logging.go; when it is,
    the key and the place are those of the caller. *)
Theorem Nlog_lets_one_in_n_through pkg calls key file line verbose n level text
    (m : gmap string Z) p :
  2 <= n ->
  Forall (fun callers => Calls.nlogKey pkg callers = key
                         /\ Calls.nlogSite pkg callers = (file, line)) calls ->
  m !! key = None ->
  Z.of_nat (length calls) < 2 ^ 63 ->
  Calls.NlogCalls pkg calls verbose n level text (m, p)
  = (p' ← Calls.VlogTimes (Z.to_nat ((Z.of_nat (length calls) + n - 1) / n))
            verbose level file line text p;
     Returns (match calls with
              | [] => m
              | _ :: _ => <[key := Z.of_nat (length calls)]> m
              end, p'))
  /\ (String.prefix "logging/" (Calls.srcFilePath pkg) = false ->
      forall callers,
        Calls.nlogKey pkg callers = Logging.fileLinePrefix (Calls.srcFilePath pkg) 95
        /\ Calls.nlogSite pkg callers = (Calls.srcFilePath pkg, 97))
  /\ (String.prefix "logging/" (Calls.srcFilePath pkg) = true ->
      forall f ln rest,
        String.prefix "logging/" (Calls.srcFilePath f) = false ->
        Calls.nlogKey pkg ((f, ln) :: rest) = Logging.fileLinePrefix (Calls.srcFilePath f) ln
        /\ Calls.nlogSite pkg ((f, ln) :: rest) = (Calls.srcFilePath f, ln)).
Proof.
  intros Hn Hall Hnone Hbound. split; [|split].
  - rewrite (NlogCalls_from pkg key file line verbose n level text calls m p 0);
      try done; try lia.
    2:{ by rewrite Hnone. }
    unfold passed. rewrite !Z.add_0_l.
    replace ((n - 1) / n) with 0; [by rewrite Z.sub_0_r|].
    symmetry. apply Z.div_small. lia.
  - intros Hout callers. by apply nlog_places_outside.
  - intros Hin f ln rest Hout. by apply nlog_places_inside.
Qed.

Lemma Nlog_lets_one_in_n_through_witness :
  Calls.NlogCalls "/home/u/go/src/github.com/YijinLiu/logging/logging.go"
    [[("/home/u/go/src/app/main.go", 7)]; [("/home/u/go/src/app/main.go", 20)];
     [("/home/u/go/src/app/util.go", 3)]; [("/home/u/go/src/app/main.go", 7)]]
    1 3 1 "tick" (∅, Sample.pipelineOf 8 [])
  = (p' ← Calls.VlogTimes 2 1 1 "github.com/YijinLiu/logging/logging.go" 97 "tick"
            (Sample.pipelineOf 8 []);
     Returns (<["[github.com/YijinLiu/logging/logging.go:95] " := 4]> ∅, p')).
Proof.
  refine (proj1 (Nlog_lets_one_in_n_through
            "/home/u/go/src/github.com/YijinLiu/logging/logging.go"
            [[("/home/u/go/src/app/main.go", 7)]; [("/home/u/go/src/app/main.go", 20)];
             [("/home/u/go/src/app/util.go", 3)]; [("/home/u/go/src/app/main.go", 7)]]
            "[github.com/YijinLiu/logging/logging.go:95] "
            "github.com/YijinLiu/logging/logging.go" 97
            1 3 1 "tick" ∅ (Sample.pipelineOf 8 []) _ _ _ _)).
  - lia.
  - repeat constructor.
  - apply lookup_empty.
  - simpl. lia.
Defined.

(** X5: with period 1 [Nlog] never logs (the count modulo 1 is never 1),
    although it keeps counting, from whatever count its key has; with
    period 0 it panics on the division. *)
Theorem Nlog_period_one_never_logs_zero_panics :
  (forall k pkg callers verbose level text (m : gmap string Z) p c,
     default 0 (m !! Calls.nlogKey pkg callers) = c ->
     0 <= c -> c + Z.of_nat k < 2 ^ 63 ->
     Calls.NlogTimes k pkg callers verbose 1 level text (m, p)
     = Returns (match k with
                | O => m
                | S _ => <[Calls.nlogKey pkg callers := c + Z.of_nat k]> m
                end, p))
  /\ (forall pkg callers verbose level text st,
        Calls.Nlog pkg callers verbose 0 level text st = Panics).
Proof.
  split.
  - intros k pkg callers verbose level text m p. revert m. unfold Calls.NlogTimes.
    induction k as [|k IH]; intros m c Hcount Hc Hbound; [done|].
    cbn [replicate Calls.NlogCalls]. unfold Calls.Nlog, Calls.incNLogCnt, Calls.rem64.
    cbn [fst snd]. rewrite Hcount, int64_small by lia.
    rewrite Z.rem_1_r. cbn. rewrite (IH _ (c + 1)); try lia.
    2:{ by rewrite lookup_insert_eq. }
    f_equal. f_equal. destruct k as [|k]; [f_equal; lia|].
    rewrite insert_insert_eq. f_equal. lia.
  - intros pkg callers verbose level text [m p]. reflexivity.
Qed.

(** ** Colour codes: written by the pipeline, removed by retrieval *)

Lemma append_nil_r s : s +:+ EmptyString = s.
Proof.
  induction s as [|c s IH]; [done|].
  change (String c s +:+ EmptyString) with (String c (s +:+ EmptyString)). by rewrite IH.
Qed.

Lemma append_assoc a b c : (a +:+ b) +:+ c = a +:+ b +:+ c.
Proof.
  induction a as [|x a IH]; [done|].
  change (String x (a +:+ b) +:+ c = String x (a +:+ b +:+ c)). by rewrite <- IH.
Qed.

Lemma colorMatchLen_other c s :
  Ascii.eqb c Logging.ESC = false -> Re.colorMatchLen (String c s) = None.
Proof.
  intros Hc. destruct s as [|b [|c' rest]]; try done.
  unfold Re.colorMatchLen. change (ascii_of_nat 27) with Logging.ESC. by rewrite Hc.
Qed.

Lemma stripColor_noEsc_app a b :
  noEsc a = true -> Re.stripColor (a +:+ b) = a +:+ Re.stripColor b.
Proof.
  unfold Re.stripColor. induction a as [|c a IH]; intros Ha; [done|].
  simpl in Ha. apply andb_prop in Ha as [Hc Ha]. apply negb_true_iff in Hc.
  change (String c a +:+ b) with (String c (a +:+ b)).
  cbn [Re.stripColorFrom]. rewrite (colorMatchLen_other c _ Hc).
  by rewrite IH.
Qed.

Lemma stripColor_noEsc a : noEsc a = true -> Re.stripColor a = a.
Proof.
  intros Ha. pose proof (stripColor_noEsc_app a EmptyString Ha) as H.
  change (Re.stripColor EmptyString) with EmptyString in H.
  by rewrite !append_nil_r in H.
Qed.

Lemma stripColor_codes b :
  Re.stripColor (Logging.COLOR_ERROR +:+ b) = Re.stripColor b
  /\ Re.stripColor (Logging.COLOR_WARNING +:+ b) = Re.stripColor b
  /\ Re.stripColor (Logging.COLOR_SUCCESS +:+ b) = Re.stripColor b
  /\ Re.stripColor (Logging.COLOR_NONE +:+ b) = Re.stripColor b.
Proof. split; [|split; [|split]]; reflexivity. Qed.

Lemma noEsc_app a b : noEsc (a +:+ b) = noEsc a && noEsc b.
Proof.
  induction a as [|c a IH]; [done|].
  change (String c a +:+ b) with (String c (a +:+ b)). simpl. rewrite IH.
  by rewrite andb_assoc.
Qed.

Lemma allDigits_noEsc s : allDigits s = true -> noEsc s = true.
Proof.
  induction s as [|c s IH]; [done|]. simpl. intros H.
  apply andb_prop in H as [Hc Hs]. rewrite (IH Hs), andb_true_r.
  apply negb_true_iff, Ascii.eqb_neq. intros ->. done.
Qed.

Lemma string_of_uint_digits d : allDigits (NilEmpty.string_of_uint d) = true.
Proof. induction d; simpl; done. Qed.

Lemma itoa_nonneg_digits x : 0 <= x -> allDigits (itoa x) = true /\ itoa x <> EmptyString.
Proof.
  intros Hx. unfold itoa. destruct x as [|p|p]; [done| |lia].
  cbn [Z.to_int NilZero.string_of_int]. unfold NilZero.string_of_uint.
  pose proof (DecimalPos.Unsigned.to_uint_nonnil p) as Hnil.
  destruct (Pos.to_uint p) eqn:Hd; try done;
    (split; [rewrite <- Hd || idtac; apply (string_of_uint_digits (_ _)) | done]).
Qed.

Lemma itoa_noEsc x : noEsc (itoa x) = true.
Proof.
  destruct (Z.lt_ge_cases x 0) as [Hneg|Hpos].
  - unfold itoa. destruct x as [|p|p]; try lia.
    cbn [Z.to_int NilZero.string_of_int]. simpl noEsc.
    unfold NilZero.string_of_uint.
    destruct (Pos.to_uint p) eqn:Hd; try done;
      apply allDigits_noEsc, (string_of_uint_digits (_ _)).
  - by apply allDigits_noEsc, itoa_nonneg_digits.
Qed.

Lemma fileLinePrefix_noEsc file line :
  noEsc file = true -> noEsc (Logging.fileLinePrefix file line) = true.
Proof.
  intros Hf. unfold Logging.fileLinePrefix.
  destruct (negb (String.eqb file EmptyString)); [|done].
  destruct (line >? 0); rewrite !noEsc_app, ?Hf, ?itoa_noEsc; done.
Qed.

(** X6: what the pipeline hands to the logger reads back without its
    colour codes: [colorRe.ReplaceAllString(_, "")] turns the message of a
    drop warning, of a repeat notice and of a log line at any level into
    the plain text, given that the file name and the text of the line hold
    no escape byte themselves. *)
Theorem colours_written_are_stripped :
  (forall dropped,
     Re.stripColor (Logging.message (Logging.DroppedWarning dropped))
     = plain (Logging.DroppedWarning dropped))
  /\ (forall count,
        Re.stripColor (Logging.message (Logging.RepeatNotice count))
        = plain (Logging.RepeatNotice count))
  /\ (forall le,
        noEsc (Logging.file le) = true -> noEsc (Logging.text le) = true ->
        Re.stripColor (Logging.message (Logging.LogLine le))
        = plain (Logging.LogLine le)).
Proof.
  split; [|split].
  - intros dropped. cbn [Logging.message plain].
    destruct (stripColor_codes (itoa dropped +:+ " log lines were dropped." +:+ Logging.COLOR_NONE))
      as (_ & -> & _).
    rewrite stripColor_noEsc_app by apply itoa_noEsc. reflexivity.
  - intros count. cbn [Logging.message plain].
    destruct (stripColor_codes ("Last line repeated " +:+ itoa count +:+ " times."
                                +:+ Logging.COLOR_NONE)) as (_ & _ & -> & _).
    rewrite (stripColor_noEsc_app "Last line repeated ") by done.
    rewrite stripColor_noEsc_app by apply itoa_noEsc. reflexivity.
  - intros le Hfile Htext. cbn [Logging.message plain Str.concat fold_right].
    rewrite append_nil_r.
    rewrite stripColor_noEsc_app by by apply fileLinePrefix_noEsc.
    f_equal.
    assert (Hbody : forall suffix,
              Re.stripColor suffix = EmptyString ->
              Re.stripColor (Logging.text le +:+ suffix) = Logging.text le).
    { intros suffix Hs. rewrite stripColor_noEsc_app, Hs by done.
      apply append_nil_r. }
    unfold Logging.vlogPrefix, Logging.vlogSuffix.
    destruct (Z.ltb_spec (Logging.level le) 0).
    { destruct (stripColor_codes (Logging.text le
                 +:+ (if (Logging.level le <=? 0) || (Logging.level le >=? 3)
                      then Logging.COLOR_NONE else EmptyString))) as (-> & _).
      apply Hbody. by destruct (_ || _). }
    destruct (Z.eqb_spec (Logging.level le) 0).
    { destruct (stripColor_codes (Logging.text le
                 +:+ (if (Logging.level le <=? 0) || (Logging.level le >=? 3)
                      then Logging.COLOR_NONE else EmptyString))) as (_ & -> & _).
      apply Hbody. by destruct (_ || _). }
    destruct (Z.geb_spec (Logging.level le) 3).
    { destruct (stripColor_codes (Logging.text le
                 +:+ (if (Logging.level le <=? 0) || true
                      then Logging.COLOR_NONE else EmptyString))) as (_ & _ & -> & _).
      apply Hbody. by destruct (_ || _). }
    apply Hbody. by destruct (_ || _).
Qed.

(** ** The names of the files the redirector makes *)

Lemma digits_app ds rest :
  allDigits ds = true ->
  Str.digits (String.length ds) (ds +:+ rest) = Some (ds, rest).
Proof.
  induction ds as [|c ds IH]; intros Hds; [done|].
  simpl in Hds. apply andb_prop in Hds as [Hc Hds].
  change (String c ds +:+ rest) with (String c (ds +:+ rest)).
  cbn [String.length Str.digits]. rewrite Hc, (IH Hds). reflexivity.
Qed.

Lemma digitSpan_app ds c rest :
  allDigits ds = true -> Str.isDigit c = false ->
  Str.digitSpan (ds +:+ String c rest) = (ds, String c rest).
Proof.
  intros Hds Hc. induction ds as [|d ds IH].
  - change (EmptyString +:+ String c rest) with (String c rest).
    cbn [Str.digitSpan]. by rewrite Hc.
  - simpl in Hds. apply andb_prop in Hds as [Hd Hds].
    change (String d ds +:+ String c rest) with (String d (ds +:+ String c rest)).
    cbn [Str.digitSpan]. by rewrite Hd, (IH Hds).
Qed.

Lemma lit_app c rest : Str.lit c (String c EmptyString +:+ rest) = Some rest.
Proof.
  change (String c EmptyString +:+ rest) with (String c rest).
  cbn [Str.lit]. by rewrite Ascii.eqb_refl.
Qed.

Lemma stampedName_submatch d1 t1 d2 t2 num :
  allDigits d1 = true -> String.length d1 = 8%nat ->
  allDigits t1 = true -> String.length t1 = 6%nat ->
  allDigits d2 = true -> String.length d2 = 8%nat ->
  allDigits t2 = true -> String.length t2 = 6%nat ->
  allDigits num = true -> num <> EmptyString ->
  let name := d1 +:+ "-" +:+ t1 +:+ "_" +:+ d2 +:+ "-" +:+ t2 +:+ "_" +:+ num +:+ ".log" in
  Re.fileNameSubmatch name = [name; d2 +:+ "-" +:+ t2].
Proof.
  intros Hd1 Ld1 Ht1 Lt1 Hd2 Ld2 Ht2 Lt2 Hnum Hne name.
  unfold Re.fileNameSubmatch. subst name.
  rewrite <- Ld1 at 1. rewrite (digits_app d1 _ Hd1). cbn [mbind option_bind].
  rewrite lit_app. cbn [mbind option_bind].
  rewrite <- Lt1 at 1. rewrite (digits_app t1 _ Ht1). cbn [mbind option_bind].
  rewrite lit_app. cbn [mbind option_bind].
  rewrite <- Ld2 at 1. rewrite (digits_app d2 _ Hd2). cbn [mbind option_bind].
  rewrite lit_app. cbn [mbind option_bind].
  rewrite <- Lt2 at 1. rewrite (digits_app t2 _ Ht2). cbn [mbind option_bind].
  rewrite lit_app. cbn [mbind option_bind].
  unfold Str.digits1. change (".log") with (String "." "log").
  rewrite (digitSpan_app num "." "log" Hnum eq_refl).
  destruct num as [|c num]; [done|]. cbn [mbind option_bind].
  reflexivity.
Qed.

(** X7: a file the redirector makes is one that [LogLines] reads.  With
    the start time and the clock formatted as [time.Format] does and a
    file count within [int], the base name that [redirectToNewFile] builds
    matches [logFileNameRe], and [LogFileStartTs] of it is the time the
    file was made (the second stamp, not the start of the process).  On a
    successful redirection the new path becomes the active file and the
    byte count restarts at zero; on a failed one the active file and the
    byte count stay, and the sequence number is used up all the same. *)
Theorem redirectToNewFile_names_a_log_file fl os l :
  isFileStamp (startTimeStr l) ->
  isFileStamp (NowFileTime os) ->
  0 <= numLogFiles l < 2 ^ 63 - 1 ->
  let base := startTimeStr l +:+ "_" +:+ NowFileTime os +:+ "_"
              +:+ itoa (numLogFiles l + 1) +:+ ".log" in
  let l' := fst (redirectToNewFile fl os l) in
  Re.fileNameMatch base = true
  /\ LogFileStartTs (Local os) base
     = Returns (Time.parseFileTime (NowFileTime os) (Local os))
  /\ numLogFiles l' = numLogFiles l + 1
  /\ existsb isRedirect (snd (redirectToNewFile fl os l)) = true
  /\ (redirect_stdout_stderr_to os (Join (logDir l) base) = 0 ->
      logFileName l' = Join (logDir l) base /\ bytesWritten l' = 0)
  /\ (redirect_stdout_stderr_to os (Join (logDir l) base) <> 0 ->
      logFileName l' = logFileName l /\ bytesWritten l' = bytesWritten l).
Proof.
  intros (d1 & t1 & Hs & Ld1 & Lt1 & Hd1 & Ht1) (d2 & t2 & Hn & Ld2 & Lt2 & Hd2 & Ht2) Hcount
    base l'.
  destruct (itoa_nonneg_digits (numLogFiles l + 1)) as [Hnum Hne]; [lia|].
  assert (Hsub : Re.fileNameSubmatch base = [base; NowFileTime os]).
  { subst base. rewrite Hs, Hn, !append_assoc.
    by apply (stampedName_submatch d1 t1 d2 t2 (itoa (numLogFiles l + 1))). }
  split; [unfold Re.fileNameMatch; by rewrite Hsub|].
  split; [unfold LogFileStartTs; by rewrite Hsub|].
  subst l'. unfold redirectToNewFile. rewrite int64_small by lia. fold base.
  destruct (Z.eqb_spec (redirect_stdout_stderr_to os (Join (logDir l) base)) 0) as [Hok|Hfail];
    cbn [negb fst snd numLogFiles logFileName bytesWritten].
  - split; [done|]. split.
    { rewrite !existsb_app. cbn [existsb isRedirect]. by rewrite orb_true_r. }
    split; [done|]. intros Hne'. done.
  - split; [done|]. split.
    { rewrite !existsb_app. cbn [existsb isRedirect]. by rewrite orb_true_r. }
    split; [intros Heq; done | done].
Qed.

Lemma redirectToNewFile_names_a_log_file_witness :
  Re.fileNameMatch ("20180501-153256" +:+ "_" +:+ "20180501-160000" +:+ "_"
                    +:+ itoa (1 + 1) +:+ ".log") = true
  /\ LogFileStartTs Sample.PDT
       ("20180501-153256" +:+ "_" +:+ "20180501-160000" +:+ "_" +:+ itoa (1 + 1) +:+ ".log")
     = Returns (Time.parseFileTime "20180501-160000" Sample.PDT).
Proof.
  destruct (redirectToNewFile_names_a_log_file defaultFlags Sample.fullLog
              (Sample.redirector Sample.firstLog 4 [])) as (Hmatch & Hts & _).
  - exists "20180501", "153256". repeat split; reflexivity.
  - exists "20180501", "160000". repeat split; reflexivity.
  - simpl. lia.
  - split; [exact Hmatch | exact Hts].
Defined.

(** ** The writer: what [Write] queues is written in order *)

Lemma concat_snoc ds d : Str.concat (ds ++ [d]) = Str.concat ds +:+ d.
Proof.
  unfold Str.concat. induction ds as [|x ds IH]; simpl.
  - by rewrite append_nil_r.
  - by rewrite IH, append_assoc.
Qed.

Lemma WriteAll_room ps : forall l,
  closed (logCh l) = false ->
  (length (buf (logCh l)) + length ps <= cap (logCh l))%nat ->
  Writer.WriteAll l ps
  = Returns (setLogCh l (Chan (buf (logCh l) ++ ps) (cap (logCh l)) false)).
Proof.
  induction ps as [|p ps IH]; intros l Hopen Hroom.
  - cbn [Writer.WriteAll]. rewrite app_nil_r.
    destruct l as [? ? ? ? ? [b c cl] ?]; simpl in *. by subst.
  - cbn [Writer.WriteAll]. rewrite Write_room; [|done|].
    2:{ unfold full. apply Nat.leb_gt. simpl in Hroom. lia. }
    rewrite bind_Returns, IH.
    + cbn [logCh setLogCh buf cap]. by rewrite <- app_assoc.
    + done.
    + cbn [logCh setLogCh buf cap]. rewrite length_app. simpl in *. lia.
Qed.

Section WriterTurns.

Variable ties : list FileInfo -> list FileInfo.

(** A turn that finds more chunks queued behind the one it takes only
    adds the chunk to its buffer. *)
Lemma writeLogTurn_more fl os l data d d' rest :
  String.eqb (logFileName l) EmptyString = false ->
  buf (logCh l) = d :: d' :: rest ->
  writeLogTurn ties fl os (l, data)
  = Returns (setLogCh l (Chan (d' :: rest) (cap (logCh l)) (closed (logCh l))),
             data +:+ d, mirror fl [d]).
Proof.
  intros Hfile Hbuf. unfold writeLogTurn, recv. rewrite Hbuf, bind_Returns.
  cbn [logFileName setLogCh logCh]. rewrite Hfile. unfold Go.len. cbn [buf length].
  unfold mirror. by destruct (alsoLogToStdoutFlag fl).
Qed.

Lemma mirror_app fl xs ys : mirror fl (xs ++ ys) = mirror fl xs ++ mirror fl ys.
Proof. unfold mirror. destruct (alsoLogToStdoutFlag fl); [apply map_app | done]. Qed.

Lemma writeLogTurns_queue fl os ds : forall l data d,
  String.eqb (logFileName l) EmptyString = false ->
  buf (logCh l) = ds ++ [d] ->
  Writer.writeLogTurns ties fl os (length ds) (l, data)
  = Returns (setLogCh l (Chan [d] (cap (logCh l)) (closed (logCh l))),
             data +:+ Str.concat ds, mirror fl ds).
Proof.
  induction ds as [|x ds IH]; intros l data d Hfile Hbuf.
  - cbn [length Writer.writeLogTurns Str.concat fold_right]. rewrite append_nil_r.
    replace (mirror fl []) with (@nil event) by (unfold mirror; by destruct (alsoLogToStdoutFlag fl)).
    destruct l as [? ? ? ? ? [b c cl] ?]; simpl in *. by subst.
  - cbn [length Writer.writeLogTurns].
    assert (Hq : exists d' rest, ds ++ [d] = d' :: rest) by (destruct ds; simpl; eauto).
    destruct Hq as (d' & rest & Hq).
    rewrite (writeLogTurn_more fl os l data x d' rest Hfile) by (by rewrite Hbuf, <- Hq).
    rewrite bind_Returns, <- Hq, (IH _ _ d); [|done|done].
    rewrite bind_Returns. cbn [logCh setLogCh cap closed logFileName].
    change (x :: ds) with ([x] ++ ds). rewrite mirror_app.
    unfold Str.concat. cbn [app fold_right]. by rewrite append_assoc.
Qed.

Lemma redirectToNewFile_keeps fl os l :
  logCh (fst (redirectToNewFile fl os l)) = logCh l
  /\ wgDone (fst (redirectToNewFile fl os l)) = wgDone l
  /\ logDir (fst (redirectToNewFile fl os l)) = logDir l.
Proof.
  unfold redirectToNewFile.
  by destruct (negb (redirect_stdout_stderr_to os _ =? 0)).
Qed.

Lemma checkRotate_keeps_logCh fl os l n l' ev :
  checkRotate ties fl os l n = Returns (l', ev) ->
  logCh l' = logCh l /\ wgDone l' = wgDone l.
Proof.
  unfold checkRotate, div64.
  destruct (10 =? 0); [done|]. rewrite bind_Returns.
  destruct (int64 (Z.quot (maxLogFileSizeFlag fl) 10) =? 0); [done|].
  rewrite !bind_Returns.
  destruct (negb _); [|by intros [= <- _]].
  destruct (StatSize os _); [|by intros [= <- _]].
  destruct (_ >=? _); [|by intros [= <- _]].
  destruct (redirectToNewFile_keeps fl os (setBytesWritten l (int64 (bytesWritten l + n))))
    as (Hch & Hwg & _).
  destruct (redirectToNewFile fl os _) as [l4 ev4]. by intros [= <- _].
Qed.

(** The turn that takes the last chunk queued writes the whole buffer. *)
Lemma writeLogTurn_last fl os l data d l' data' ev :
  String.eqb (logFileName l) EmptyString = false ->
  buf (logCh l) = [d] ->
  writeLogTurn ties fl os (l, data) = Returns (l', data', ev) ->
  data' = EmptyString /\ buf (logCh l') = []
  /\ exists rest, ev = mirror fl [d] ++ EvWriteLog (data +:+ d) :: rest.
Proof.
  intros Hfile Hbuf. unfold writeLogTurn, recv. rewrite Hbuf, bind_Returns.
  cbn [logFileName setLogCh logCh]. rewrite Hfile. unfold Go.len. cbn [buf length Nat.ltb Nat.leb].
  unfold writeToCStdout.
  assert (Hm : (if alsoLogToStdoutFlag fl then [EvStdout d] else []) = mirror fl [d])
    by (unfold mirror; by destruct (alsoLogToStdoutFlag fl)).
  rewrite Hm.
  destruct (negb (write_to_log os (data +:+ d) =? Str.len (data +:+ d))).
  - intros [= <- <- <-]. cbn [logCh buf]. repeat split; eauto.
  - destruct (checkRotate _ _ _ _ _) as [[l2 ev3]| |] eqn:Hcr; [|done|done].
    rewrite bind_Returns. intros [= <- <- <-]. split; [done|]. split; [|eauto].
    by rewrite (proj1 (checkRotate_keeps_logCh _ _ _ _ _ _ Hcr)).
Qed.

End WriterTurns.

(** X8: chunks handed to [Write] while the queue has room reach the log
    in order and unchanged.  From an empty queue, after [Write] of each
    chunk the writer's turns over all but the last only collect them (and
    copy each to the original standard output when that is asked for);
    the turn that takes the last one makes one [C.write_to_log] call with
    the chunks joined in the order written, and nothing is written to the
    log before that call. *)
Theorem Write_then_writeLog_keeps_order ties fl os l ds d :
  closed (logCh l) = false ->
  buf (logCh l) = [] ->
  (length (ds ++ [d]) <= cap (logCh l))%nat ->
  logFileName l <> EmptyString ->
  exists l1 l2,
    Writer.WriteAll l (ds ++ [d]) = Returns l1
    /\ buf (logCh l1) = ds ++ [d]
    /\ Writer.writeLogTurns ties fl os (length ds) (l1, EmptyString)
       = Returns (l2, Str.concat ds, mirror fl ds)
    /\ buf (logCh l2) = [d]
    /\ (forall l3 data ev,
          writeLogTurn ties fl os (l2, Str.concat ds) = Returns (l3, data, ev) ->
          data = EmptyString /\ buf (logCh l3) = []
          /\ exists rest, ev = mirror fl [d] ++ EvWriteLog (Str.concat (ds ++ [d])) :: rest).
Proof.
  intros Hopen Hempty Hroom Hfile. apply String.eqb_neq in Hfile.
  eexists _, _. split.
  { rewrite WriteAll_room; [reflexivity | done | by rewrite Hempty]. }
  rewrite Hempty. cbn [app logCh setLogCh buf]. split; [done|]. split.
  { rewrite (writeLogTurns_queue ties fl os ds _ EmptyString d); done. }
  cbn [logCh setLogCh buf cap closed]. split; [done|].
  intros l3 data ev Hturn. rewrite concat_snoc.
  eapply (writeLogTurn_last ties fl os _ (Str.concat ds) d); [| |exact Hturn].
  - exact Hfile.
  - reflexivity.
Qed.

Lemma Write_then_writeLog_keeps_order_witness :
  exists l1 l2,
    Writer.WriteAll (Sample.redirector Sample.firstLog 4 []) (["a"; "b"] ++ ["c"]) = Returns l1
    /\ Writer.writeLogTurns Sample.asListed defaultFlags Sample.fullLog 2 (l1, EmptyString)
       = Returns (l2, "ab", [])
    /\ writeLogTurn Sample.asListed defaultFlags Sample.fullLog (l2, "ab")
       = Returns (setBytesWritten (setLogCh l2 (Chan [] 4 false)) 3, EmptyString,
                  [EvWriteLog "abc"]).
Proof.
  destruct (Write_then_writeLog_keeps_order Sample.asListed defaultFlags Sample.fullLog
              (Sample.redirector Sample.firstLog 4 []) ["a"; "b"] "c")
    as (l1 & l2 & Hw & _ & Ht & _); try reflexivity.
  - simpl. lia.
  - discriminate.
  - exists l1, l2. split; [exact Hw|]. split; [exact Ht|].
    vm_compute in Hw. injection Hw as <-. vm_compute in Ht. injection Ht as <-.
    vm_compute. reflexivity.
Defined.

(** ** The writer without a log file, with a zero block, and at [Close] *)

Section WriterEdges.

Variable ties : list FileInfo -> list FileInfo.

Lemma writeLogTurn_no_file fl os l data l' data' ev :
  logFileName l = EmptyString ->
  writeLogTurn ties fl os (l, data) = Returns (l', data', ev) ->
  logFileName l' = EmptyString /\ data' = data /\ bytesWritten l' = bytesWritten l
  /\ forallb isStdout ev = true.
Proof.
  intros Hfile. unfold writeLogTurn, recv.
  destruct (buf (logCh l)) as [|d rest].
  - destruct (closed (logCh l)); [|done]. rewrite bind_Returns. by intros [= <- <- <-].
  - rewrite bind_Returns. cbn [logFileName setLogCh]. rewrite Hfile. cbn [String.eqb].
    intros [= <- <- <-]. repeat split; try done. by destruct (alsoLogToStdoutFlag fl).
Qed.

Lemma writeLogTurns_no_file fl os k : forall l data l' data' ev,
  logFileName l = EmptyString ->
  Writer.writeLogTurns ties fl os k (l, data) = Returns (l', data', ev) ->
  logFileName l' = EmptyString /\ data' = data /\ bytesWritten l' = bytesWritten l
  /\ forallb isStdout ev = true.
Proof.
  induction k as [|k IH]; intros l data l' data' ev Hfile; cbn [Writer.writeLogTurns].
  - by intros [= <- <- <-].
  - destruct (writeLogTurn ties fl os (l, data)) as [[[l1 d1] ev1]| |] eqn:Hturn;
      [|done|done].
    rewrite bind_Returns.
    destruct (Writer.writeLogTurns ties fl os k (l1, d1)) as [[[l2 d2] ev2]| |] eqn:Hrest;
      [|done|done].
    rewrite bind_Returns. intros [= <- <- <-].
    destruct (writeLogTurn_no_file fl os l data l1 d1 ev1 Hfile Hturn) as (Hf1 & -> & Hb1 & He1).
    destruct (IH l1 data l2 d2 ev2 Hf1 Hrest) as (Hf2 & -> & Hb2 & He2).
    rewrite forallb_app, He1, He2. repeat split; try done. congruence.
Qed.

Lemma checkRotate_returns fl os l n :
  int64 (Z.quot (maxLogFileSizeFlag fl) 10) <> 0 ->
  exists r, checkRotate ties fl os l n = Returns r.
Proof.
  intros Hblock. unfold checkRotate, div64.
  destruct (Z.eqb_spec 10 0); [done|]. rewrite bind_Returns.
  destruct (Z.eqb_spec (int64 (Z.quot (maxLogFileSizeFlag fl) 10)) 0); [done|].
  rewrite !bind_Returns.
  destruct (negb _); [|eauto].
  destruct (StatSize os _); [|eauto].
  destruct (_ >=? _); [|eauto].
  destruct (redirectToNewFile fl os _). eauto.
Qed.

Lemma checkRotate_zero_block fl os l n :
  - 10 < maxLogFileSizeFlag fl < 10 ->
  checkRotate ties fl os l n = Panics.
Proof.
  intros Hmax. unfold checkRotate, div64.
  destruct (Z.eqb_spec 10 0); [done|]. rewrite bind_Returns.
  assert (Hq : Z.quot (maxLogFileSizeFlag fl) 10 = 0) by (apply Z.quot_small_iff; lia).
  rewrite Hq. reflexivity.
Qed.

Lemma writeLogRun_step fl os k st :
  wgDone (fst st) = false ->
  writeLogRun ties fl os (S k) st
  = ('(l, data, ev) ← writeLogTurn ties fl os st;
     '(l', ev') ← writeLogRun ties fl os k (l, data);
     Returns (l', ev ++ ev')).
Proof. intros Hrun. cbn [writeLogRun]. by rewrite Hrun. Qed.

Lemma writeLogRun_queue fl os m ds : forall l data d,
  String.eqb (logFileName l) EmptyString = false ->
  wgDone l = false ->
  buf (logCh l) = ds ++ [d] ->
  writeLogRun ties fl os (length ds + m) (l, data)
  = ('(l', ev') ← writeLogRun ties fl os m
                    (setLogCh l (Chan [d] (cap (logCh l)) (closed (logCh l))),
                     data +:+ Str.concat ds);
     Returns (l', mirror fl ds ++ ev')).
Proof.
  induction ds as [|x ds IH]; intros l data d Hfile Hrun Hbuf.
  - cbn [length Nat.add Str.concat fold_right]. rewrite append_nil_r.
    replace (mirror fl []) with (@nil event) by (unfold mirror; by destruct (alsoLogToStdoutFlag fl)).
    replace (setLogCh l (Chan [d] (cap (logCh l)) (closed (logCh l)))) with l
      by (destruct l as [? ? ? ? ? [b c cl] ?]; simpl in *; by subst).
    destruct (writeLogRun _ _ _ _ _) as [[l' ev']| |]; done.
  - cbn [length Nat.add]. rewrite writeLogRun_step by done.
    assert (Hq : exists d' rest, ds ++ [d] = d' :: rest) by (destruct ds; simpl; eauto).
    destruct Hq as (d' & rest & Hq).
    rewrite (writeLogTurn_more ties fl os l data x d' rest Hfile)
      by (by rewrite Hbuf, <- Hq).
    rewrite bind_Returns, <- Hq, (IH _ _ d); [|done|done|done].
    cbn [logCh setLogCh cap closed].
    replace (data +:+ Str.concat (x :: ds)) with ((data +:+ x) +:+ Str.concat ds)
      by (unfold Str.concat; cbn [fold_right]; by rewrite append_assoc).
    destruct (writeLogRun _ _ _ _ _) as [[l' ev']| |]; [|done|done].
    rewrite !bind_Returns. change (x :: ds) with ([x] ++ ds).
    by rewrite mirror_app, <- app_assoc.
Qed.

End WriterEdges.

(** X9: when the first redirection fails, [NewLogRedirector] still
    returns a redirector, whose active file name is empty; its writer then
    never writes to a log nor tries again: whatever is queued, every turn
    only copies the chunk to the original standard output when that is
    asked for, and the name stays empty. *)
Theorem writer_without_file_discards ties fl os dir :
  redirect_stdout_stderr_to os
    (Join dir (NowFileTime os +:+ "_" +:+ NowFileTime os +:+ "_1.log")) <> 0 ->
  exists l ev,
    Writer.NewLogRedirector fl os (Ok tt) dir = Ok (l, ev)
    /\ logFileName l = EmptyString
    /\ numLogFiles l = 1
    /\ (forall k queue data l' data' ev',
          Writer.writeLogTurns ties fl os k (setLogCh l queue, data)
          = Returns (l', data', ev') ->
          logFileName l' = EmptyString /\ data' = data /\ bytesWritten l' = 0
          /\ forallb isStdout ev' = true).
Proof.
  intros Hfail. apply Z.eqb_neq in Hfail.
  unfold Writer.NewLogRedirector, redirectToNewFile.
  cbn [numLogFiles logFileName logDir startTimeStr bytesWritten logCh wgDone].
  change (itoa (int64 (0 + 1))) with "1".
  change ("1" +:+ ".log") with "1.log". change ("_" +:+ "1.log") with "_1.log".
  rewrite Hfail. cbn [negb]. eexists _, _. split; [reflexivity|].
  split; [done|]. split; [done|].
  intros k queue data l' data' ev' Hturns.
  apply (writeLogTurns_no_file ties fl os k) in Hturns; [|done].
  destruct Hturns as (? & ? & ? & ?). done.
Qed.

Lemma writer_without_file_discards_witness :
  exists l ev,
    Writer.NewLogRedirector defaultFlags Sample.readOnly (Ok tt) "logs" = Ok (l, ev)
    /\ logFileName l = EmptyString
    /\ Writer.writeLogTurns Sample.asListed defaultFlags Sample.readOnly 2
         (setLogCh l (Chan ["a"; "b"] 4 false), EmptyString)
       = Returns (setLogCh l (Chan [] 4 false), EmptyString, []).
Proof.
  destruct (writer_without_file_discards Sample.asListed defaultFlags Sample.readOnly "logs")
    as (l & ev & Hnew & Hfile & _).
  - discriminate.
  - exists l, ev. split; [exact Hnew|]. split; [exact Hfile|].
    vm_compute in Hnew. injection Hnew as <- _. vm_compute. reflexivity.
Defined.

(** X10: with [max-log-file-size] between -9 and 9 the checkpoint block
    is zero, so the first complete write to an open log file makes
    [writeLog] panic on the division; [Close] of such a redirector with a
    chunk queued panics with it. *)
Theorem writeLog_panics_on_zero_block ties fl os l data d :
  - 10 < maxLogFileSizeFlag fl < 10 ->
  logFileName l <> EmptyString ->
  buf (logCh l) = [d] ->
  write_to_log os (data +:+ d) = Str.len (data +:+ d) ->
  writeLogTurn ties fl os (l, data) = Panics
  /\ (closed (logCh l) = false -> wgDone l = false ->
      LogRedirector_Close ties fl os l data = Panics).
Proof.
  intros Hmax Hfile Hbuf Hwrite. apply String.eqb_neq in Hfile.
  assert (Hturn : forall cl,
            writeLogTurn ties fl os (setLogCh l (Chan [d] (cap (logCh l)) cl), data)
            = Panics).
  { intros cl. unfold writeLogTurn, recv. cbn [logCh setLogCh buf].
    rewrite bind_Returns. cbn [logFileName setLogCh logCh]. rewrite Hfile.
    unfold Go.len. cbn [buf length Nat.ltb Nat.leb]. unfold writeToCStdout.
    rewrite Hwrite, Z.eqb_refl. cbn [negb].
    by rewrite checkRotate_zero_block. }
  split.
  - rewrite <- (Hturn (closed (logCh l))). f_equal. f_equal.
    destruct l as [? ? ? ? ? [b c cl] ?]; simpl in *. by subst.
  - intros Hopen Hrun. unfold LogRedirector_Close, close. rewrite Hopen, bind_Returns.
    unfold Go.len. cbn [buf]. rewrite Hbuf. cbn [length].
    rewrite writeLogRun_step by done. by rewrite Hturn.
Qed.

Lemma writeLog_panics_on_zero_block_witness :
  writeLogTurn Sample.asListed
    {| maxLogFileSizeFlag := 9; maxLogDirSizeFlag := 50;
       alsoLogToStdoutFlag := false; logChanSizeFlag := 4 |}
    Sample.fullLog (Sample.redirector Sample.firstLog 4 ["x"], EmptyString) = Panics.
Proof.
  refine (proj1 (writeLog_panics_on_zero_block Sample.asListed _ Sample.fullLog
                   (Sample.redirector Sample.firstLog 4 ["x"]) EmptyString "x" _ _ _ _)).
  - simpl. lia.
  - discriminate.
  - reflexivity.
  - reflexivity.
Defined.

(** X11: [Close] of a redirector with an open log file flushes its queue:
    the writer, when it runs next, takes every chunk queued, copies each to the original
    standard output when that is asked for, hands the buffer and all the
    chunks to [C.write_to_log] in one call and in order, and returns
    with the queue empty; the block is not zero here. *)
Theorem LogRedirector_Close_flushes ties fl os l data ds d :
  closed (logCh l) = false ->
  wgDone l = false ->
  logFileName l <> EmptyString ->
  buf (logCh l) = ds ++ [d] ->
  int64 (Z.quot (maxLogFileSizeFlag fl) 10) <> 0 ->
  exists l' rest,
    LogRedirector_Close ties fl os l data
    = Returns (l', mirror fl (ds ++ [d])
                   ++ EvWriteLog (data +:+ Str.concat (ds ++ [d])) :: rest)
    /\ buf (logCh l') = [] /\ closed (logCh l') = true /\ wgDone l' = true.
Proof.
  intros Hopen Hrun Hfile Hbuf Hblock. apply String.eqb_neq in Hfile.
  unfold LogRedirector_Close, close. rewrite Hopen, bind_Returns.
  unfold Go.len. cbn [buf]. rewrite Hbuf, length_app. cbn [length].
  replace (S (length ds + 1)) with (length ds + 2)%nat by lia.
  rewrite (writeLogRun_queue ties fl os 2 ds _ data d); [|done|done|by rewrite <- Hbuf].
  cbn [logCh setLogCh cap closed].
  set (l1 := setLogCh _ _).
  rewrite writeLogRun_step by done.
  assert (Hlast : exists l2 rest,
            writeLogTurn ties fl os (l1, data +:+ Str.concat ds)
            = Returns (l2, EmptyString,
                       mirror fl [d] ++ EvWriteLog ((data +:+ Str.concat ds) +:+ d) :: rest)
            /\ logCh l2 = Chan [] (cap (logCh l)) true /\ wgDone l2 = false).
  { unfold writeLogTurn, recv. subst l1. cbn [logCh setLogCh buf cap closed].
    rewrite bind_Returns. cbn [logFileName setLogCh logCh]. rewrite Hfile.
    unfold Go.len. cbn [buf length Nat.ltb Nat.leb]. unfold writeToCStdout.
    assert (Hm : (if alsoLogToStdoutFlag fl then [EvStdout d] else []) = mirror fl [d])
      by (unfold mirror; by destruct (alsoLogToStdoutFlag fl)).
    rewrite Hm.
    destruct (negb (_ =? _)).
    - eexists _, _. split; [reflexivity|]. done.
    - match goal with
      | |- context [checkRotate ?s ?f ?o ?x ?n] =>
          destruct (checkRotate_returns s f o x n Hblock) as [[l2 ev3] Hcr]
      end.
      rewrite Hcr, bind_Returns.
      destruct (checkRotate_keeps_logCh ties _ _ _ _ _ _ Hcr) as [Hch Hwg].
      eexists _, _. split; [reflexivity|]. by rewrite Hch, Hwg. }
  destruct Hlast as (l2 & rest & -> & Hch2 & Hwg2). rewrite bind_Returns.
  rewrite writeLogRun_step by done.
  unfold writeLogTurn at 1. unfold recv. rewrite Hch2. cbn [buf closed].
  rewrite !bind_Returns. cbn [writeLogRun fst wgDone setWgDone setLogCh]. rewrite !bind_Returns.
  eexists _, _. split.
  - rewrite mirror_app, concat_snoc, <- !app_assoc, app_nil_r, append_assoc. reflexivity.
  - done.
Qed.

Lemma LogRedirector_Close_flushes_witness :
  exists l',
    LogRedirector_Close Sample.asListed defaultFlags Sample.fullLog
      (Sample.redirector Sample.firstLog 4 (["a"; "b"] ++ ["c"])) "z"
    = Returns (l', [EvWriteLog "zabc"])
    /\ buf (logCh l') = [].
Proof.
  destruct (LogRedirector_Close_flushes Sample.asListed defaultFlags Sample.fullLog
              (Sample.redirector Sample.firstLog 4 (["a"; "b"] ++ ["c"])) "z" ["a"; "b"] "c")
    as (l' & rest & Hclose & Hbuf & _); try reflexivity.
  - discriminate.
  - discriminate.
  - exists l'. split; [|exact Hbuf].
    rewrite Hclose. vm_compute in Hclose. injection Hclose as _ <-. reflexivity.
Defined.

(** ** The writer after a failed write and after [Close] *)

Section WriterAfter.

Variable ties : list FileInfo -> list FileInfo.

Lemma writeLogTurn_keeps_closed fl os l data l' data' ev :
  writeLogTurn ties fl os (l, data) = Returns (l', data', ev) ->
  closed (logCh l') = closed (logCh l).
Proof.
  unfold writeLogTurn, recv.
  destruct (buf (logCh l)) as [|d rest].
  - destruct (closed (logCh l)) eqn:Hcl; [|done]. rewrite bind_Returns.
    intros [= <- _ _]. by destruct l as [? ? ? ? ? [b c cl] ?].
  - rewrite bind_Returns. cbn [logFileName setLogCh logCh].
    destruct (String.eqb _ _); [by intros [= <- _ _]|].
    destruct (_ <? _)%nat; [by intros [= <- _ _]|].
    unfold writeToCStdout. destruct (negb _); [by intros [= <- _ _]|].
    destruct (checkRotate _ _ _ _ _) as [[l2 ev3]| |] eqn:Hcr; [|done|done].
    rewrite bind_Returns. intros [= <- _ _].
    by rewrite (proj1 (checkRotate_keeps_logCh _ _ _ _ _ _ _ Hcr)).
Qed.

Lemma writeLogRun_keeps_closed fl os k : forall st l' ev,
  writeLogRun ties fl os k st = Returns (l', ev) ->
  closed (logCh l') = closed (logCh (fst st)).
Proof.
  induction k as [|k IH]; intros [l data] l' ev; cbn [writeLogRun fst];
    (destruct (wgDone l); [by intros [= <- _]|]); [done|].
  destruct (writeLogTurn ties fl os (l, data)) as [[[l1 d1] ev1]| |] eqn:Hturn;
    [|done|done].
  rewrite bind_Returns.
  destruct (writeLogRun ties fl os k (l1, d1)) as [[l2 ev2]| |] eqn:Hrun; [|done|done].
  rewrite bind_Returns. intros [= <- _].
  rewrite (IH _ _ _ Hrun). cbn [fst]. by eapply writeLogTurn_keeps_closed.
Qed.

End WriterAfter.

(** X12: a write that [C.write_to_log] does not take whole is not tried
    again.  The turn reports on the original standard error, empties the
    writer's buffer and leaves the byte count and the active file as they
    were; no size check is made, whatever [max-log-file-size] is. *)
Theorem failed_write_is_dropped ties fl os l data d :
  logFileName l <> EmptyString ->
  buf (logCh l) = [d] ->
  write_to_log os (data +:+ d) <> Str.len (data +:+ d) ->
  exists l' msg,
    writeLogTurn ties fl os (l, data)
    = Returns (l', EmptyString, mirror fl [d] ++ [EvWriteLog (data +:+ d); EvStderr msg])
    /\ buf (logCh l') = []
    /\ bytesWritten l' = bytesWritten l
    /\ logFileName l' = logFileName l
    /\ numLogFiles l' = numLogFiles l.
Proof.
  intros Hfile Hbuf Hshort. apply String.eqb_neq in Hfile. apply Z.eqb_neq in Hshort.
  unfold writeLogTurn, recv. rewrite Hbuf, bind_Returns.
  cbn [logFileName setLogCh logCh]. rewrite Hfile.
  unfold Go.len. cbn [buf length Nat.ltb Nat.leb]. unfold writeToCStdout.
  rewrite Hshort. cbn [negb].
  assert (Hm : (if alsoLogToStdoutFlag fl then [EvStdout d] else []) = mirror fl [d])
    by (unfold mirror; by destruct (alsoLogToStdoutFlag fl)).
  rewrite Hm. eexists _, _. split; [reflexivity | done].
Qed.

Lemma failed_write_is_dropped_witness :
  exists l' msg,
    writeLogTurn Sample.asListed defaultFlags Sample.diskFull
      (Sample.redirector Sample.firstLog 4 ["x"], "ab")
    = Returns (l', EmptyString, [EvWriteLog "abx"; EvStderr msg])
    /\ bytesWritten l' = 0.
Proof.
  destruct (failed_write_is_dropped Sample.asListed defaultFlags Sample.diskFull
              (Sample.redirector Sample.firstLog 4 ["x"]) "ab" "x")
    as (l' & msg & Hturn & _ & Hbytes & _).
  - discriminate.
  - reflexivity.
  - discriminate.
  - exists l', msg. split; [exact Hturn | exact Hbytes].
Defined.

(** X13: a redirector is closed once.  When its [Close] has returned the
    channel is closed, so [Write] on it panics and so does a second
    [Close].  The package function [CloseRedirector] forgets the
    redirector instead, and calling it again does nothing. *)
Theorem redirector_is_closed_once ties fl os l data l' ev :
  LogRedirector_Close ties fl os l data = Returns (l', ev) ->
  (forall p, Write l' p = Panics)
  /\ (forall fl' os' data', LogRedirector_Close ties fl' os' l' data' = Panics)
  /\ CloseRedirector ties fl os (Some l) data = Returns (None, ev)
  /\ (forall fl' os' data',
        CloseRedirector ties fl' os' None data' = Returns (None, [])).
Proof.
  intros Hclose.
  assert (Hclosed : closed (logCh l') = true).
  { unfold LogRedirector_Close, close in Hclose.
    destruct (closed (logCh l)); [done|]. rewrite bind_Returns in Hclose.
    by apply writeLogRun_keeps_closed in Hclose. }
  split; [|split; [|split]].
  - intros p. unfold Write, select_send. by rewrite Hclosed.
  - intros fl' os' data'. unfold LogRedirector_Close, close. by rewrite Hclosed.
  - unfold CloseRedirector. by rewrite Hclose.
  - done.
Qed.

Lemma redirector_is_closed_once_witness :
  exists l',
    LogRedirector_Close Sample.asListed defaultFlags Sample.fullLog
      (Sample.redirector Sample.firstLog 4 ["a"]) EmptyString
    = Returns (l', [EvWriteLog "a"])
    /\ Write l' "b" = Panics.
Proof.
  eexists. split; [vm_compute; reflexivity|].
  refine (proj1 (redirector_is_closed_once Sample.asListed defaultFlags Sample.fullLog
                   (Sample.redirector Sample.firstLog 4 ["a"]) EmptyString _
                   [EvWriteLog "a"] _) "b").
  vm_compute. reflexivity.
Defined.

(** ** Retrieval: where the lines come from, their order and their size *)

Lemma len_nonneg s : 0 <= Str.len s.
Proof. unfold Str.len. lia. Qed.

Lemma totalLen_cons x xs : totalLen (x :: xs) = Str.len x + totalLen xs.
Proof. reflexivity. Qed.

Lemma totalLen_app xs ys : totalLen (xs ++ ys) = totalLen xs + totalLen ys.
Proof.
  induction xs as [|x xs IH]; [done|].
  cbn [app]. rewrite !totalLen_cons, IH. lia.
Qed.

Lemma totalLen_nonneg xs : 0 <= totalLen xs.
Proof.
  induction xs as [|x xs IH]; [done|].
  rewrite totalLen_cons. pose proof (len_nonneg x). lia.
Qed.

Lemma totalLen_take_drop n i xs : totalLen (take n (drop i xs)) <= totalLen xs.
Proof.
  rewrite <- (take_drop i xs) at 2. rewrite <- (take_drop n (drop i xs)) at 2.
  rewrite !totalLen_app.
  pose proof (totalLen_nonneg (take i xs)). pose proof (totalLen_nonneg (drop n (drop i xs))).
  lia.
Qed.

Lemma totalLen_take_S lines a n x :
  lines !! (a + n)%nat = Some x ->
  totalLen (take (S n) (drop a lines)) = totalLen (take n (drop a lines)) + Str.len x.
Proof.
  intros Hx. rewrite (take_S_r _ _ x) by (by rewrite lookup_drop).
  rewrite totalLen_app, totalLen_cons. change (totalLen []) with 0. lia.
Qed.

Lemma totalLen_tail xs : totalLen (tail xs) <= totalLen xs.
Proof.
  destruct xs as [|x xs]; [done|]. cbn [tail]. rewrite totalLen_cons.
  pose proof (len_nonneg x). lia.
Qed.

Lemma totalLen_removelast xs : totalLen (removelast xs) <= totalLen xs.
Proof.
  induction xs as [|x xs IH]; [done|].
  destruct xs as [|y ys]; [cbn; pose proof (len_nonneg x); unfold totalLen; cbn; lia|].
  change (removelast (x :: y :: ys)) with (x :: removelast (y :: ys)).
  rewrite !(totalLen_cons x). lia.
Qed.

(** The backward loop of [logLinesBefore] returns all the lines, or
    stops with the budget used up at some line. *)
Lemma budgetFromEnd_cases lines : forall k nb,
  fst (budgetFromEnd lines k nb) = lines
  \/ (snd (budgetFromEnd lines k nb) <= 0
      /\ exists i, fst (budgetFromEnd lines k nb) = drop i lines).
Proof.
  induction k as [|i IH]; intros nb; cbn [budgetFromEnd]; [by left|].
  destruct (Z.leb_spec (int64 (nb - Str.len (default EmptyString (lines !! i)))) 0).
  - right. cbn [fst snd]. eauto.
  - apply IH.
Qed.

Lemma budgetFromEnd_budget lines : forall k nb,
  Forall (fun x => Str.len x < 2 ^ 63) lines ->
  (k <= length lines)%nat -> 0 < nb < 2 ^ 63 ->
  exists i, (i <= k)%nat
    /\ fst (budgetFromEnd lines k nb) = drop i lines
    /\ snd (budgetFromEnd lines k nb) = nb - totalLen (take (k - i) (drop i lines))
    /\ (0 < snd (budgetFromEnd lines k nb) /\ i = 0%nat
        \/ snd (budgetFromEnd lines k nb) <= 0 /\ (i < k)%nat
           /\ 0 < nb - totalLen (take (k - S i) (drop (S i) lines))).
Proof.
  intros k nb Hfit. revert nb.
  induction k as [|j IH]; intros nb Hk Hnb; cbn [budgetFromEnd].
  - exists 0%nat. cbn [fst snd]. rewrite drop_0. change (0 - 0)%nat with 0%nat.
    rewrite take_0. change (totalLen []) with 0.
    split; [lia|]. split; [done|]. split; [lia|]. left. lia.
  - destruct (lookup_lt_is_Some_2 lines j) as [x Hx]; [lia|].
    rewrite Hx. change (default EmptyString (Some x)) with x.
    assert (Hlen : 0 <= Str.len x < 2 ^ 63).
    { split; [apply len_nonneg|]. by apply (Forall_lookup_1 _ _ _ _ Hfit Hx). }
    rewrite int64_small by lia.
    destruct (Z.leb_spec (nb - Str.len x) 0) as [Hstop|Hgo].
    + exists j. cbn [fst snd]. replace (S j - j)%nat with 1%nat by lia.
      rewrite Nat.sub_diag, (drop_S _ _ _ Hx). cbn [take]. rewrite !take_0, totalLen_cons.
      change (totalLen []) with 0.
      split; [lia|]. split; [done|]. split; [lia|]. right. lia.
    + destruct (IH (nb - Str.len x)) as (i & Hi & Hfst & Hsnd & Hcase); [lia|lia|].
      exists i. split; [lia|]. split; [done|]. split.
      * rewrite Hsnd. replace (S j - i)%nat with (S (j - i)) by lia.
        rewrite (totalLen_take_S _ _ _ x) by (by replace (i + (j - i))%nat with j by lia). lia.
      * destruct Hcase as [[Hpos ->]|(Hneg & Hij & Hprev)]; [by left|]. right.
        split; [done|]. split; [lia|].
        replace (S j - S i)%nat with (S (j - S i)) by lia.
        rewrite (totalLen_take_S _ _ _ x)
          by (by replace (S i + (j - S i))%nat with j by lia). lia.
Qed.

Lemma scanBefore_Forall (P : string -> Prop) loc T ls :
  Forall (fun raw => P (cleanLine raw)) ls -> Forall P (scanBefore loc T ls).
Proof.
  induction 1 as [|raw rest Hraw Hrest IH]; cbn [scanBefore]; [constructor|].
  destruct (_ && _); by constructor.
Qed.

Lemma scanAfter_Forall (P : string -> Prop) loc T ls : forall b nb,
  Forall (fun raw => P (cleanLine raw)) ls -> Forall P (fst (scanAfter loc T b ls nb)).
Proof.
  induction ls as [|raw rest IH]; intros b nb Hall; cbn [scanAfter]; [constructor|].
  inversion Hall as [|? ? Hraw Hrest]; subst.
  destruct (_ && _); [by apply IH|].
  destruct (_ <=? 0); [by repeat constructor|].
  specialize (IH false (int64 (nb - Str.len (cleanLine raw))) Hrest).
  destruct (scanAfter _ _ _ _ _) as [lines nb']. by constructor.
Qed.

Lemma budgetFromEnd_Forall (P : string -> Prop) lines k nb :
  Forall P lines -> Forall P (fst (budgetFromEnd lines k nb)).
Proof.
  intros Hall. destruct (budgetFromEnd_cases lines k nb) as [-> | (_ & i & ->)]; [done|].
  by apply Forall_drop.
Qed.

(** What one call of [logLinesBefore] does to the budget. *)
Lemma logLinesBefore_budget os l fi T nb :
  linesFit os -> 0 < nb < 2 ^ 63 ->
  snd (logLinesBefore os l fi T nb) = nb - totalLen (fst (logLinesBefore os l fi T nb))
  /\ totalLen (tail (fst (logLinesBefore os l fi T nb))) < nb.
Proof.
  intros Hfit Hnb. unfold logLinesBefore.
  destruct (ScanLines os _) as [ls|] eqn:Hscan.
  2:{ cbn [fst snd tail]. change (totalLen []) with 0. lia. }
  set (lines := scanBefore (Local os) T ls).
  destruct (budgetFromEnd_budget lines (length lines) nb) as (i & Hi & Hfst & Hsnd & Hcase);
    [by apply scanBefore_Forall, (Hfit _ _ Hscan) | done | done |].
  rewrite Hfst, Hsnd.
  rewrite take_ge by (rewrite length_drop; lia). split; [done|].
  destruct Hcase as [[Hpos ->]|(Hneg & Hlt & Hprev)].
  - rewrite Hsnd in Hpos. rewrite take_ge in Hpos by (rewrite length_drop; lia).
    rewrite drop_0 in *. pose proof (totalLen_tail lines). lia.
  - destruct (lookup_lt_is_Some_2 lines i Hlt) as [x Hx].
    rewrite (drop_S _ _ _ Hx). cbn [tail].
    rewrite take_ge in Hprev by (rewrite length_drop; lia). lia.
Qed.

Lemma loopRecent_loopBefore os l files : forall acc nb,
  loopRecent os l files acc nb = loopBefore os l files 0 acc nb.
Proof.
  induction files as [|fi rest IH]; intros acc nb; [done|].
  cbn [loopRecent loopBefore]. destruct (logLinesBefore _ _ _ _ _) as [ls nb'].
  destruct (nb' <=? 0); [done | apply IH].
Qed.

Lemma loopBefore_budget os l files : forall T acc nb,
  linesFit os -> 0 < nb < 2 ^ 63 ->
  exists new, loopBefore os l files T acc nb = new ++ acc /\ totalLen (tail new) < nb.
Proof.
  induction files as [|fi rest IH]; intros T acc nb Hfit Hnb; cbn [loopBefore].
  - exists []. split; [done|]. change (totalLen (tail [])) with 0. lia.
  - destruct (logLinesBefore_budget os l fi T nb Hfit Hnb) as [Hsnd Htail].
    destruct (logLinesBefore os l fi T nb) as [ls nb']. cbn [fst snd] in *.
    destruct (Z.leb_spec nb' 0) as [Hstop|Hgo]; [by exists ls|].
    pose proof (totalLen_nonneg ls).
    destruct (IH 0 (ls ++ acc) nb' Hfit) as (new & -> & Hnew); [lia|].
    exists (new ++ ls). split; [by rewrite app_assoc|].
    destruct new as [|x new]; [cbn [app]; lia|].
    cbn [app tail] in *. rewrite totalLen_app. lia.
Qed.

Lemma scanAfter_budget loc T ls : forall b nb,
  Forall (fun raw => Str.len (cleanLine raw) < 2 ^ 63) ls -> 0 < nb < 2 ^ 63 ->
  snd (scanAfter loc T b ls nb) = nb - totalLen (fst (scanAfter loc T b ls nb))
  /\ totalLen (removelast (fst (scanAfter loc T b ls nb))) < nb.
Proof.
  induction ls as [|raw rest IH]; intros b nb Hfit Hnb; cbn [scanAfter].
  - cbn [fst snd removelast]. change (totalLen []) with 0. lia.
  - inversion Hfit as [|? ? Hraw Hrest]; subst.
    destruct (_ && _); [by apply IH|].
    pose proof (len_nonneg (cleanLine raw)).
    rewrite int64_small by lia.
    destruct (Z.leb_spec (nb - Str.len (cleanLine raw)) 0) as [Hstop|Hgo].
    + cbn [fst snd removelast]. rewrite totalLen_cons. change (totalLen []) with 0. lia.
    + destruct (IH false (nb - Str.len (cleanLine raw)) Hrest) as [Hsnd Hlast]; [lia|].
      destruct (scanAfter loc T false rest _) as [lines nb']. cbn [fst snd] in *.
      rewrite totalLen_cons. split; [lia|].
      destruct lines as [|y ys]; [cbn [removelast]; change (totalLen []) with 0; lia|].
      change (removelast (cleanLine raw :: y :: ys))
        with (cleanLine raw :: removelast (y :: ys)).
      rewrite totalLen_cons. lia.
Qed.

Lemma loopAfter_budget os l files T : forall i acc nb res,
  linesFit os -> 0 < nb < 2 ^ 63 ->
  loopAfter os l files T i acc nb = Returns res ->
  exists new, res = acc ++ new /\ totalLen (removelast new) < nb.
Proof.
  induction i as [|i IH]; intros acc nb res Hfit Hnb; cbn [loopAfter];
    (destruct (index files _) as [fi| |]; [|done|done]); rewrite bind_Returns;
    unfold logLinesAfter;
    (destruct (ScanLines os _) as [ls|] eqn:Hscan;
     [destruct (LogFileStartTs _ _) as [ts| |]; [|done|done] |]);
    rewrite !bind_Returns.
  - pose proof (scanAfter_budget (Local os) T ls (ts <? T) nb (Hfit _ _ Hscan) Hnb) as [_ Hlast].
    destruct (scanAfter _ _ _ _ _) as [part nb']. cbn [fst] in Hlast.
    destruct (nb' <=? 0); intros [= <-]; by exists part.
  - destruct (nb <=? 0); intros [= <-]; exists []; (split; [done|]);
      change (totalLen (removelast [])) with 0; lia.
  - pose proof (scanAfter_budget (Local os) T ls (ts <? T) nb (Hfit _ _ Hscan) Hnb)
      as [Hsnd Hlast].
    destruct (scanAfter _ _ _ _ _) as [part nb']. cbn [fst snd] in *.
    destruct (Z.leb_spec nb' 0) as [Hstop|Hgo]; [intros [= <-]; by exists part|].
    intros Hrest. pose proof (totalLen_nonneg part).
    apply IH in Hrest as (new & -> & Hnew); [|done|lia].
    exists (part ++ new). split; [by rewrite app_assoc|].
    destruct new as [|x new]; [rewrite app_nil_r; lia|].
    rewrite removelast_app by done. rewrite totalLen_app. lia.
  - destruct (Z.leb_spec nb 0) as [Hstop|Hgo]; [lia|].
    intros Hrest. destruct (IH _ _ _ Hfit Hnb Hrest) as (new & -> & Hnew).
    exists new. by rewrite app_nil_r.
Qed.

(** X14: the budget is exceeded by less than one line.  For a budget
    between 1 and 2^63 - 1 and lines of a length an [int64] holds, what
    [LogLines] returns without the line that used the budget up (the
    first line for [startTs <= 0], the last one for [startTs > 0]) is
    shorter than [numBytes]. *)
Theorem LogLines_exceeds_budget_by_one_line os lr startTs numBytes result :
  linesFit os ->
  0 < numBytes < 2 ^ 63 ->
  LogLines os lr startTs numBytes = Returns result ->
  (startTs <= 0 -> totalLen (tail result) < numBytes)
  /\ (0 < startTs -> totalLen (removelast result) < numBytes).
Proof.
  intros Hfit Hnb. unfold LogLines.
  assert (Hnil : Returns (@nil string) = Returns result ->
                 (startTs <= 0 -> totalLen (tail result) < numBytes)
                 /\ (0 < startTs -> totalLen (removelast result) < numBytes)).
  { intros [= <-]. change (totalLen (tail [])) with 0.
    change (totalLen (removelast [])) with 0. lia. }
  destruct lr as [l|]; [|done]. unfold LogRedirector_LogLines.
  destruct (Readdir os (logDir l)) as [fis|]; [|done].
  destruct (length (logFiles fis) =? 0)%nat; [done|].
  destruct (Z.eqb_spec startTs 0) as [->|Hne].
  - rewrite loopRecent_loopBefore.
    destruct (loopBefore_budget os l (logFiles fis) 0 [] numBytes Hfit Hnb) as (new & -> & Hnew).
    rewrite app_nil_r. intros [= <-]. split; [done | lia].
  - destruct (Z.gtb_spec startTs 0) as [Hpos|Hneg].
    + destruct (Search _ _) as [start| |]; [|done|done]. rewrite bind_Returns.
      intros Hloop. apply loopAfter_budget in Hloop as (new & -> & Hnew); [|done|done].
      cbn [app]. split; [lia | done].
    + destruct (Search _ _) as [start| |]; [|done|done]. rewrite bind_Returns.
      destruct (loopBefore_budget os l (drop start (logFiles fis)) (int64 (- startTs)) []
                  numBytes Hfit Hnb) as (new & -> & Hnew).
      rewrite app_nil_r. intros [= <-]. split; [done | lia].
Qed.

Lemma osOf_linesFit files :
  Forall (fun f => Forall (fun line => Str.len (cleanLine line) < 2 ^ 63) (snd f)) files ->
  linesFit (Sample.osOf "logs" files).
Proof.
  intros Hall path ls. cbn [ScanLines Sample.osOf].
  destruct (find _ files) as [f|] eqn:Hfind; [|done]. intros [= <-].
  apply find_some in Hfind as [Hin _].
  rewrite Forall_forall in Hall. apply Hall. by apply list_elem_of_In.
Qed.

Lemma LogLines_exceeds_budget_by_one_line_witness :
  LogLines Sample.twoFiles (Some (Sample.redirector Sample.secondLog 4 [])) 0 40
  = Returns ["2018/05/01 16:00:01 [main.go:7] c"; "2018/05/01 16:30:00 [main.go:7] d"]
  /\ totalLen ["2018/05/01 16:30:00 [main.go:7] d"] < 40.
Proof.
  split; [vm_compute; reflexivity|].
  refine (proj1 (LogLines_exceeds_budget_by_one_line Sample.twoFiles
                   (Some (Sample.redirector Sample.secondLog 4 [])) 0 40
                   ["2018/05/01 16:00:01 [main.go:7] c"; "2018/05/01 16:30:00 [main.go:7] d"]
                   _ _ _) _).
  - apply osOf_linesFit. repeat constructor.
  - lia.
  - vm_compute. reflexivity.
  - lia.
Defined.

(** Every file [LogLines] reads is a regular entry of the listing with
    the name of a log file. *)
Lemma logFiles_from fis :
  Forall (listed fis) (logFiles fis).
Proof.
  apply sortByNameDesc_Forall, Forall_forall. intros fi Hin.
  apply list_elem_of_filter in Hin as [Hfi Hin].
  apply andb_prop in Hfi as [Hreg Hname]. done.
Qed.

Section Sources.

Variables (os : Os.t) (l : LogRedirector) (fis : list FileInfo).

Lemma listed_lines fi ls :
  listed fis fi -> ScanLines os (Join (logDir l) (Name fi)) = Ok ls ->
  Forall (fun raw => fromLogFile os l fis (cleanLine raw)) ls.
Proof.
  intros (Hin & Hreg & Hname) Hscan. apply Forall_forall. intros raw Hraw.
  exists fi, ls, raw. done.
Qed.

Lemma logLinesBefore_from fi T nb :
  listed fis fi -> Forall (fromLogFile os l fis) (fst (logLinesBefore os l fi T nb)).
Proof.
  intros Hfi. unfold logLinesBefore.
  destruct (ScanLines os _) as [ls|] eqn:Hscan; [|constructor].
  apply budgetFromEnd_Forall, scanBefore_Forall. by eapply listed_lines.
Qed.

Lemma loopBefore_from files : forall T acc nb,
  Forall (listed fis) files -> Forall (fromLogFile os l fis) acc ->
  Forall (fromLogFile os l fis) (loopBefore os l files T acc nb).
Proof.
  induction files as [|fi rest IH]; intros T acc nb Hfiles Hacc; cbn [loopBefore]; [done|].
  inversion Hfiles as [|? ? Hfi Hrest]; subst.
  pose proof (logLinesBefore_from fi T nb Hfi) as Hls.
  destruct (logLinesBefore os l fi T nb) as [ls nb']. cbn [fst] in Hls.
  assert (Forall (fromLogFile os l fis) (ls ++ acc)) by by apply Forall_app.
  destruct (nb' <=? 0); [done | by apply IH].
Qed.

Lemma loopAfter_from files T : forall i acc nb res,
  Forall (listed fis) files -> Forall (fromLogFile os l fis) acc ->
  loopAfter os l files T i acc nb = Returns res ->
  Forall (fromLogFile os l fis) res.
Proof.
  induction i as [|i IH]; intros acc nb res Hfiles Hacc; cbn [loopAfter];
    (destruct (index files _) as [fi| |] eqn:Hidx; [|done|done]); rewrite bind_Returns;
    (assert (Hfi : listed fis fi)
       by (unfold index in Hidx; destruct (files !! _) as [fj|] eqn:Hfj; [|done];
           injection Hidx as ->; by eapply (Forall_lookup_1 (listed fis))));
    unfold logLinesAfter;
    (destruct (ScanLines os _) as [ls|] eqn:Hscan;
     [destruct (LogFileStartTs _ _) as [ts| |]; [|done|done] |]);
    rewrite !bind_Returns.
  - pose proof (scanAfter_Forall (fromLogFile os l fis) (Local os) T ls (ts <? T) nb
                  (listed_lines fi ls Hfi Hscan)) as Hls.
    destruct (scanAfter _ _ _ _ _) as [part nb']. cbn [fst] in Hls.
    destruct (nb' <=? 0); intros [= <-]; by apply Forall_app.
  - rewrite app_nil_r. destruct (nb <=? 0); by intros [= <-].
  - pose proof (scanAfter_Forall (fromLogFile os l fis) (Local os) T ls (ts <? T) nb
                  (listed_lines fi ls Hfi Hscan)) as Hls.
    destruct (scanAfter _ _ _ _ _) as [part nb']. cbn [fst] in Hls.
    assert (Forall (fromLogFile os l fis) (acc ++ part)) by by apply Forall_app.
    destruct (nb' <=? 0); [by intros [= <-] | by apply IH].
  - rewrite app_nil_r. destruct (nb <=? 0); [by intros [= <-] | by apply IH].
Qed.

End Sources.

(** X15: [LogLines] makes nothing up and reads nothing else: every line
    it returns, for any [startTs] and [numBytes], is a line of a regular
    file of the log directory with the name of a log file, trimmed and
    with its colour codes taken out. *)
Theorem LogLines_returns_lines_of_log_files os l startTs numBytes fis result :
  Readdir os (logDir l) = Ok fis ->
  LogRedirector_LogLines os l startTs numBytes = Returns result ->
  Forall (fromLogFile os l fis) result.
Proof.
  intros Hdir. unfold LogRedirector_LogLines. rewrite Hdir.
  pose proof (logFiles_from fis) as Hfiles.
  destruct (length (logFiles fis) =? 0)%nat; [by intros [= <-]|].
  destruct (startTs =? 0).
  - intros [= <-]. rewrite loopRecent_loopBefore. by apply loopBefore_from.
  - destruct (startTs >? 0);
      (destruct (Search _ _) as [start| |]; [|done|done]); rewrite bind_Returns.
    + intros Hloop. by eapply loopAfter_from.
    + intros [= <-]. apply loopBefore_from; [by apply Forall_drop | done].
Qed.

Lemma LogLines_returns_lines_of_log_files_witness :
  Forall (fromLogFile Sample.mixedLines (Sample.redirector Sample.firstLog 4 [])
            [Sample.logFile "notes.txt" 5 30; Sample.logFile Sample.firstLog 6 10])
         ["hello"]
  /\ LogRedirector_LogLines Sample.mixedLines (Sample.redirector Sample.firstLog 4 []) 0 100
     = Returns ["hello"].
Proof.
  split; [|vm_compute; reflexivity].
  apply (LogLines_returns_lines_of_log_files Sample.mixedLines
           (Sample.redirector Sample.firstLog 4 []) 0 100).
  - reflexivity.
  - vm_compute. reflexivity.
Defined.

(** ** Retrieval from a point in time on *)

Lemma scanAfter_headUnder loc T ls : forall (b : bool) nb,
  scanAfter loc T b ls nb
  = headUnder (map cleanLine (if b then linesFrom loc T ls else ls)) nb.
Proof.
  induction ls as [|raw rest IH]; intros b nb; cbn [scanAfter]; [by destruct b|].
  destruct b; cbn [andb linesFrom].
  - destruct (LogLineTs loc raw <? T); [by rewrite (IH true)|].
    cbn [map headUnder]. destruct (_ <=? 0); [done|]. by rewrite (IH false).
  - cbn [map headUnder]. destruct (_ <=? 0); [done|]. by rewrite (IH false).
Qed.

Lemma loopAfter_collect os l files T : forall i acc nb,
  Forall isLogFile files -> (i < length files)%nat ->
  loopAfter os l files T i acc nb
  = Returns (acc ++ collectAfter os l T (rev (take (S i) files)) nb).
Proof.
  induction i as [|i IH]; intros acc nb Hall Hi;
    destruct (index_lt files _ Hi) as (fi & Hidx & Hfi);
    cbn [loopAfter]; rewrite Hidx, bind_Returns;
    rewrite (take_S_r _ _ fi Hfi), rev_app_distr; cbn [rev app collectAfter];
    unfold logLinesAfter, createTs;
    (destruct (LogFileStartTs_match (Local os) (Name fi)) as [ts ->];
     [by eapply (Forall_lookup_1 isLogFile) |]);
    (destruct (ScanLines os _) as [ls|]; rewrite !bind_Returns;
     [rewrite scanAfter_headUnder | cbn [headUnder]]).
  - destruct (headUnder _ _) as [part remaining]. rewrite take_0. cbn [rev collectAfter].
    rewrite app_nil_r. by destruct (remaining <=? 0).
  - rewrite take_0. cbn [rev collectAfter app]. by destruct (nb <=? 0).
  - destruct (headUnder _ _) as [part remaining].
    destruct (remaining <=? 0); [done|]. rewrite IH by (done || lia). by rewrite app_assoc.
  - destruct (nb <=? 0); [done|]. rewrite IH by (done || lia). by rewrite app_nil_r.
Qed.

Lemma startPred_le_createTs os files T h :
  Forall isLogFile files -> (h < length files)%nat ->
  (fi ← index files h;
   ts ← LogFileStartTs (Local os) (Name fi);
   Returns (ts <=? T))
  = Returns (match files !! h with
             | Some fi => createTs (Local os) fi <=? T
             | None => false
             end).
Proof.
  intros Hall Hh. destruct (index_lt files _ Hh) as (fi & -> & Hfi). rewrite bind_Returns, Hfi.
  unfold createTs.
  destruct (LogFileStartTs_match (Local os) (Name fi)) as [ts ->];
    [by eapply (Forall_lookup_1 isLogFile) | done].
Qed.

(** X16: for [startTs > 0] the scan starts at a file created at
    [startTs] or before, or at the oldest file when the search finds
    none (when the creation times fall along the listing every newer
    file was created after [startTs]), and goes on towards newer files.
    A file created before [startTs] is read from its first line stamped
    [startTs] or later, every other file from its first line; lines are
    taken while budget is left, the line that uses it up included, and
    the parts are joined in the order of the scan. *)
Theorem LogLines_after_scans_towards_newer os l startTs numBytes fis :
  Readdir os (logDir l) = Ok fis ->
  0 < startTs ->
  logFiles fis <> [] ->
  exists start,
    (start < length (logFiles fis))%nat
    /\ (forall fi, logFiles fis !! start = Some fi ->
          createTs (Local os) fi <= startTs
          \/ S start = length (logFiles fis) /\ startTs < createTs (Local os) fi)
    /\ (newestFirst (Local os) (logFiles fis) ->
        forall k fi, (k < start)%nat -> logFiles fis !! k = Some fi ->
          startTs < createTs (Local os) fi)
    /\ LogRedirector_LogLines os l startTs numBytes
       = Returns (collectAfter os l startTs (rev (take (S start) (logFiles fis))) numBytes).
Proof.
  intros Hdir Hts Hne.
  pose proof (logFiles_Forall fis) as Hall. set (files := logFiles fis) in *.
  assert (Hlen : (0 < length files)%nat) by (destruct files; [done | simpl; lia]).
  set (p := fun h => match files !! h with
                     | Some fi => createTs (Local os) fi <=? startTs
                     | None => false
                     end).
  destruct (Search_boundary
              (fun i => fi ← index files i;
                        ts ← LogFileStartTs (Local os) (Name fi);
                        Returns (ts <=? startTs)) p (length files))
    as (r & Hsearch & Hle & Hbelow & Hat).
  { intros h Hh. by apply startPred_le_createTs. }
  assert (Hnewer : newestFirst (Local os) files ->
            forall k fi, (k < r)%nat -> files !! k = Some fi ->
              startTs < createTs (Local os) fi).
  { intros Hmono k fi Hk Hfi.
    destruct (lookup_lt_is_Some_2 files (r - 1)%nat) as [fj Hfj]; [lia|].
    assert (Hj : startTs < createTs (Local os) fj).
    { specialize (Hbelow ltac:(lia)). unfold p in Hbelow. rewrite Hfj in Hbelow.
      by apply Z.leb_gt. }
    pose proof (Hmono k (r - 1)%nat fi fj ltac:(lia) Hfi Hfj). lia. }
  exists (if (r =? length files)%nat then (length files - 1)%nat else r).
  destruct (Nat.eqb_spec r (length files)) as [Hclamp|Hin].
  - split; [lia|]. split; [|split].
    + intros fi Hfi. right. split; [lia|].
      specialize (Hbelow ltac:(lia)). unfold p in Hbelow. rewrite Hclamp, Hfi in Hbelow.
      by apply Z.leb_gt.
    + intros Hmono k fi Hk Hfi. apply (Hnewer Hmono k); [lia | done].
    + unfold LogRedirector_LogLines. rewrite Hdir. fold files.
      destruct (Nat.eqb_spec (length files) 0); [lia|].
      destruct (Z.eqb_spec startTs 0); [lia|]. destruct (Z.gtb_spec startTs 0); [|lia].
      rewrite Hsearch, bind_Returns, Hclamp, Nat.eqb_refl.
      rewrite loopAfter_collect by (done || lia). done.
  - split; [lia|]. split; [|split].
    + intros fi Hfi. left. specialize (Hat ltac:(lia)). unfold p in Hat.
      rewrite Hfi in Hat. by apply Z.leb_le.
    + done.
    + unfold LogRedirector_LogLines. rewrite Hdir. fold files.
      destruct (Nat.eqb_spec (length files) 0); [lia|].
      destruct (Z.eqb_spec startTs 0); [lia|]. destruct (Z.gtb_spec startTs 0); [|lia].
      rewrite Hsearch, bind_Returns.
      destruct (Nat.eqb_spec r (length files)); [done|].
      rewrite loopAfter_collect by (done || lia). done.
Qed.

Lemma LogLines_after_scans_towards_newer_witness :
  LogRedirector_LogLines Sample.twoFiles (Sample.redirector Sample.secondLog 4 [])
    1525213980 1000
  = Returns ["2018/05/01 15:33:00 [main.go:7] a"; "no stamp";
             "2018/05/01 16:00:01 [main.go:7] c"; "2018/05/01 16:30:00 [main.go:7] d"]
  /\ exists start,
       LogRedirector_LogLines Sample.twoFiles (Sample.redirector Sample.secondLog 4 [])
         1525213980 1000
       = Returns (collectAfter Sample.twoFiles (Sample.redirector Sample.secondLog 4 [])
                    1525213980
                    (rev (take (S start)
                            (logFiles [Sample.logFile Sample.firstLog 60 10;
                                       Sample.logFile Sample.secondLog 70 20]))) 1000).
Proof.
  split; [vm_compute; reflexivity|].
  destruct (LogLines_after_scans_towards_newer Sample.twoFiles
              (Sample.redirector Sample.secondLog 4 []) 1525213980 1000
              [Sample.logFile Sample.firstLog 60 10; Sample.logFile Sample.secondLog 70 20])
    as (start & _ & _ & _ & Heq).
  - reflexivity.
  - lia.
  - vm_compute. discriminate.
  - exists start. exact Heq.
Defined.

(** ** The most recent lines *)

Lemma history_cons os l fi rest :
  history os l (fi :: rest) = history os l rest ++ fileLines os l fi.
Proof.
  unfold history. cbn [rev]. rewrite map_app, concat_app. cbn [map List.concat].
  by rewrite app_nil_r.
Qed.

Lemma logLinesBefore_zero os l fi nb :
  fst (logLinesBefore os l fi 0 nb) = fileLines os l fi
  \/ (snd (logLinesBefore os l fi 0 nb) <= 0
      /\ exists i, fst (logLinesBefore os l fi 0 nb) = drop i (fileLines os l fi)).
Proof.
  unfold logLinesBefore, fileLines.
  destruct (ScanLines os _) as [ls|]; [|by left].
  rewrite scanBefore_zero. apply budgetFromEnd_cases.
Qed.

Lemma loopBefore_suffix os l files : forall acc nb,
  exists new pre,
    loopBefore os l files 0 acc nb = new ++ acc /\ history os l files = pre ++ new.
Proof.
  induction files as [|fi rest IH]; intros acc nb; cbn [loopBefore].
  - by exists [], [].
  - rewrite history_cons.
    destruct (logLinesBefore_zero os l fi nb) as [Hall | (Hstop & i & Hdrop)];
      destruct (logLinesBefore os l fi 0 nb) as [ls nb']; cbn [fst snd] in *; subst ls.
    + destruct (nb' <=? 0); [by exists (fileLines os l fi), (history os l rest)|].
      destruct (IH (fileLines os l fi ++ acc) nb') as (new & pre & -> & ->).
      exists (new ++ fileLines os l fi), pre. by rewrite !app_assoc.
    + destruct (Z.leb_spec nb' 0); [|lia].
      exists (drop i (fileLines os l fi)), (history os l rest ++ take i (fileLines os l fi)).
      split; [done|]. by rewrite <- app_assoc, take_drop.
Qed.

Lemma logLinesBefore_all os l fi nb :
  linesFit os -> totalLen (fileLines os l fi) < nb < 2 ^ 63 ->
  logLinesBefore os l fi 0 nb = (fileLines os l fi, nb - totalLen (fileLines os l fi)).
Proof.
  intros Hfit Hnb. pose proof (totalLen_nonneg (fileLines os l fi)) as Hpos.
  unfold logLinesBefore, fileLines in *.
  destruct (ScanLines os _) as [ls|] eqn:Hscan.
  2:{ change (totalLen []) with 0. by rewrite Z.sub_0_r. }
  rewrite scanBefore_zero. set (lines := map cleanLine ls) in *.
  destruct (budgetFromEnd_budget lines (length lines) nb) as (i & Hi & Hfst & Hsnd & Hcase);
    [by apply Forall_map, (Hfit _ _ Hscan) | done | lia |].
  destruct (budgetFromEnd lines (length lines) nb) as [part nb']. cbn [fst snd] in *.
  pose proof (totalLen_take_drop (length lines - i) i lines).
  destruct Hcase as [[_ ->]|(Hneg & _ & _)]; [|lia].
  rewrite drop_0, Nat.sub_0_r, take_ge in * by done. by subst.
Qed.

Lemma loopBefore_all os l files : forall acc nb,
  linesFit os -> totalLen (history os l files) < nb < 2 ^ 63 ->
  loopBefore os l files 0 acc nb = history os l files ++ acc.
Proof.
  induction files as [|fi rest IH]; intros acc nb Hfit Hnb; cbn [loopBefore]; [done|].
  rewrite history_cons, totalLen_app in *.
  pose proof (totalLen_nonneg (history os l rest)).
  pose proof (totalLen_nonneg (fileLines os l fi)).
  rewrite logLinesBefore_all by (done || lia).
  destruct (Z.leb_spec (nb - totalLen (fileLines os l fi)) 0); [lia|].
  rewrite IH by (done || lia). by rewrite app_assoc.
Qed.

(** X17: [LogLines(0, numBytes)] returns the end of the history: the
    lines of the log files put one after the other, oldest file first,
    have the result as their last part; and when the whole is shorter
    than the budget, all of it is returned. *)
Theorem LogLines_recent_is_end_of_history os l numBytes fis result :
  Readdir os (logDir l) = Ok fis ->
  LogRedirector_LogLines os l 0 numBytes = Returns result ->
  (exists older, history os l (logFiles fis) = older ++ result)
  /\ (linesFit os -> totalLen (history os l (logFiles fis)) < numBytes < 2 ^ 63 ->
      result = history os l (logFiles fis)).
Proof.
  intros Hdir. unfold LogRedirector_LogLines. rewrite Hdir.
  destruct (Nat.eqb_spec (length (logFiles fis)) 0) as [Hnil|Hn].
  - intros [= <-]. destruct (logFiles fis); [|done]. split; [by exists []|done].
  - cbn [Z.eqb]. rewrite loopRecent_loopBefore. intros [= <-]. split.
    + destruct (loopBefore_suffix os l (logFiles fis) [] numBytes) as (new & pre & -> & ->).
      exists pre. by rewrite app_nil_r.
    + intros Hfit Hnb. rewrite loopBefore_all by done. by rewrite app_nil_r.
Qed.

Lemma LogLines_recent_is_end_of_history_witness :
  (exists older,
     history Sample.twoFiles (Sample.redirector Sample.secondLog 4 [])
       (logFiles [Sample.logFile Sample.firstLog 60 10; Sample.logFile Sample.secondLog 70 20])
     = older ++ ["no stamp"; "2018/05/01 16:00:01 [main.go:7] c";
                 "2018/05/01 16:30:00 [main.go:7] d"])
  /\ LogRedirector_LogLines Sample.twoFiles (Sample.redirector Sample.secondLog 4 []) 0 70
     = Returns ["no stamp"; "2018/05/01 16:00:01 [main.go:7] c";
                "2018/05/01 16:30:00 [main.go:7] d"].
Proof.
  split; [|vm_compute; reflexivity].
  refine (proj1 (LogLines_recent_is_end_of_history Sample.twoFiles
                   (Sample.redirector Sample.secondLog 4 []) 70
                   [Sample.logFile Sample.firstLog 60 10; Sample.logFile Sample.secondLog 70 20]
                   _ _ _)).
  - reflexivity.
  - vm_compute. reflexivity.
Defined.

(** ** The source path of a call from C *)

Lemma length_append a b : String.length (a +:+ b) = (String.length a + String.length b)%nat.
Proof.
  induction a as [|c a IH]; [done|].
  change (String c a +:+ b) with (String c (a +:+ b)). cbn [String.length]. by rewrite IH.
Qed.

Lemma prefix_split a : forall s, String.prefix a s = true -> exists rest, s = a +:+ rest.
Proof.
  induction a as [|c a IH]; intros s.
  - intros _. exists s. reflexivity.
  - destruct s as [|d s]; cbn [String.prefix]; [done|].
    destruct (Ascii.ascii_dec c d) as [->|]; [|done].
    intros H. destruct (IH _ H) as [rest ->]. by exists rest.
Qed.

Lemma prefix_append a b : String.prefix a (a +:+ b) = true.
Proof.
  induction a as [|c a IH]; [change (EmptyString +:+ b) with b; by destruct b|].
  change (String c a +:+ b) with (String c (a +:+ b)). cbn [String.prefix].
  by destruct (Ascii.ascii_dec c c).
Qed.

Lemma sliceFrom_append a b : Calls.sliceFrom (String.length a) (a +:+ b) = b.
Proof.
  induction a as [|c a IH]; [done|].
  change (String c a +:+ b) with (String c (a +:+ b)). apply IH.
Qed.

Lemma sliceFrom_after pre sub rest :
  Calls.sliceFrom (String.length pre + String.length sub) (pre +:+ sub +:+ rest) = rest.
Proof. rewrite <- append_assoc, <- length_append. apply sliceFrom_append. Qed.

(** [LastIndex] finds an occurrence... *)
Lemma LastIndex_Some s sub : forall i,
  Calls.LastIndex s sub = Some i ->
  exists pre rest, s = pre +:+ sub +:+ rest /\ String.length pre = i.
Proof.
  induction s as [|c s IH]; intros i; cbn [Calls.LastIndex].
  - destruct (String.eqb_spec sub EmptyString) as [->|]; [|done].
    intros [= <-]. by exists EmptyString, EmptyString.
  - destruct (Calls.LastIndex s sub) as [j|].
    + intros [= <-]. destruct (IH j eq_refl) as (pre & rest & -> & Hlen).
      exists (String c pre), rest. split; [done|]. cbn [String.length]. by rewrite Hlen.
    + destruct (String.prefix sub (String c s)) eqn:Hpre; [|done].
      intros [= <-]. destruct (prefix_split _ _ Hpre) as [rest Hrest].
      by exists EmptyString, rest.
Qed.

(** ... the last one ... *)
Lemma LastIndex_last pre : forall s sub rest,
  s = pre +:+ sub +:+ rest ->
  exists i, Calls.LastIndex s sub = Some i /\ (String.length pre <= i)%nat.
Proof.
  induction pre as [|c pre IH]; intros s sub rest ->.
  - change (EmptyString +:+ sub +:+ rest) with (sub +:+ rest).
    destruct (sub +:+ rest) as [|d s] eqn:Hs; cbn [Calls.LastIndex].
    + destruct sub; [|done]. exists 0%nat. done.
    + destruct (Calls.LastIndex s sub) as [j|].
      * exists (S j). split; [done|]. cbn [String.length]. lia.
      * rewrite <- Hs, prefix_append. by exists 0%nat.
  - change (String c pre +:+ sub +:+ rest) with (String c (pre +:+ sub +:+ rest)).
    cbn [Calls.LastIndex].
    destruct (IH _ sub rest eq_refl) as (j & -> & Hj).
    exists (S j). split; [done|]. cbn [String.length]. lia.
Qed.

(** ... and none when there is none. *)
Lemma LastIndex_None s sub pre rest :
  Calls.LastIndex s sub = None -> s <> pre +:+ sub +:+ rest.
Proof.
  intros Hnone ->. destruct (LastIndex_last pre _ sub rest eq_refl) as (i & Hi & _).
  congruence.
Qed.

(** X18: [srcFilePath] returns what follows the last "go/src/" of the
    path, and the path itself when it has none; so the result holds no
    "go/src/", and applying [srcFilePath] again changes nothing. *)
Theorem srcFilePath_cuts_after_last_marker path :
  ((exists pre, path = pre +:+ Calls.START_AFTER +:+ Calls.srcFilePath path)
   \/ (Calls.srcFilePath path = path
       /\ forall pre rest, path <> pre +:+ Calls.START_AFTER +:+ rest))
  /\ (forall pre rest, Calls.srcFilePath path <> pre +:+ Calls.START_AFTER +:+ rest)
  /\ Calls.srcFilePath (Calls.srcFilePath path) = Calls.srcFilePath path.
Proof.
  assert (Hcases :
    (exists pre, path = pre +:+ Calls.START_AFTER +:+ Calls.srcFilePath path)
    \/ (Calls.srcFilePath path = path
        /\ forall pre rest, path <> pre +:+ Calls.START_AFTER +:+ rest)).
  { unfold Calls.srcFilePath.
    destruct (Calls.LastIndex path Calls.START_AFTER) as [i|] eqn:Hidx.
    - left. destruct (LastIndex_Some _ _ _ Hidx) as (pre & rest & Hpath & <-).
      exists pre. rewrite Hpath at 2. by rewrite sliceFrom_after.
    - right. split; [done|]. intros pre rest. by apply LastIndex_None. }
  assert (Hnone : forall pre rest,
            Calls.srcFilePath path <> pre +:+ Calls.START_AFTER +:+ rest).
  { destruct Hcases as [[pre Hpath] | [-> Hno]]; [|done].
    intros pre2 rest2 Heq. rewrite Heq in Hpath.
    unfold Calls.srcFilePath in Heq.
    destruct (Calls.LastIndex path Calls.START_AFTER) as [i|] eqn:Hidx.
    2:{ by apply (LastIndex_None _ _ pre (pre2 +:+ Calls.START_AFTER +:+ rest2)) in Hidx. }
    destruct (LastIndex_Some _ _ _ Hidx) as (pre1 & rest1 & Hpath1 & Hlen).
    rewrite Hpath1 in Heq at 1. rewrite <- Hlen, sliceFrom_after in Heq. subst rest1.
    assert (Hlater : path = (pre1 +:+ Calls.START_AFTER +:+ pre2)
                              +:+ Calls.START_AFTER +:+ rest2)
      by (rewrite Hpath1; by rewrite !append_assoc).
    destruct (LastIndex_last _ _ _ _ Hlater) as (j & Hj & Hle).
    rewrite Hidx in Hj. injection Hj as <-.
    rewrite !length_append in Hle. cbn in Hle. lia. }
  split; [done|]. split; [done|].
  unfold Calls.srcFilePath at 1.
  destruct (Calls.LastIndex (Calls.srcFilePath path) Calls.START_AFTER) as [i|] eqn:Hidx; [|done].
  destruct (LastIndex_Some _ _ _ Hidx) as (pre & rest & Hpath & _). by apply Hnone in Hpath.
Qed.

(** ** Lines handed to the logger *)

Lemma lineTexts_step le p :
  lineTexts (Logging.logged (Logging.dedup le (Logging.reportDropped p)))
  = lineTexts (Logging.logged p)
      ++ (if String.eqb (Logging.lastLogLine p) (Logging.text le) then []
          else [Logging.text le])
  /\ Logging.lastLogLine (Logging.dedup le (Logging.reportDropped p)) = Logging.text le.
Proof.
  unfold Logging.dedup, Logging.reportDropped, lineTexts.
  cbn [Logging.lastLogLine Logging.logged Logging.lastLogLineRepeatCount].
  destruct (String.eqb_spec (Logging.lastLogLine p) (Logging.text le)) as [Heq|Hne];
    cbn [Logging.lastLogLine Logging.logged].
  - rewrite app_nil_r. split; [|done].
    destruct (Logging.droppedLogLines p >? 0); [|done].
    rewrite omap_app. cbn. by rewrite app_nil_r.
  - split; [|done]. rewrite !omap_app.
    destruct (Logging.droppedLogLines p >? 0), (Logging.lastLogLineRepeatCount p >? 0);
      rewrite ?omap_app; cbn; by rewrite ?app_nil_r.
Qed.

Lemma noRepeat_snoc ts t :
  noRepeat ts = true -> (forall x, last ts = Some x -> x <> t) ->
  noRepeat (ts ++ [t]) = true.
Proof.
  induction ts as [|x ts IH]; intros Hts Hlast; [done|].
  destruct ts as [|y ts].
  - cbn. specialize (Hlast x eq_refl). apply String.eqb_neq in Hlast. by rewrite Hlast.
  - change (noRepeat ((x :: y :: ts) ++ [t]))
      with (negb (String.eqb x y) && noRepeat ((y :: ts) ++ [t])).
    change (noRepeat (x :: y :: ts))
      with (negb (String.eqb x y) && noRepeat (y :: ts)) in Hts.
    apply andb_prop in Hts as [-> Hts]. cbn [andb]. apply IH; [done|].
    intros z Hz. by apply Hlast.
Qed.

(** What the loop body keeps true of the texts logged since a state
    whose last text was [l0]. *)
Lemma processAll_texts l0 es : forall p,
  noRepeat (lineTexts (Logging.logged p)) = true ->
  (lineTexts (Logging.logged p) = [] /\ Logging.lastLogLine p = l0
   \/ last (lineTexts (Logging.logged p)) = Some (Logging.lastLogLine p)
      /\ exists t, head (lineTexts (Logging.logged p)) = Some t /\ t <> l0) ->
  noRepeat (lineTexts (Logging.logged (processAll es p))) = true
  /\ (lineTexts (Logging.logged (processAll es p)) = []
      /\ Logging.lastLogLine (processAll es p) = l0
      \/ last (lineTexts (Logging.logged (processAll es p)))
         = Some (Logging.lastLogLine (processAll es p))
         /\ exists t, head (lineTexts (Logging.logged (processAll es p))) = Some t /\ t <> l0).
Proof.
  induction es as [|e es IH]; intros p Hno Hinv; [done|].
  unfold processAll. cbn [fold_left]. fold (processAll es).
  destruct (lineTexts_step e p) as [Htexts Hlast].
  apply IH.
  - rewrite Htexts.
    destruct (String.eqb_spec (Logging.lastLogLine p) (Logging.text e)) as [Heq|Hne];
      [by rewrite app_nil_r|].
    apply noRepeat_snoc; [done|]. intros x Hx.
    destruct Hinv as [[Hnil _] | [Hl _]]; [by rewrite Hnil in Hx | congruence].
  - rewrite Htexts, Hlast.
    destruct (String.eqb_spec (Logging.lastLogLine p) (Logging.text e)) as [Heq|Hne].
    + rewrite app_nil_r, <- Heq. done.
    + right. split; [by rewrite last_snoc|].
      destruct Hinv as [[Hnil Hl0] | [_ (t & Ht & Hne0)]].
      * rewrite Hnil. exists (Logging.text e). split; [done | congruence].
      * exists t. split; [|done].
        destruct (lineTexts (Logging.logged p)); [done | done].
Qed.

(** X19: the loop body of [processLogs] never hands the logger two lines
    in a row with the same text, whatever was dropped or repeated in
    between; and the first line it logs differs from the text it started
    with, so that entries with the empty text that come first after
    [init] are counted as repeats and not logged. *)
Theorem no_text_logged_twice_in_a_row es p :
  Logging.logged p = [] ->
  noRepeat (lineTexts (Logging.logged (processAll es p))) = true
  /\ (forall t, head (lineTexts (Logging.logged (processAll es p))) = Some t ->
        t <> Logging.lastLogLine p).
Proof.
  intros Hnew.
  destruct (processAll_texts (Logging.lastLogLine p) es p) as [Hno Hinv].
  - by rewrite Hnew.
  - left. by rewrite Hnew.
  - split; [done|]. intros t Ht.
    destruct Hinv as [[Hnil _] | [_ (t' & Ht' & Hne)]]; [by rewrite Hnil in Ht | congruence].
Qed.

Lemma no_text_logged_twice_in_a_row_witness :
  lineTexts (Logging.logged
               (processAll [Sample.entry ""; Sample.entry "a"; Sample.entry "a";
                            Sample.entry "b"; Sample.entry "a"] Logging.init))
  = ["a"; "b"; "a"]
  /\ noRepeat (lineTexts (Logging.logged
                            (processAll [Sample.entry ""; Sample.entry "a"; Sample.entry "a";
                                         Sample.entry "b"; Sample.entry "a"] Logging.init)))
     = true.
Proof.
  split; [vm_compute; reflexivity|].
  refine (proj1 (no_text_logged_twice_in_a_row _ Logging.init _)). reflexivity.
Defined.
